(** * Carousel prompt tester: the slide parser, the prompt templater and the
      three generation stages of [src/server.ts]

    Strings are JavaScript strings whose code units lie in the Latin-1 range:
    one [ascii] is one UTF-16 code unit below 256.  On that alphabet the
    tables below ([\s], [\d], [toLowerCase], the canonicalisation of the
    [i] flag) are the ECMAScript ones.

    The regular expressions of the program are kept as syntax trees and run
    by a backtracking matcher that follows the ECMAScript pattern semantics
    (priority of alternatives, greedy and lazy quantifiers, lookahead).
    The matcher works on what is left of the input: no pattern of the parser
    looks behind its position.  [split], [match], [replace], [trim],
    [toLowerCase], [includes] and [parseInt] are given as functions over
    that matcher.

    The generation API, the clock and the file system answer from outside
    the program.  A request handler is a computation over a state that
    records the calls made, the readings of the clock and the files written,
    and that may throw; a written image is recorded with its base64 text. *)

From Stdlib Require Import String Ascii List Bool Arith NArith ZArith Lia.
From Stdlib Require Import DecimalString DecimalN DecimalZ.
Import ListNotations.

Local Open Scope string_scope.

(* ================================================================== *)
(** * Characters *)

Module Chars.

Definition code (a : ascii) : N := N_of_ascii a.

(** [\d] *)
Definition is_digit (a : ascii) : bool :=
  (48 <=? code a)%N && (code a <=? 57)%N.

(** [\s], and the set [trim] removes: WhiteSpace and LineTerminator.
    TAB, LF, VT, FF, CR, SP and NBSP are the members below 256. *)
Definition is_space (a : ascii) : bool :=
  let n := code a in
  ((9 <=? n)%N && (n <=? 13)%N) || (n =? 32)%N || (n =? 160)%N.

(** LineTerminator, what [.] refuses without the [s] flag. *)
Definition is_line_terminator (a : ascii) : bool :=
  (code a =? 10)%N || (code a =? 13)%N.

Definition is_upper (a : ascii) : bool :=
  let n := code a in
  ((65 <=? n)%N && (n <=? 90)%N)
  || ((192 <=? n)%N && (n <=? 222)%N && negb (n =? 215)%N).

Definition is_lower (a : ascii) : bool :=
  let n := code a in
  ((97 <=? n)%N && (n <=? 122)%N)
  || ((224 <=? n)%N && (n <=? 254)%N && negb (n =? 247)%N).

(** [String.prototype.toLowerCase] on one code unit. *)
Definition to_lower (a : ascii) : ascii :=
  if is_upper a then ascii_of_N (code a + 32) else a.

(** Canonicalize of the [i] flag (no [u] flag): the upper case of the
    code unit when that is a single code unit.  The upper cases of [ÿ] and
    [µ] lie above 255, so the result is a code, not an [ascii]; [ß] maps to
    two code units and stays. *)
Definition canonicalize (a : ascii) : N :=
  let n := code a in
  if is_lower a then (n - 32)%N
  else if (n =? 255)%N then 376%N
  else if (n =? 181)%N then 924%N
  else n.

End Chars.

(* ================================================================== *)
(** * Strings *)

Module Str.

Fixpoint take (n : nat) (s : string) : string :=
  match n, s with
  | S n', String a s' => String a (take n' s')
  | _, _ => ""
  end.

Fixpoint drop (n : nat) (s : string) : string :=
  match n, s with
  | S n', String _ s' => drop n' s'
  | _, _ => s
  end.

Definition is_empty (s : string) : bool :=
  match s with "" => true | _ => false end.

Fixpoint map (f : ascii -> ascii) (s : string) : string :=
  match s with
  | "" => ""
  | String a s' => String (f a) (map f s')
  end.

Fixpoint all (p : ascii -> bool) (s : string) : bool :=
  match s with
  | "" => true
  | String a s' => p a && all p s'
  end.

(** [starts p s]: [s] begins with [p], code unit by code unit. *)
Fixpoint starts (p s : string) : bool :=
  match p, s with
  | "", _ => true
  | String a p', String b s' => Ascii.eqb a b && starts p' s'
  | _, _ => false
  end.

(** [starts_ci p s]: [s] begins with [p] when both are canonicalised. *)
Fixpoint starts_ci (p s : string) : bool :=
  match p, s with
  | "", _ => true
  | String a p', String b s' =>
      (Chars.canonicalize a =? Chars.canonicalize b)%N && starts_ci p' s'
  | _, _ => false
  end.

(** [occurs p s]: [p] occurs somewhere in [s]. *)
Fixpoint occurs (p s : string) : bool :=
  starts p s || match s with "" => false | String _ s' => occurs p s' end.

Fixpoint occurs_ci (p s : string) : bool :=
  starts_ci p s || match s with "" => false | String _ s' => occurs_ci p s' end.

(** [String.prototype.trim]. *)
Fixpoint trim_start (s : string) : string :=
  match s with
  | String a s' => if Chars.is_space a then trim_start s' else s
  | "" => ""
  end.

Fixpoint trim_end (s : string) : string :=
  match s with
  | String a s' =>
      let t := trim_end s' in
      if Chars.is_space a && is_empty t then "" else String a t
  | "" => ""
  end.

Definition trim (s : string) : string := trim_end (trim_start s).

(** [String.prototype.toLowerCase]. *)
Definition toLowerCase (s : string) : string := map Chars.to_lower s.

(** [String.prototype.includes]. *)
Definition includes (s tok : string) : bool := occurs tok s.

(** JavaScript truthiness of a string. *)
Definition truthy (s : string) : bool := negb (is_empty s).

End Str.

(* ================================================================== *)
(** * Regular expressions *)

Module Re.

(** The single-character matchers the program's patterns use. *)
Inductive cset : Type :=
| CChar (a : ascii)   (* a literal character *)
| CDot                (* [.] *)
| CSpace              (* [\s] *)
| CDigit              (* [\d] *)
| CAny                (* [[\s\S]] *)
| CNotNl.             (* [[^\n]] *)

Inductive regex : Type :=
| Eps
| Atom (c : cset)
| Seq (r1 r2 : regex)
| Alt (r1 r2 : regex)
| Star (greedy : bool) (c : cset)
| Plus (greedy : bool) (c : cset)
| Group (r : regex)    (* the capturing group, number 1 *)
| Ahead (r : regex)    (* [(?=r)] *)
| Eoi.                 (* [$], no [m] flag *)

Record flags : Type := { ignoreCase : bool; dotAll : bool }.

Definition newline : ascii := ascii_of_N 10.

Definition cset_match (f : flags) (c : cset) (x : ascii) : bool :=
  match c with
  | CChar a =>
      if ignoreCase f
      then (Chars.canonicalize a =? Chars.canonicalize x)%N
      else Ascii.eqb a x
  | CDot => if dotAll f then true else negb (Chars.is_line_terminator x)
  | CSpace => Chars.is_space x
  | CDigit => Chars.is_digit x
  | CAny => true
  | CNotNl => negb (Ascii.eqb x newline)
  end.

(** The end of a match: what is left of the input, and capture 1. *)
Definition mresult : Type := option (string * option string).
Definition mcont : Type := string -> option string -> mresult.

Definition accept : mcont := fun s c => Some (s, c).

Definition orelse (a b : mresult) : mresult :=
  match a with Some x => Some x | None => b end.

(** The text between position [s] and the later position [s']. *)
Definition consumed (s s' : string) : string :=
  Str.take (String.length s - String.length s') s.

Fixpoint star_greedy (p : ascii -> bool) (s : string)
    (k : string -> mresult) : mresult :=
  match s with
  | String a s' =>
      if p a then orelse (star_greedy p s' k) (k s) else k s
  | "" => k s
  end.

Fixpoint star_lazy (p : ascii -> bool) (s : string)
    (k : string -> mresult) : mresult :=
  orelse (k s)
    match s with
    | String a s' => if p a then star_lazy p s' k else None
    | "" => None
    end.

Definition star (greedy : bool) := if greedy then star_greedy else star_lazy.

(** [rmatch f r s c k]: match [r] at the start of [s] with capture state
    [c], then continue with [k]; [None] makes the caller backtrack. *)
Fixpoint rmatch (f : flags) (r : regex) (s : string) (c : option string)
    (k : mcont) : mresult :=
  match r with
  | Eps => k s c
  | Atom cs =>
      match s with
      | String a s' => if cset_match f cs a then k s' c else None
      | "" => None
      end
  | Seq r1 r2 => rmatch f r1 s c (fun s' c' => rmatch f r2 s' c' k)
  | Alt r1 r2 => orelse (rmatch f r1 s c k) (rmatch f r2 s c k)
  | Star g cs => star g (cset_match f cs) s (fun s' => k s' c)
  | Plus g cs =>
      match s with
      | String a s' =>
          if cset_match f cs a
          then star g (cset_match f cs) s' (fun s'' => k s'' c)
          else None
      | "" => None
      end
  | Group r1 => rmatch f r1 s c (fun s' _ => k s' (Some (consumed s s')))
  | Ahead r1 =>
      match rmatch f r1 s c accept with
      | Some (_, c') => k s c'
      | None => None
      end
  | Eoi => match s with "" => k s c | _ => None end
  end.

(** A literal, character by character. *)
Fixpoint lit (p : string) : regex :=
  match p with
  | "" => Eps
  | String a p' => Seq (Atom (CChar a)) (lit p')
  end.

(** One match: the text before it, the matched text, the text after it and
    capture 1. *)
Record found : Type := Found {
  before : string;
  matched : string;
  after : string;
  capture : option string
}.

Definition shift (a : ascii) (m : found) : found :=
  {| before := String a (before m); matched := matched m;
     after := after m; capture := capture m |}.

(** A match that starts exactly at [s]. *)
Definition match_at (f : flags) (r : regex) (s : string) : option found :=
  match rmatch f r s None accept with
  | Some (s', c) =>
      Some {| before := ""; matched := consumed s s'; after := s';
              capture := c |}
  | None => None
  end.

(** RegExpBuiltinExec from index 0 without the sticky flag: the first start
    position, the end of input included, at which the pattern matches. *)
Fixpoint exec (f : flags) (r : regex) (s : string) : option found :=
  match match_at f r s with
  | Some m => Some m
  | None =>
      match s with
      | "" => None
      | String a s' => option_map (shift a) (exec f r s')
      end
  end.

End Re.

(* ================================================================== *)
(** * The JavaScript string methods that take a regular expression *)

Module Js.

Import Re.

(** A thrown value: an [Error] object with its message, or any other
    value ([error instanceof Error] tells them apart). *)
Inductive exn : Type :=
| Error (message : string)
| NonError.

Inductive result (A : Type) : Type :=
| Ok (a : A)
| Throw (e : exn).
Arguments Ok {A} a.
Arguments Throw {A} e.

Definition bind {A B : Type} (m : result A) (k : A -> result B) : result B :=
  match m with
  | Ok a => k a
  | Throw e => Throw e
  end.

(** A JavaScript number as far as the program needs it: an integer that a
    double holds exactly, the double nearest to a larger integer (its
    rounding is the engine's), or [NaN]. *)
Inductive number : Type :=
| Num (z : Z)
| Approx (z : Z)
| NaN.

Definition number_of_Z (z : Z) : number :=
  if (Z.abs z <=? 2 ^ 53)%Z then Num z else Approx z.

Definition digit_value (a : ascii) : Z := Z.of_N (Chars.code a) - 48.

(** The value of a run of decimal digits, read left to right. *)
Fixpoint decimal_acc (acc : Z) (ds : string) : Z :=
  match ds with
  | "" => acc
  | String a ds' => decimal_acc (10 * acc + digit_value a) ds'
  end.

Definition decimal (ds : string) : Z := decimal_acc 0 ds.

Fixpoint take_while (p : ascii -> bool) (s : string) : string :=
  match s with
  | String a s' => if p a then String a (take_while p s') else ""
  | "" => ""
  end.

(** [parseInt(s, 10)]: leading white space is skipped, a sign is read, and
    the longest run of digits that follows is the value; no digit gives
    [NaN]. *)
Definition parseInt10 (s : string) : number :=
  let s1 := Str.trim_start s in
  let '(neg, s2) :=
    match s1 with
    | String "-" t => (true, t)
    | String "+" t => (false, t)
    | _ => (false, s1)
    end in
  let ds := take_while Chars.is_digit s2 in
  if Str.is_empty ds then NaN
  else number_of_Z (if neg then (- decimal ds)%Z else decimal ds).

(** GetSubstitution for a pattern without capturing groups: [$$] is a
    dollar, [$&] the matched text, [$`] the text before the match, [$'] the
    text after it; [$1] and the like name no group and stay as written. *)
Fixpoint get_substitution (repl mt pre post : string) : string :=
  match repl with
  | "" => ""
  | String a t =>
      if Ascii.eqb a "$" then
        match t with
        | "" => "$"
        | String b t' =>
            if Ascii.eqb b "$" then String "$" (get_substitution t' mt pre post)
            else if Ascii.eqb b "&" then mt ++ get_substitution t' mt pre post
            else if Ascii.eqb b "`" then pre ++ get_substitution t' mt pre post
            else if Ascii.eqb b "'" then post ++ get_substitution t' mt pre post
            else String a (get_substitution t mt pre post)
        end
      else String a (get_substitution t mt pre post)
  end.

(** [s.replace(r, repl)] for a pattern without the [g] flag: the first
    match only. *)
Definition replace_first (f : flags) (r : regex) (repl s : string) : string :=
  match exec f r s with
  | Some m =>
      before m ++ get_substitution repl (matched m) (before m) (after m)
        ++ after m
  | None => s
  end.

(** [s.replace(r, repl)] for a pattern with the [g] flag.  [pre] is the text
    before the current position and [skip] the number of characters of the
    last match still to pass; an empty match moves the next attempt one
    character on. *)
Fixpoint replace_go (f : flags) (r : regex) (repl pre s : string)
    (skip : nat) : string :=
  match s with
  | "" =>
      match skip, match_at f r "" with
      | O, Some m => get_substitution repl (matched m) pre (after m)
      | _, _ => ""
      end
  | String a s' =>
      let pre' := pre ++ String a "" in
      match skip with
      | S n => replace_go f r repl pre' s' n
      | O =>
          match match_at f r s with
          | None => String a (replace_go f r repl pre' s' 0)
          | Some m =>
              get_substitution repl (matched m) pre (after m) ++
              match String.length (matched m) with
              | O => String a (replace_go f r repl pre' s' 0)
              | S n => replace_go f r repl pre' s' n
              end
          end
      end
  end.

Definition replace_all (f : flags) (r : regex) (repl s : string) : string :=
  replace_go f r repl "" s 0.

(** [s.split(r)] for a pattern with one capturing group: the pieces between
    the matches, each match leaving its capture ([None] for [undefined])
    between two pieces.  [cur] is the piece being collected. *)
Fixpoint split_go (f : flags) (r : regex) (s : string) (skip : nat)
    (cur : string) : list (option string) :=
  match s with
  | "" => [Some cur]
  | String a s' =>
      match skip with
      | S n => split_go f r s' n cur
      | O =>
          match match_at f r s with
          | None => split_go f r s' 0 (cur ++ String a "")
          | Some m =>
              match String.length (matched m) with
              | O =>
                  if Str.is_empty cur
                  then split_go f r s' 0 (String a "")
                  else Some cur :: capture m
                         :: split_go f r s' 0 (String a "")
              | S n => Some cur :: capture m :: split_go f r s' n ""
              end
          end
      end
  end.

Definition split (f : flags) (r : regex) (s : string) : list (option string) :=
  match s with
  | "" => match match_at f r "" with Some _ => [] | None => [Some ""] end
  | _ => split_go f r s 0 ""
  end.

End Js.

(* ================================================================== *)
(** * The slide content parser *)

Module Parser.

Import Re Js.

Record SlideContent : Type := {
  slideNumber : number;
  heading : string;
  explanation : string
}.

Definition nl : string := String newline "".

Fixpoint seqs (rs : list regex) : regex :=
  match rs with
  | [] => Eps
  | [r] => r
  | r :: rs' => Seq r (seqs rs')
  end.

Definition flags_i : flags := {| ignoreCase := true; dotAll := false |}.
Definition flags_is : flags := {| ignoreCase := true; dotAll := true |}.
Definition flags_none : flags := {| ignoreCase := false; dotAll := false |}.

(** [/Slide\s+(\d+)/gi] *)
Definition slide_marker : regex :=
  seqs [lit "Slide"; Plus true CSpace; Group (Plus true CDigit)].

(** [/Heading:\s*([^\n]+?)(?:\n\s*\n|Explanation:)/is] *)
Definition heading_pattern_1 : regex :=
  seqs [lit "Heading:"; Star true CSpace; Group (Plus false CNotNl);
        Alt (seqs [lit nl; Star true CSpace; lit nl]) (lit "Explanation:")].

(** [/Heading:\s*([^\n]+)/i] *)
Definition heading_pattern_2 : regex :=
  seqs [lit "Heading:"; Star true CSpace; Group (Plus true CNotNl)].

(** [/Heading:\s*(.+?)(?:\n|$)/is] *)
Definition heading_pattern_3 : regex :=
  seqs [lit "Heading:"; Star true CSpace; Group (Plus false CDot);
        Alt (lit nl) Eoi].

Definition headingPatterns : list (flags * regex) :=
  [(flags_is, heading_pattern_1); (flags_i, heading_pattern_2);
   (flags_is, heading_pattern_3)].

(** [/Explanation:\s*([\s\S]+?)(?=\n\s*Slide\s+\d+|$)/i] *)
Definition explanation_pattern_1 : regex :=
  seqs [lit "Explanation:"; Star true CSpace; Group (Plus false CAny);
        Ahead (Alt (seqs [lit nl; Star true CSpace; lit "Slide";
                          Plus true CSpace; Plus true CDigit]) Eoi)].

(** [/Explanation:\s*([\s\S]+?)(?=\n\s*\n\s*Slide|$)/i] *)
Definition explanation_pattern_2 : regex :=
  seqs [lit "Explanation:"; Star true CSpace; Group (Plus false CAny);
        Ahead (Alt (seqs [lit nl; Star true CSpace; lit nl;
                          Star true CSpace; lit "Slide"]) Eoi)].

(** [/Explanation:\s*([\s\S]+)/i] *)
Definition explanation_pattern_3 : regex :=
  seqs [lit "Explanation:"; Star true CSpace; Group (Plus true CAny)].

Definition explanationPatterns : list (flags * regex) :=
  [(flags_i, explanation_pattern_1); (flags_i, explanation_pattern_2);
   (flags_i, explanation_pattern_3)].

(** [/\n\s*\n\s*Slide.*$/is] *)
Definition trailing_slide : regex :=
  seqs [lit nl; Star true CSpace; lit nl; Star true CSpace; lit "Slide";
        Star true CDot; Eoi].

(** [.replace(/\*\*/g, "").replace(/__/g, "")] *)
Definition strip_emphasis (s : string) : string :=
  replace_all flags_none (lit "__") ""
    (replace_all flags_none (lit "**") "" s).

(** Reading a property of [undefined]. *)
Definition type_error : exn :=
  Error "Cannot read properties of undefined (reading 'trim')".

(** The loop over [headingPatterns]: the first pattern that matches decides
    the heading. *)
Fixpoint extract_heading (patterns : list (flags * regex)) (content : string)
    : result string :=
  match patterns with
  | [] => Ok ""
  | (f, r) :: rest =>
      match exec f r content with
      | Some m =>
          match capture m with
          | Some g => Ok (strip_emphasis (Str.trim g))
          | None => Throw type_error
          end
      | None => extract_heading rest content
      end
  end.

(** The loop over [explanationPatterns]: it stops at the first pattern that
    leaves a non-empty explanation; [explanation] is the variable the loop
    assigns. *)
Fixpoint extract_explanation (patterns : list (flags * regex))
    (content explanation : string) : result string :=
  match patterns with
  | [] => Ok explanation
  | (f, r) :: rest =>
      match exec f r content with
      | Some m =>
          match capture m with
          | Some g =>
              let e1 := Str.trim g in
              let e2 := Str.trim (replace_first flags_is trailing_slide "" e1) in
              let e3 := strip_emphasis e2 in
              if Str.truthy e3 then Ok e3
              else extract_explanation rest content e3
          | None => Throw type_error
          end
      | None => extract_explanation rest content explanation
      end
  end.

(** The body of the loop over the split pieces, for the capture [num] and
    the piece [content] after it. *)
Definition parse_block (num : option string) (content : string)
    (slides : list SlideContent) : result (list SlideContent) :=
  let slideNum :=
    parseInt10 (match num with Some d => d | None => "undefined" end) in
  bind (extract_heading headingPatterns content) (fun heading =>
  bind (extract_explanation explanationPatterns content "") (fun explanation =>
  if Str.truthy heading && Str.truthy explanation
  then Ok (slides ++ [{| slideNumber := slideNum; heading := heading;
                         explanation := explanation |}])%list
  else Ok slides)).

(** [for (let i = 1; i < slideMatches.length; i += 2)] over the pieces from
    index 1 on; [slideMatches[i + 1] || ""] is the content. *)
Fixpoint parse_blocks (items : list (option string))
    (slides : list SlideContent) : result (list SlideContent) :=
  match items with
  | [] => Ok slides
  | num :: rest =>
      match rest with
      | [] => parse_block num "" slides
      | c :: rest' =>
          bind (parse_block num (match c with Some t => t | None => "" end)
                  slides)
               (parse_blocks rest')
      end
  end.

Definition parseSlideContent (text : string) : result (list SlideContent) :=
  parse_blocks (tl (split flags_i slide_marker text)) [].

(** The pairs the loop visits: a capture and the piece that follows it. *)
Fixpoint blocks (items : list (option string))
    : list (option string * string) :=
  match items with
  | [] => []
  | [num] => [(num, "")]
  | num :: c :: rest =>
      (num, match c with Some t => t | None => "" end) :: blocks rest
  end.

(** The number the loop reads from a capture. *)
Definition number_of (num : option string) : number :=
  parseInt10 (match num with Some d => d | None => "undefined" end).

(** What the loop makes of a captured explanation before the emphasis
    markers go, and after. *)
Definition tidy_explanation (g : string) : string :=
  Str.trim (replace_first flags_is trailing_slide "" (Str.trim g)).

Definition clean_explanation (g : string) : string :=
  strip_emphasis (tidy_explanation g).

(** [g] is what capture 1 holds when one of the patterns matches [content]. *)
Definition captured (ps : list (flags * regex)) (content g : string) : Prop :=
  exists f r m,
    In (f, r) ps /\ exec f r content = Some m /\ capture m = Some g.

(** What one block of the text adds to the slides. *)
Definition block_records (b : option string * string) : list SlideContent :=
  match parse_block (fst b) (snd b) [] with
  | Ok rs => rs
  | Throw _ => []
  end.

End Parser.

(* ================================================================== *)
(** * The prompt templater and the image-instruction guard *)

Module Templater.

Import Re Js.

(** [/\{name\}/g] *)
Definition placeholder (name : string) : regex := lit ("{" ++ name ++ "}").

Definition flags_g : flags := {| ignoreCase := false; dotAll := false |}.

(** [prompt.replace(/\{transcript\}/g, transcript)] *)
Definition substitute_transcript (prompt transcript : string) : string :=
  replace_all flags_g (placeholder "transcript") transcript prompt.

(** [finalPrompt.replace(/\{heading\}/g, heading)
               .replace(/\{explanation\}/g, explanation)] *)
Definition substitute_slide (prompt heading explanation : string) : string :=
  replace_all flags_g (placeholder "explanation") explanation
    (replace_all flags_g (placeholder "heading") heading prompt).

Definition image_prefix : string := "Generate an image: ".

(** The guard of the two image stages. *)
Definition image_guard (finalPrompt : string) : string :=
  if negb (Str.includes (Str.toLowerCase finalPrompt) "generate")
     && negb (Str.includes (Str.toLowerCase finalPrompt) "create")
     && negb (Str.includes (Str.toLowerCase finalPrompt) "image")
  then image_prefix ++ finalPrompt
  else finalPrompt.

(** [!finalPrompt || finalPrompt.trim() === ""] *)
Definition blank (finalPrompt : string) : bool :=
  Str.is_empty finalPrompt || Str.is_empty (Str.trim finalPrompt).

End Templater.

(* ================================================================== *)
(** * The three stages *)

Module Server.

Import Re Js Parser Templater.

(** ** The generation API *)

Record InlineData : Type := {
  mimeType : option string;
  data : option string
}.

Record Part : Type := {
  thought : bool;
  part_text : option string;
  inlineData : option InlineData
}.

Record Candidate : Type := { parts : option (list Part) }.

Record UsageMetadata : Type := {
  promptTokenCount : option N;
  candidatesTokenCount : option N;
  totalTokenCount : option N
}.

Record GenResponse : Type := {
  text : option string;
  candidates : option (list Candidate);
  usageMetadata : option UsageMetadata
}.

(** A call of [ai.models.generateContent]: the model, the prompt text and,
    in the third stage, the reference image in base64. *)
Record GenRequest : Type := {
  model : string;
  contents : string;
  reference : option string
}.

(** ** The surroundings of a request

    The generation API, the clock and the file system answer from outside
    the program; the [n]-th call of each is asked with its number. *)
Record Env : Type := {
  generateContent : nat -> GenRequest -> result GenResponse;
  date_now : nat -> N;
  writeFileSync : nat -> string -> string -> option exn;
  existsSync : string -> bool;
  readFileSync : string -> result string;
  (* [path.join(__dirname, "..", "uploads", "carousel")] *)
  uploadsDir : string;
  (* [path.join(__dirname, "..", p)] *)
  join_root : string -> string;
  to_base64 : string -> string;
  json_stringify : GenResponse -> string;
  (* how the engine prints a double that is not an exact integer here *)
  render_approx : Z -> string
}.

(** What a request has done so far. *)
Record State : Type := {
  calls : list GenRequest;
  clock_reads : nat;
  write_attempts : nat;
  written : list (string * string)
}.

Definition initial : State :=
  {| calls := []; clock_reads := 0; write_attempts := 0; written := [] |}.

(** ** Computations that change the state and may throw *)

Definition M (A : Type) : Type := State -> result A * State.

Definition ret {A : Type} (a : A) : M A := fun st => (Ok a, st).

Definition throw {A : Type} (e : exn) : M A := fun st => (Throw e, st).

Definition mbind {A B : Type} (m : M A) (k : A -> M B) : M B :=
  fun st =>
    match m st with
    | (Ok a, st') => k a st'
    | (Throw e, st') => (Throw e, st')
    end.

Definition try_catch {A : Type} (m : M A) (handler : exn -> M A) : M A :=
  fun st =>
    match m st with
    | (Ok a, st') => (Ok a, st')
    | (Throw e, st') => handler e st'
    end.

Definition lift {A : Type} (r : result A) : M A := fun st => (r, st).

Declare Scope server_scope.
Delimit Scope server_scope with server.
Notation "x <- m ;; k" := (mbind m (fun x => k))
  (at level 61, m at next level, right associativity) : server_scope.
Notation "m ;;; k" := (mbind m (fun _ => k))
  (at level 61, right associativity) : server_scope.
Local Open Scope server_scope.

Definition call_api (env : Env) (req : GenRequest) : M GenResponse :=
  fun st =>
    (generateContent env (List.length (calls st)) req,
     {| calls := (calls st ++ [req])%list; clock_reads := clock_reads st;
        write_attempts := write_attempts st; written := written st |}).

Definition now (env : Env) : M N :=
  fun st =>
    (Ok (date_now env (clock_reads st)),
     {| calls := calls st; clock_reads := S (clock_reads st);
        write_attempts := write_attempts st; written := written st |}).

Definition write_file (env : Env) (filepath payload : string) : M unit :=
  fun st =>
    match writeFileSync env (write_attempts st) filepath payload with
    | Some e =>
        (Throw e,
         {| calls := calls st; clock_reads := clock_reads st;
            write_attempts := S (write_attempts st); written := written st |})
    | None =>
        (Ok tt,
         {| calls := calls st; clock_reads := clock_reads st;
            write_attempts := S (write_attempts st);
            written := (written st ++ [(filepath, payload)])%list |})
    end.

(** ** Requests and responses *)

Record TokenUsage : Type := { input : N; output : N; total : N }.

Inductive Status : Type := completed | failed.

Record GenerationResult : Type := {
  r_slideNumber : number;
  r_imageUrl : option string;
  r_status : Status;
  r_tokens : option TokenUsage;
  r_error : option string
}.

Inductive Body : Type :=
| ErrorBody (error : string) (message : option string)
| ContentBody (slides : list SlideContent) (rawResponse : string)
| FirstImageBody (imageUrl : string) (slideNumber : number)
    (tokens : TokenUsage)
| RemainingBody (results : list GenerationResult).

Record HttpResponse : Type := { status : nat; body : Body }.

Record GenerateContentRequest : Type := {
  gc_prompt : option string;
  gc_transcript : option string
}.

Record GenerateFirstImageRequest : Type := {
  fi_prompt : option string;
  fi_heading : option string;
  fi_explanation : option string;
  fi_slideNumber : number;
  fi_totalSlides : number
}.

Record GenerateRemainingImagesRequest : Type := {
  ri_prompt : option string;
  ri_slides : option (list SlideContent);
  ri_firstImageUrl : option string
}.

(** [x || ""] and [!x] for a string that may be missing. *)
Definition or_empty (x : option string) : string :=
  match x with Some s => s | None => "" end.

Definition missing (x : option string) : bool := Str.is_empty (or_empty x).

(** [error instanceof Error ? error.message : "Unknown error"] *)
Definition message_of (e : exn) : string :=
  match e with
  | Error m => m
  | NonError => "Unknown error"
  end.

Definition or_zero (x : option N) : N :=
  match x with Some n => n | None => 0%N end.

Definition tokens_of (resp : GenResponse) : TokenUsage :=
  {| input := or_zero (match usageMetadata resp with
                       | Some u => promptTokenCount u | None => None end);
     output := or_zero (match usageMetadata resp with
                        | Some u => candidatesTokenCount u | None => None end);
     total := or_zero (match usageMetadata resp with
                       | Some u => totalTokenCount u | None => None end) |}.

(** The first part that is not a thought and carries image data. *)
Fixpoint find_image (ps : list Part) : option string :=
  match ps with
  | [] => None
  | p :: rest =>
      if thought p then find_image rest
      else
        match inlineData p with
        | Some {| mimeType := Some mt; data := Some d |} =>
            if Str.includes mt "image" && Str.truthy d then Some d
            else find_image rest
        | _ => find_image rest
        end
  end.

(** [`${n}`] *)
Definition render_number (env : Env) (n : number) : string :=
  match n with
  | Num z => NilZero.string_of_int (Z.to_int z)
  | Approx z => render_approx env z
  | NaN => "NaN"
  end.

Definition render_time (t : N) : string :=
  NilZero.string_of_uint (N.to_uint t).

(** [`test-slide-${slideNumber}-${timestamp}.png`] *)
Definition filename_of (env : Env) (slideNumber : number) (timestamp : N)
    : string :=
  "test-slide-" ++ render_number env slideNumber ++ "-"
    ++ render_time timestamp ++ ".png".

Definition filepath_of (env : Env) (filename : string) : string :=
  uploadsDir env ++ "/" ++ filename.

Definition imageUrl_of (filename : string) : string :=
  "/uploads/carousel/" ++ filename.

Definition image_model : string := "gemini-3-pro-image-preview".
Definition text_model : string := "gemini-2.0-flash".

(** ** Stage A: [POST /api/generate-content] *)

Fixpoint join_texts (ps : list Part) : string :=
  match ps with
  | [] => ""
  | p :: rest => or_empty (part_text p) ++ join_texts rest
  end.

(** The text of a response: its [text] when that is non-empty, else the
    texts of the first candidate's parts, else the whole response printed. *)
Definition extract_text (env : Env) (response : GenResponse) : string :=
  if Str.truthy (or_empty (text response)) then or_empty (text response)
  else
    match candidates response with
    | Some ({| parts := Some ps |} :: _) => join_texts ps
    | _ => json_stringify env response
    end.

Definition generate_content (env : Env) (req : GenerateContentRequest)
    : M HttpResponse :=
  try_catch
    (if missing (gc_transcript req) then
       ret {| status := 400;
              body := ErrorBody "Transcript is required" None |}
     else if blank (or_empty (gc_prompt req)) then
       ret {| status := 400;
              body := ErrorBody "Prompt is required"
                (Some "Please provide a content generation prompt in the first text box") |}
     else
       let finalPrompt :=
         substitute_transcript (or_empty (gc_prompt req))
           (or_empty (gc_transcript req)) in
       response <- call_api env {| model := text_model;
                                   contents := finalPrompt;
                                   reference := None |} ;;
       let text := extract_text env response in
       slides <- lift (parseSlideContent text) ;;
       ret {| status := 200; body := ContentBody slides text |})
    (fun e =>
       ret {| status := 500;
              body := ErrorBody "Failed to generate content"
                        (Some (message_of e)) |}).

(** ** Stage B: [POST /api/generate-first-image] *)

Definition first_prompt_required : string :=
  "Prompt is required. Please provide a prompt in the first image prompt box.".

Definition generate_first_image (env : Env) (req : GenerateFirstImageRequest)
    : M HttpResponse :=
  try_catch
    (if missing (fi_heading req) || missing (fi_explanation req) then
       ret {| status := 400;
              body := ErrorBody "Heading and explanation are required" None |}
     else
       let finalPrompt := or_empty (fi_prompt req) in
       (if blank finalPrompt then throw (Error first_prompt_required)
        else ret tt) ;;;
       let finalPrompt :=
         image_guard (substitute_slide finalPrompt (or_empty (fi_heading req))
                        (or_empty (fi_explanation req))) in
       response <- call_api env {| model := image_model;
                                   contents := finalPrompt;
                                   reference := None |} ;;
       match candidates response with
       | None | Some [] => throw (Error "No candidates in response")
       | Some (candidate :: _) =>
           match parts candidate with
           | None => throw (Error "No content parts in response")
           | Some ps =>
               match find_image ps with
               | None => throw (Error "No image data found in response")
               | Some imageData =>
                   timestamp <- now env ;;
                   let filename :=
                     filename_of env (fi_slideNumber req) timestamp in
                   write_file env (filepath_of env filename) imageData ;;;
                   ret {| status := 200;
                          body := FirstImageBody (imageUrl_of filename)
                                    (fi_slideNumber req)
                                    (tokens_of response) |}
               end
           end
       end)
    (fun e =>
       ret {| status := 500;
              body := ErrorBody "Failed to generate first image"
                        (Some (message_of e)) |}).

(** ** Stage C: [POST /api/generate-remaining-images] *)

Definition remaining_prompt_required : string :=
  "Prompt is required. Please provide a prompt in the remaining images prompt box.".

(** [firstImageUrl.replace(/^\//, "")] *)
Definition strip_leading_slash (url : string) : string :=
  match url with
  | String "/" rest => rest
  | _ => url
  end.

(** The [try] block of the loop, for one slide. *)
Definition remaining_slide (env : Env) (prompt : option string)
    (base64Image : string) (slide : SlideContent) : M GenerationResult :=
  let finalPrompt := or_empty prompt in
  (if blank finalPrompt then throw (Error remaining_prompt_required)
   else ret tt) ;;;
  let finalPrompt :=
    image_guard (substitute_slide finalPrompt (heading slide)
                   (explanation slide)) in
  response <- call_api env {| model := image_model;
                              contents := finalPrompt;
                              reference := Some base64Image |} ;;
  match candidates response with
  | None | Some [] => throw (Error "No candidates in response")
  | Some (candidate :: _) =>
      match find_image (match parts candidate with
                        | Some ps => ps | None => [] end) with
      | None => throw (Error "No image data found")
      | Some slideImageData =>
          timestamp <- now env ;;
          let filename := filename_of env (slideNumber slide) timestamp in
          write_file env (filepath_of env filename) slideImageData ;;;
          ret {| r_slideNumber := slideNumber slide;
                 r_imageUrl := Some (imageUrl_of filename);
                 r_status := completed;
                 r_tokens := Some (tokens_of response);
                 r_error := None |}
      end
  end.

(** The [catch] block of the loop. *)
Definition failed_result (slide : SlideContent) (e : exn) : GenerationResult :=
  {| r_slideNumber := slideNumber slide;
     r_imageUrl := None;
     r_status := failed;
     r_tokens := None;
     r_error := Some (message_of e) |}.

(** [for (const slide of slides)], pushing one result per slide. *)
Fixpoint remaining_loop (env : Env) (prompt : option string)
    (base64Image : string) (slides : list SlideContent)
    (results : list GenerationResult) : M (list GenerationResult) :=
  match slides with
  | [] => ret results
  | slide :: rest =>
      r <- try_catch (remaining_slide env prompt base64Image slide)
             (fun e => ret (failed_result slide e)) ;;
      remaining_loop env prompt base64Image rest (results ++ [r])%list
  end.

Definition generate_remaining_images (env : Env)
    (req : GenerateRemainingImagesRequest) : M HttpResponse :=
  try_catch
    (match ri_slides req with
     | None | Some [] =>
         ret {| status := 400; body := ErrorBody "Slides are required" None |}
     | Some slides =>
         if missing (ri_firstImageUrl req) then
           ret {| status := 400;
                  body := ErrorBody "First image URL is required" None |}
         else
           let styleImagePath :=
             join_root env
               (strip_leading_slash (or_empty (ri_firstImageUrl req))) in
           if negb (existsSync env styleImagePath) then
             ret {| status := 400;
                    body := ErrorBody "Reference image not found" None |}
           else
             imageData <- lift (readFileSync env styleImagePath) ;;
             let base64Image := to_base64 env imageData in
             results <- remaining_loop env (ri_prompt req) base64Image
                          slides [] ;;
             ret {| status := 200; body := RemainingBody results |}
     end)
    (fun e =>
       ret {| status := 500;
              body := ErrorBody "Failed to generate remaining images"
                        (Some (message_of e)) |}).

End Server.

(* ================================================================== *)
(** * What the specification says, in its own words *)

Module Spec.

(** [Replaced tok v s out]: [out] is [s] with every occurrence of the token
    [tok], found left to right, replaced by the text [v]; everything else
    is copied. *)
Inductive Replaced (tok v : string) : string -> string -> Prop :=
| Replaced_end : Replaced tok v "" ""
| Replaced_hit (rest out : string) :
    Replaced tok v rest out ->
    Replaced tok v (tok ++ rest) (v ++ out)
| Replaced_copy (a : ascii) (rest out : string) :
    Str.starts tok (String a rest) = false ->
    Replaced tok v rest out ->
    Replaced tok v (String a rest) (String a out).

(** A token appears in a text when some piece of the text lower-cases to
    it. *)
Definition appears_ci (tok s : string) : Prop :=
  exists pre mid post,
    s = pre ++ mid ++ post /\ Str.toLowerCase mid = tok.

Definition guard_tokens : list string := ["generate"; "create"; "image"].

(** A slide marker: the word Slide in any case, white space, digits. *)
Definition is_marker (w ws ds : string) : Prop :=
  Str.toLowerCase w = "slide"
  /\ ws <> "" /\ Str.all Chars.is_space ws = true
  /\ ds <> "" /\ Str.all Chars.is_digit ds = true.

Definition has_marker (text : string) : Prop :=
  exists pre w ws ds post,
    text = pre ++ w ++ ws ++ ds ++ post /\ is_marker w ws ds.

(** [out] is [raw] without its emphasis markers: every pair of asterisks is
    taken out, then every pair of underscores; no pair of asterisks is left
    after the first pass and no pair of underscores after the second. *)
Definition Stripped (raw out : string) : Prop :=
  exists mid,
    Replaced "**" "" raw mid /\ Replaced "__" "" mid out
    /\ Str.occurs "**" mid = false /\ Str.occurs "__" out = false.

End Spec.


(* ================================================================== *)
(** * What a pattern matches, without the order of the search *)

Module ReSem.

Import Re.

(** [Matches f r s c s' c']: the pattern [r] can match at the start of [s]
    and leave [s'], taking the capture from [c] to [c']. *)
Inductive Matches (f : flags)
  : regex -> string -> option string -> string -> option string -> Prop :=
| M_eps s c : Matches f Eps s c s c
| M_atom cs a s c :
    cset_match f cs a = true -> Matches f (Atom cs) (String a s) c s c
| M_seq r1 r2 s c s1 c1 s2 c2 :
    Matches f r1 s c s1 c1 -> Matches f r2 s1 c1 s2 c2 ->
    Matches f (Seq r1 r2) s c s2 c2
| M_alt_l r1 r2 s c s' c' :
    Matches f r1 s c s' c' -> Matches f (Alt r1 r2) s c s' c'
| M_alt_r r1 r2 s c s' c' :
    Matches f r2 s c s' c' -> Matches f (Alt r1 r2) s c s' c'
| M_star g cs w s c :
    Str.all (cset_match f cs) w = true ->
    Matches f (Star g cs) (w ++ s) c s c
| M_plus g cs a w s c :
    cset_match f cs a = true -> Str.all (cset_match f cs) w = true ->
    Matches f (Plus g cs) (String a (w ++ s)) c s c
| M_group r s c s' c' :
    Matches f r s c s' c' ->
    Matches f (Group r) s c s' (Some (consumed s s'))
| M_ahead r s c s' c' :
    Matches f r s c s' c' -> Matches f (Ahead r) s c s c'
| M_eoi c : Matches f Eoi "" c "" c.

(** [lit_starts f p s]: [s] begins with the literal [p] under the flags. *)
Fixpoint lit_starts (f : flags) (p s : string) : bool :=
  match p, s with
  | "", _ => true
  | String a p', String b s' =>
      cset_match f (CChar a) b && lit_starts f p' s'
  | _, _ => false
  end.

(** Every match of the pattern sets capture 1. *)
Fixpoint captures (r : regex) : bool :=
  match r with
  | Group _ => true
  | Seq r1 r2 => captures r1 || captures r2
  | Alt r1 r2 => captures r1 && captures r2
  | Ahead r1 => captures r1
  | _ => false
  end.

(** Every pattern of a list sets capture 1 when it matches. *)
Definition all_capture (ps : list (flags * regex)) : Prop :=
  forall f r, In (f, r) ps -> captures r = true.

End ReSem.

(* ================================================================== *)
(** * Predicates the statements use *)

Module Pred.

(** No dollar sign: the text means itself as a replacement. *)
Definition no_dollar (v : string) : bool :=
  Str.all (fun a => negb (Ascii.eqb a "$")) v.

(** A marker of emphasis: the same character twice. *)
Definition double (a : ascii) : string := String a (String a "").

(** From the canonical code of a character back to its lower case. *)
Definition unfold_case (n : N) : ascii :=
  if (n =? 376)%N then ascii_of_N 255
  else if (n =? 924)%N then ascii_of_N 181
  else Chars.to_lower (ascii_of_N n).

End Pred.

(* ================================================================== *)
(** * What the third stage promises, slide by slide *)

Module Batch.

Import Js Parser Server.

(** [Run env prompt ref st slides results st']: the slides are processed in
    order from state [st]; a slide whose processing returns gives its own
    result, a slide whose processing throws gives a failed result with the
    message, and the next slide is processed from the state that the one
    before it left. *)
Inductive Run (env : Env) (prompt : option string) (base64Image : string)
  : State -> list SlideContent -> list GenerationResult -> State -> Prop :=
| Run_done st : Run env prompt base64Image st [] [] st
| Run_completed st slide r st1 rest rs st2 :
    remaining_slide env prompt base64Image slide st = (Ok r, st1) ->
    Run env prompt base64Image st1 rest rs st2 ->
    Run env prompt base64Image st (slide :: rest) (r :: rs) st2
| Run_failed st slide e st1 rest rs st2 :
    remaining_slide env prompt base64Image slide st = (Throw e, st1) ->
    Run env prompt base64Image st1 rest rs st2 ->
    Run env prompt base64Image st (slide :: rest)
      ({| r_slideNumber := slideNumber slide; r_imageUrl := None;
          r_status := failed; r_tokens := None;
          r_error := Some (message_of e) |} :: rs) st2.

(** The request that the third stage sends for a slide. *)
Definition slide_request (prompt : option string) (base64Image : string)
    (slide : SlideContent) : GenRequest :=
  {| model := image_model;
     contents := Templater.image_guard
                   (Templater.substitute_slide (or_empty prompt)
                      (heading slide) (explanation slide));
     reference := Some base64Image |}.

(** The image data of a response, as the third stage looks for it. *)
Definition response_image (response : GenResponse) : result string :=
  match candidates response with
  | None | Some [] => Throw (Error "No candidates in response")
  | Some (candidate :: _) =>
      match find_image (match parts candidate with
                        | Some ps => ps | None => [] end) with
      | None => Throw (Error "No image data found")
      | Some d => Ok d
      end
  end.



Definition after_call (st : State) (req : GenRequest) : State :=
  {| calls := (calls st ++ [req])%list; clock_reads := clock_reads st;
     write_attempts := write_attempts st; written := written st |}.

End Batch.

Module BatchAux.

Import Js Parser Server Batch.

(** The states a slide of the third stage can leave behind. *)
Definition after_write (st : State) (req : GenRequest)
    (file : option (string * string)) : State :=
  {| calls := (calls st ++ [req])%list;
     clock_reads := S (clock_reads st);
     write_attempts := S (write_attempts st);
     written := match file with
                | Some w => (written st ++ [w])%list
                | None => written st
                end |}.

Definition completed_result (env : Env) (slide : SlideContent) (t : N)
    (response : GenResponse) : GenerationResult :=
  {| r_slideNumber := slideNumber slide;
     r_imageUrl := Some (imageUrl_of (filename_of env (slideNumber slide) t));
     r_status := completed;
     r_tokens := Some (tokens_of response);
     r_error := None |}.

(** The [try] block of the third stage, case by case. *)
Definition slide_outcome (env : Env) (prompt : option string)
    (base64Image : string) (slide : SlideContent) (st : State)
    : result GenerationResult * State :=
  let req := slide_request prompt base64Image slide in
  if Templater.blank (or_empty prompt) then
    (Throw (Error remaining_prompt_required), st)
  else
    match generateContent env (List.length (calls st)) req with
    | Throw e => (Throw e, after_call st req)
    | Ok response =>
        match response_image response with
        | Throw e => (Throw e, after_call st req)
        | Ok d =>
            let t := date_now env (clock_reads st) in
            let path := filepath_of env (filename_of env (slideNumber slide) t) in
            match writeFileSync env (write_attempts st) path d with
            | Some e => (Throw e, after_write st req None)
            | None =>
                (Ok (completed_result env slide t response),
                 after_write st req (Some (path, d)))
            end
        end
    end.

(** The results of a batch whose prompt is blank. *)
Definition prompt_failures (slides : list SlideContent)
    : list GenerationResult :=
  List.map (fun slide => failed_result slide (Error remaining_prompt_required))
    slides.

End BatchAux.

(* ================================================================== *)
(** * Sample surroundings and requests for the worked examples *)

Module Demo.

Import Js Parser Server.

Definition image_part (d : string) : Part :=
  {| thought := false; part_text := None;
     inlineData := Some {| mimeType := Some "image/png"; data := Some d |} |}.

Definition image_response (d : string) : GenResponse :=
  {| text := None;
     candidates := Some [{| parts := Some [image_part d] |}];
     usageMetadata := None |}.

Definition empty_response : GenResponse :=
  {| text := None; candidates := Some []; usageMetadata := None |}.

(** A generation API whose first answer has no candidates and whose later
    answers carry an image; a clock that advances by one millisecond per
    reading; a disk that takes every write and holds one reference image. *)
Definition env : Env :=
  {| generateContent := fun n _ =>
       match n with
       | O => Ok empty_response
       | S _ => Ok (image_response "iVBORw0KGgo=")
       end;
     date_now := fun n => (1700000000000 + N.of_nat n)%N;
     writeFileSync := fun _ _ _ => None;
     existsSync := fun p => String.eqb p "/srv/uploads/carousel/first.png";
     readFileSync := fun _ => Ok "PNG";
     uploadsDir := "/srv/uploads/carousel";
     join_root := fun p => "/srv/" ++ p;
     to_base64 := fun s => s;
     json_stringify := fun _ => "{}";
     render_approx := fun _ => "1e+21" |}.


Definition slide (n : Z) (h e : string) : SlideContent :=
  {| slideNumber := Num n; heading := h; explanation := e |}.

Definition two_slides : list SlideContent :=
  [slide 2 "Dogs" "Loyal."; slide 3 "Birds" "Free."].

Definition remaining_request (prompt : string)
    (slides : list SlideContent) : GenerateRemainingImagesRequest :=
  {| ri_prompt := Some prompt; ri_slides := Some slides;
     ri_firstImageUrl := Some "/uploads/carousel/first.png" |}.

End Demo.

Module DemoRequests.

Import Js Parser Server.

Definition blank_content_request : GenerateContentRequest :=
  {| gc_prompt := Some "   "; gc_transcript := Some "Cats are independent." |}.

Definition blank_first_request : GenerateFirstImageRequest :=
  {| fi_prompt := None; fi_heading := Some "Cats";
     fi_explanation := Some "Independent."; fi_slideNumber := Num 1;
     fi_totalSlides := Num 2 |}.

Definition blank_remaining_request : GenerateRemainingImagesRequest :=
  Demo.remaining_request "  " Demo.two_slides.

End DemoRequests.

Module Names.

(** [without c s]: the character [c] does not occur in [s]. *)
Definition without (c : ascii) (s : string) : bool :=
  Str.all (fun x => negb (Ascii.eqb x c)) s.

Definition is_decimal_digit (a : ascii) : bool := Chars.is_digit a.

End Names.

(* ================================================================== *)
(** * The layout of a well-formed text of two slides *)

Module Layout.

Import Js Parser.

(** [Slide N], [Heading: H] and [Explanation: E] on three lines. *)
Definition slide_block (d H E : string) : string :=
  "Slide " ++ d ++ nl ++ "Heading: " ++ H ++ nl ++ "Explanation: " ++ E.

(** What follows the slide marker of a block, [tail] being what comes
    after the explanation. *)
Definition content (H E tail : string) : string :=
  nl ++ "Heading: " ++ H ++ nl ++ "Explanation: " ++ E ++ tail.

Definition two_blocks (d1 H1 E1 d2 H2 E2 : string) : string :=
  slide_block d1 H1 E1 ++ nl ++ slide_block d2 H2 E2.

(** Empty, or ending with a newline. *)
Fixpoint ends_line (s : string) : bool :=
  match s with
  | "" => true
  | String a s' =>
      match s' with
      | "" => Ascii.eqb a Re.newline
      | _ => ends_line s'
      end
  end.

(** What may stand before the first marker: whole lines without the slide
    word. *)
Definition wf_preamble (pre : string) : bool :=
  negb (Str.occurs_ci "Slide" pre) && ends_line pre.

(** A slide number: digits, with a value that a double holds exactly. *)
Definition wf_number (d : string) : bool :=
  negb (Str.is_empty d) && Str.all Chars.is_digit d
  && (decimal d <=? 2 ^ 53)%Z.

(** A heading: one line that holds none of the labels and no slide word,
    and is not empty once trimmed and stripped. *)
Definition wf_heading (H : string) : bool :=
  Names.without Re.newline H
  && negb (Str.occurs_ci "Heading:" H)
  && negb (Str.occurs_ci "Explanation:" H)
  && negb (Str.occurs_ci "Slide" H)
  && Str.truthy (strip_emphasis (Str.trim H)).

(** An explanation: any lines that hold no heading label and no slide word,
    not empty once trimmed and stripped. *)
Definition wf_explanation (E : string) : bool :=
  negb (Str.occurs_ci "Heading:" E)
  && negb (Str.occurs_ci "Slide" E)
  && Str.truthy (strip_emphasis (Str.trim E)).

(** No character of [p] is [sep], in any case: an occurrence of [p] cannot
    run across [sep]. *)
Definition barrier (p : string) (sep : ascii) : bool :=
  Str.all (fun a =>
             negb (Chars.canonicalize a =? Chars.canonicalize sep)%N) p.

(** [s] is empty or begins with a character outside [p]. *)
Definition stops (p : ascii -> bool) (s : string) : bool :=
  match s with
  | "" => true
  | String a _ => negb (p a)
  end.

(** A match moved right by the text [pre]. *)
Definition shifts (pre : string) (m : Re.found) : Re.found :=
  {| Re.before := pre ++ Re.before m; Re.matched := Re.matched m;
     Re.after := Re.after m; Re.capture := Re.capture m |}.

Definition record (d H E : string) : SlideContent :=
  {| slideNumber := Num (decimal d);
     heading := strip_emphasis (Str.trim H);
     explanation := strip_emphasis (Str.trim E) |}.

End Layout.

(* ================================================================== *)
(** * Further notions *)

Module More.

Import Re Js Parser Server.

(** No capturing group inside the pattern. *)
Fixpoint groupless (r : regex) : bool :=
  match r with
  | Group _ => false
  | Seq r1 r2 => groupless r1 && groupless r2
  | Alt r1 r2 => groupless r1 && groupless r2
  | Ahead r1 => groupless r1
  | _ => true
  end.

(** [headingPatterns] without its third pattern. *)
Definition headingPatterns_short : list (flags * regex) :=
  [(flags_is, heading_pattern_1); (flags_i, heading_pattern_2)].


(** The image URLs that a list of results carries, in order. *)
Definition result_urls (rs : list GenerationResult) : list string :=
  flat_map (fun r => match r_imageUrl r with
                     | Some u => [u]
                     | None => []
                     end) rs.

(** The value that takes the place of a token when the replacement text
    [v] holds dollar patterns: [$$] is one dollar and [$&] the token. *)
Definition expand (v tok : string) : string := get_substitution v tok "" "".

(** From the lower case of a character to its canonical code. *)
Definition fold_case (a : ascii) : N :=
  Chars.canonicalize (Chars.to_lower a).

(** A replacement text that names neither the text before the match nor
    the text after it. *)
Fixpoint context_free (v : string) : bool :=
  match v with
  | "" => true
  | String a t =>
      if Ascii.eqb a "$" then
        match t with
        | "" => true
        | String b t' =>
            if Ascii.eqb b "$" then context_free t'
            else if Ascii.eqb b "&" then context_free t'
            else if Ascii.eqb b "`" then false
            else if Ascii.eqb b "'" then false
            else context_free t
        end
      else context_free t
  end.

(** The parts of a response that are not thoughts. *)
Definition spoken (ps : list Part) : list Part :=
  filter (fun p => negb (thought p)) ps.

(** The third stage goes on to read its reference image. *)
Definition remaining_ready (env : Env) (req : GenerateRemainingImagesRequest)
    : bool :=
  match ri_slides req with
  | None | Some [] => false
  | Some _ =>
      negb (missing (ri_firstImageUrl req))
      && existsSync env
           (join_root env
              (strip_leading_slash (or_empty (ri_firstImageUrl req))))
  end.

(** The request of the first stage and of the second. *)
Definition content_request (req : GenerateContentRequest) : GenRequest :=
  {| model := text_model;
     contents := Templater.substitute_transcript (or_empty (gc_prompt req))
                   (or_empty (gc_transcript req));
     reference := None |}.

Definition first_image_request (req : GenerateFirstImageRequest)
    : GenRequest :=
  {| model := image_model;
     contents := Templater.image_guard
                   (Templater.substitute_slide (or_empty (fi_prompt req))
                      (or_empty (fi_heading req))
                      (or_empty (fi_explanation req)));
     reference := None |}.

End More.
(* ================================================================== *)
(** * Properties *)

(** ** Strings *)

Module StrFacts.

Import Str.

Lemma append_nil_r (s : string) : s ++ "" = s.
Proof. induction s as [|a s IH]; simpl; [reflexivity | now rewrite IH]. Qed.

Lemma append_assoc (a b c : string) : (a ++ b) ++ c = a ++ (b ++ c).
Proof. induction a as [|x a IH]; simpl; [reflexivity | now rewrite IH]. Qed.

Lemma length_append (a b : string) :
  String.length (a ++ b) = String.length a + String.length b.
Proof. induction a as [|x a IH]; simpl; [reflexivity | now rewrite IH]. Qed.

Lemma append_cancel_l (a b c : string) : a ++ b = a ++ c -> b = c.
Proof.
  induction a as [|x a IH]; simpl; intros H; [exact H |].
  injection H as H. now apply IH.
Qed.

Lemma append_eq_nil (a b : string) : a ++ b = "" -> a = "" /\ b = "".
Proof. destruct a; simpl; [auto | discriminate]. Qed.

Lemma is_empty_true (s : string) : is_empty s = true <-> s = "".
Proof. destruct s; simpl; split; congruence. Qed.

Lemma is_empty_false (s : string) : is_empty s = false <-> s <> "".
Proof. destruct s; simpl; split; congruence. Qed.

Lemma take_app (a b : string) : take (String.length a) (a ++ b) = a.
Proof. induction a as [|x a IH]; simpl; [now destruct b | now rewrite IH]. Qed.

Lemma drop_app (a b : string) : drop (String.length a) (a ++ b) = b.
Proof. induction a as [|x a IH]; simpl; [reflexivity | exact IH]. Qed.

Lemma map_app (f : ascii -> ascii) (a b : string) :
  map f (a ++ b) = map f a ++ map f b.
Proof. induction a as [|x a IH]; simpl; [reflexivity | now rewrite IH]. Qed.

Lemma map_length (f : ascii -> ascii) (s : string) :
  String.length (map f s) = String.length s.
Proof. induction s as [|x s IH]; simpl; [reflexivity | now rewrite IH]. Qed.

Lemma all_app (p : ascii -> bool) (a b : string) :
  all p (a ++ b) = all p a && all p b.
Proof.
  induction a as [|x a IH]; simpl; [reflexivity |].
  now rewrite IH, andb_assoc.
Qed.

(** [starts] is the prefix test. *)
Lemma starts_app (p s : string) : starts p (p ++ s) = true.
Proof.
  induction p as [|a p IH]; simpl; [reflexivity |].
  now rewrite Ascii.eqb_refl, IH.
Qed.

Lemma starts_inv (p s : string) :
  starts p s = true -> exists t, s = p ++ t.
Proof.
  revert s; induction p as [|a p IH]; intros s H; simpl in *.
  - now exists s.
  - destruct s as [|b s]; [discriminate |].
    apply andb_prop in H as [Hab H].
    apply Ascii.eqb_eq in Hab; subst b.
    destruct (IH _ H) as [t ->]. now exists t.
Qed.

Lemma starts_iff (p s : string) :
  starts p s = true <-> exists t, s = p ++ t.
Proof.
  split; [apply starts_inv | intros [t ->]; apply starts_app].
Qed.

Lemma occurs_here (p s : string) : starts p s = true -> occurs p s = true.
Proof. intros H. destruct s; simpl in *; now rewrite H. Qed.

Lemma occurs_later (p : string) (a : ascii) (s : string) :
  occurs p s = true -> occurs p (String a s) = true.
Proof. intros H. simpl. rewrite H. apply orb_true_r. Qed.

Lemma occurs_app (p a b : string) : occurs p (a ++ p ++ b) = true.
Proof.
  induction a as [|x a IH]; cbn [append].
  - apply occurs_here, starts_app.
  - now apply occurs_later.
Qed.

Lemma occurs_inv (p s : string) :
  occurs p s = true -> exists a b, s = a ++ p ++ b.
Proof.
  induction s as [|x s IH]; intros H.
  - simpl in H. rewrite orb_false_r in H.
    destruct (starts_inv _ _ H) as [t Ht]. now exists "", t.
  - simpl in H. apply orb_prop in H as [H | H].
    + destruct (starts_inv _ _ H) as [t Ht]. now exists "", t.
    + destruct (IH H) as (a & b & ->). now exists (String x a), b.
Qed.

Lemma occurs_iff (p s : string) :
  occurs p s = true <-> exists a b, s = a ++ p ++ b.
Proof.
  split; [apply occurs_inv | intros (a & b & ->); apply occurs_app].
Qed.

Lemma occurs_false_starts (p s : string) :
  occurs p s = false -> starts p s = false.
Proof.
  intros H. destruct (starts p s) eqn:E; [| reflexivity].
  now rewrite (occurs_here _ _ E) in H.
Qed.

Lemma occurs_false_tail (p : string) (a : ascii) (s : string) :
  occurs p (String a s) = false -> occurs p s = false.
Proof.
  intros H. destruct (occurs p s) eqn:E; [| reflexivity].
  now rewrite (occurs_later _ a _ E) in H.
Qed.

End StrFacts.

(** ** The image-instruction guard *)

Module GuardFacts.

Import Str StrFacts Templater.

Lemma map_app_inv (f : ascii -> ascii) (s a b : string) :
  map f s = a ++ b ->
  exists sa sb, s = sa ++ sb /\ map f sa = a /\ map f sb = b.
Proof.
  revert s; induction a as [|x a IH]; intros s H; simpl in H.
  - now exists "", s.
  - destruct s as [|y s]; simpl in H; [discriminate |].
    injection H as Hx H.
    destruct (IH _ H) as (sa & sb & -> & Ha & Hb).
    exists (String y sa), sb. simpl. now rewrite Hx, Ha.
Qed.

(** [toLowerCase] followed by [includes] is the case-insensitive
    appearance of the token. *)
Lemma includes_lower_iff (tok p : string) :
  includes (toLowerCase p) tok = true <-> Spec.appears_ci tok p.
Proof.
  unfold includes, toLowerCase, Spec.appears_ci. rewrite occurs_iff. split.
  - intros (a & b & H).
    destruct (map_app_inv _ _ _ _ H) as (pa & rest & -> & Ha & Hrest).
    destruct (map_app_inv _ _ _ _ Hrest) as (pm & pb & -> & Hm & Hb).
    exists pa, pm, pb. now split.
  - intros (pre & mid & post & -> & Hm).
    exists (map Chars.to_lower pre), (map Chars.to_lower post).
    unfold toLowerCase in Hm. now rewrite !map_app, Hm.
Qed.

Lemma includes_lower_not (tok p : string) :
  includes (toLowerCase p) tok = false <-> ~ Spec.appears_ci tok p.
Proof.
  rewrite <- includes_lower_iff.
  destruct (includes (toLowerCase p) tok); split; congruence.
Qed.

End GuardFacts.

(** C3, as the code has it: the guard leaves a prompt unchanged when one of
    the tokens generate, create, image appears in it in any case, and
    otherwise puts the instruction prefix in front; of the two examples,
    the prompt A red square gets the prefix, and so does Draw a blue circle,
    in which none of the three tokens appears. *)
Theorem C3_image_guard_rule :
  (forall p : string,
      ((exists tok, In tok Spec.guard_tokens /\ Spec.appears_ci tok p)
       /\ Templater.image_guard p = p)
      \/ ((forall tok, In tok Spec.guard_tokens -> ~ Spec.appears_ci tok p)
          /\ Templater.image_guard p = Templater.image_prefix ++ p))
  /\ Templater.image_guard "A red square" = "Generate an image: A red square"
  /\ Templater.image_guard "Draw a blue circle"
     = "Generate an image: Draw a blue circle".
Proof.
  split; [| split; reflexivity].
  intros p. unfold Templater.image_guard, Spec.guard_tokens.
  destruct (Str.includes (Str.toLowerCase p) "generate") eqn:Eg.
  { left. split; [| reflexivity]. exists "generate". split; [simpl; auto |].
    now apply GuardFacts.includes_lower_iff. }
  destruct (Str.includes (Str.toLowerCase p) "create") eqn:Ec.
  { left. split; [| reflexivity]. exists "create". split; [simpl; auto |].
    now apply GuardFacts.includes_lower_iff. }
  destruct (Str.includes (Str.toLowerCase p) "image") eqn:Ei.
  { left. split; [| reflexivity]. exists "image". split; [simpl; auto |].
    now apply GuardFacts.includes_lower_iff. }
  right. split; [| reflexivity].
  intros tok [<- | [<- | [<- | []]]];
    now apply GuardFacts.includes_lower_not.
Qed.

(** C3 as stated fails on its own example: the guard does not leave
    Draw a blue circle unchanged. *)
Lemma C3_draw_a_blue_circle_changed :
  Templater.image_guard "Draw a blue circle" <> "Draw a blue circle".
Proof. vm_compute. discriminate. Qed.

(** ** The matcher *)

Module ReFacts.

Import Str StrFacts Re ReSem.

Lemma orelse_none_l (b : mresult) : orelse None b = b.
Proof. reflexivity. Qed.

Lemma orelse_some (x : string * option string) (b : mresult) :
  orelse (Some x) b = Some x.
Proof. reflexivity. Qed.

Lemma orelse_none (a b : mresult) :
  orelse a b = None <-> a = None /\ b = None.
Proof. destruct a; simpl; split; [discriminate | intros []; discriminate | auto | tauto]. Qed.

(** *** Quantifiers *)

Lemma star_greedy_sound p s k res :
  star_greedy p s k = Some res ->
  exists w s', s = w ++ s' /\ all p w = true /\ k s' = Some res.
Proof.
  induction s as [|a s IH]; simpl; intros H.
  - now exists "", "".
  - destruct (p a) eqn:Pa.
    + destruct (star_greedy p s k) as [x|] eqn:E; simpl in H.
      * injection H as <-.
        destruct (IH eq_refl) as (w & s' & -> & Hw & Hk).
        exists (String a w), s'. simpl. now rewrite Pa, Hw.
      * now exists "", (String a s).
    + now exists "", (String a s).
Qed.

Lemma star_lazy_sound p s k res :
  star_lazy p s k = Some res ->
  exists w s', s = w ++ s' /\ all p w = true /\ k s' = Some res.
Proof.
  induction s as [|a s IH]; simpl; intros H.
  - destruct (k "") eqn:E; simpl in H; [| discriminate].
    injection H as <-. now exists "", "".
  - destruct (k (String a s)) eqn:E; simpl in H.
    + injection H as <-. now exists "", (String a s).
    + destruct (p a) eqn:Pa; [| discriminate].
      destruct (IH H) as (w & s' & -> & Hw & Hk).
      exists (String a w), s'. simpl. now rewrite Pa, Hw.
Qed.

Lemma star_sound g p s k res :
  star g p s k = Some res ->
  exists w s', s = w ++ s' /\ all p w = true /\ k s' = Some res.
Proof. destruct g; [apply star_greedy_sound | apply star_lazy_sound]. Qed.

(** A quantifier fails exactly when the continuation fails after every run
    it can take. *)
Lemma star_none g p s k :
  (forall w s', s = w ++ s' -> all p w = true -> k s' = None) ->
  star g p s k = None.
Proof.
  intros H. destruct (star g p s k) as [res|] eqn:E; [| reflexivity].
  destruct (star_sound _ _ _ _ _ E) as (w & s' & Hs & Hw & Hk).
  now rewrite (H _ _ Hs Hw) in Hk.
Qed.

(** The greedy quantifier takes the longest run after which the rest of the
    pattern succeeds. *)
Lemma star_greedy_longest p w s k res :
  all p w = true ->
  k s = Some res ->
  (forall w2 s2, s = w2 ++ s2 -> w2 <> "" -> all p w2 = true -> k s2 = None) ->
  star_greedy p (w ++ s) k = Some res.
Proof.
  intros Hw Hk Hlong. induction w as [|a w IH]; simpl in *.
  - destruct s as [|b s]; simpl; [exact Hk |].
    destruct (p b) eqn:Pb; [| exact Hk].
    assert (E : star_greedy p s k = None).
    { apply (star_none true). intros w2 s2 -> Hw2.
      apply (Hlong (String b w2) s2); [reflexivity | discriminate |].
      simpl. now rewrite Pb. }
    now rewrite E.
  - apply andb_prop in Hw as [Pa Hw]. rewrite Pa, (IH Hw). reflexivity.
Qed.

(** The lazy quantifier takes the shortest such run. *)
Lemma star_lazy_shortest p w s k res :
  all p w = true ->
  k s = Some res ->
  (forall w1 w2, w = w1 ++ w2 -> w2 <> "" -> k (w2 ++ s) = None) ->
  star_lazy p (w ++ s) k = Some res.
Proof.
  intros Hw Hk Hshort. induction w as [|a w IH]; simpl in *.
  - destruct s; simpl; now rewrite Hk.
  - apply andb_prop in Hw as [Pa Hw].
    assert (E : k (String a (w ++ s)) = None)
      by (apply (Hshort "" (String a w) eq_refl); discriminate).
    rewrite E. simpl. rewrite Pa. apply IH; [exact Hw |].
    intros w1 w2 -> Hne. apply (Hshort (String a w1) w2); [reflexivity | exact Hne].
Qed.

(** *** Literals *)

Lemma rmatch_lit f p s c k :
  rmatch f (lit p) s c k =
  if lit_starts f p s then k (drop (String.length p) s) c else None.
Proof.
  revert s; induction p as [|a p IH]; intros s.
  - now destruct s.
  - destruct s as [|b s]; [reflexivity |].
    cbn [lit rmatch lit_starts drop String.length].
    destruct (cset_match f (CChar a) b); cbn [andb]; [apply IH | reflexivity].
Qed.

Lemma lit_starts_plain f p s :
  ignoreCase f = false -> lit_starts f p s = starts p s.
Proof.
  intros Hf. revert s; induction p as [|a p IH]; intros [|b s]; simpl;
    try reflexivity.
  now rewrite Hf, IH.
Qed.

Lemma lit_starts_ci f p s :
  ignoreCase f = true -> lit_starts f p s = starts_ci p s.
Proof.
  intros Hf. revert s; induction p as [|a p IH]; intros [|b s]; simpl;
    try reflexivity.
  now rewrite Hf, IH.
Qed.

(** *** The matcher finds only what the pattern matches *)

Lemma rmatch_sound f r :
  forall s c k res,
    rmatch f r s c k = Some res ->
    exists s' c', Matches f r s c s' c' /\ k s' c' = Some res.
Proof.
  induction r as [| cs | r1 IH1 r2 IH2 | r1 IH1 r2 IH2 | g cs | g cs
                  | r IH | r IH |]; intros s c k res H; simpl in H.
  - exists s, c. split; [constructor | exact H].
  - destruct s as [|a s]; [discriminate |].
    destruct (cset_match f cs a) eqn:E; [| discriminate].
    exists s, c. split; [now constructor | exact H].
  - destruct (IH1 _ _ _ _ H) as (s1 & c1 & M1 & H1).
    destruct (IH2 _ _ _ _ H1) as (s2 & c2 & M2 & H2).
    exists s2, c2. split; [econstructor; eassumption | exact H2].
  - destruct (rmatch f r1 s c k) as [x|] eqn:E; simpl in H.
    + injection H as <-. destruct (IH1 _ _ _ _ E) as (s' & c' & M1 & H1).
      exists s', c'. split; [now apply M_alt_l | exact H1].
    + destruct (IH2 _ _ _ _ H) as (s' & c' & M2 & H2).
      exists s', c'. split; [now apply M_alt_r | exact H2].
  - destruct (star_sound _ _ _ _ _ H) as (w & s' & -> & Hw & Hk).
    exists s', c. split; [now constructor | exact Hk].
  - destruct s as [|a s]; [discriminate |].
    destruct (cset_match f cs a) eqn:E; [| discriminate].
    destruct (star_sound _ _ _ _ _ H) as (w & s' & -> & Hw & Hk).
    exists s', c. split; [now constructor | exact Hk].
  - destruct (IH _ _ _ _ H) as (s' & c' & M1 & H1).
    exists s', (Some (consumed s s')). split; [econstructor; eassumption | exact H1].
  - destruct (rmatch f r s c accept) as [[s1 c1]|] eqn:E; [| discriminate].
    destruct (IH _ _ _ _ E) as (s' & c' & M1 & H1).
    unfold accept in H1. injection H1 as -> ->.
    exists s, c1. split; [econstructor; eassumption | exact H].
  - destruct s; [| discriminate].
    exists "", c. split; [constructor | exact H].
Qed.

Lemma rmatch_seq_lit f p r s c k :
  rmatch f (Seq (lit p) r) s c k =
  if lit_starts f p s then rmatch f r (drop (String.length p) s) c k else None.
Proof. cbn [rmatch]. now rewrite rmatch_lit. Qed.

Lemma rmatch_alt f r1 r2 s c k :
  rmatch f (Alt r1 r2) s c k
  = orelse (rmatch f r1 s c k) (rmatch f r2 s c k).
Proof. reflexivity. Qed.

Lemma rmatch_none f r s c k :
  (forall s' c', Matches f r s c s' c' -> k s' c' = None) ->
  rmatch f r s c k = None.
Proof.
  intros H. destruct (rmatch f r s c k) as [res|] eqn:E; [| reflexivity].
  destruct (rmatch_sound _ _ _ _ _ _ E) as (s' & c' & M1 & Hk).
  now rewrite (H _ _ M1) in Hk.
Qed.

(** What is left after a match is an end piece of the input. *)
Lemma Matches_suffix f r s c s' c' :
  Matches f r s c s' c' -> exists w, s = w ++ s'.
Proof.
  induction 1.
  - now exists "".
  - now exists (String a "").
  - destruct IHMatches1 as [w1 ->], IHMatches2 as [w2 ->].
    exists (w1 ++ w2). now rewrite append_assoc.
  - assumption.
  - assumption.
  - now exists w.
  - now exists (String a w).
  - assumption.
  - now exists "".
  - now exists "".
Qed.

(** A capture, once set, stays set, and a pattern with a group on every
    path sets it. *)
Lemma Matches_capture f r s c s' c' :
  Matches f r s c s' c' ->
  (c <> None -> c' <> None) /\ (captures r = true -> c' <> None).
Proof.
  induction 1; simpl; try solve [split; [auto | discriminate]].
  - destruct IHMatches1 as [K1 G1], IHMatches2 as [K2 G2]. split; [auto |].
    intros G. apply orb_prop in G as [G | G]; auto.
  - destruct IHMatches as [K1 G1]. split; [auto |].
    intros G. apply andb_prop in G as [G _]. auto.
  - destruct IHMatches as [K1 G1]. split; [auto |].
    intros G. apply andb_prop in G as [_ G]. auto.
  - split; intros _; discriminate.
  - exact IHMatches.
Qed.

Lemma match_at_capture f r s m :
  captures r = true -> match_at f r s = Some m -> capture m <> None.
Proof.
  unfold match_at. intros G H.
  destruct (rmatch f r s None accept) as [[s' c]|] eqn:E; [| discriminate].
  injection H as <-. simpl.
  destruct (rmatch_sound _ _ _ _ _ _ E) as (s1 & c1 & M1 & Hk).
  injection Hk as -> ->.
  now apply (Matches_capture _ _ _ _ _ _ M1).
Qed.

Lemma exec_capture f r s m :
  captures r = true -> exec f r s = Some m -> capture m <> None.
Proof.
  intros G. revert m; induction s as [|a s IH]; intros m H; simpl in H.
  - destruct (match_at f r "") as [m0|] eqn:E; [| discriminate].
    injection H as <-. now apply (match_at_capture _ _ _ _ G E).
  - destruct (match_at f r (String a s)) as [m0|] eqn:E.
    + injection H as <-. now apply (match_at_capture _ _ _ _ G E).
    + destruct (exec f r s) as [m1|]; [| discriminate].
      injection H as <-. simpl. now apply IH.
Qed.

End ReFacts.

(** ** Global replacement of a literal *)

Module ReplaceFacts.

Import Str StrFacts Re ReSem ReFacts Js Pred.

Section Literal.

Variable f : flags.
Hypothesis f_plain : ignoreCase f = false.
Variable tok : string.
Hypothesis tok_nonempty : tok <> "".

Lemma match_at_lit (s : string) :
  match_at f (lit tok) s =
  if starts tok s
  then Some {| before := ""; matched := consumed s (drop (String.length tok) s);
               after := drop (String.length tok) s; capture := None |}
  else None.
Proof.
  unfold match_at. rewrite rmatch_lit, (lit_starts_plain _ _ _ f_plain).
  now destruct (starts tok s).
Qed.

Lemma match_at_lit_hit (rest : string) :
  match_at f (lit tok) (tok ++ rest) =
  Some {| before := ""; matched := tok; after := rest; capture := None |}.
Proof.
  rewrite match_at_lit, starts_app, drop_app. unfold consumed.
  rewrite length_append, Nat.add_sub, take_app. reflexivity.
Qed.

Lemma match_at_lit_miss (s : string) :
  starts tok s = false -> match_at f (lit tok) s = None.
Proof. intros H. now rewrite match_at_lit, H. Qed.

Lemma starts_nil_false : starts tok "" = false.
Proof. destruct tok; [contradiction | reflexivity]. Qed.

(** Passing over the characters of a match. *)
Lemma replace_go_skip (r : regex) (repl pre w s : string) :
  replace_go f r repl pre (w ++ s) (String.length w)
  = replace_go f r repl (pre ++ w) s 0.
Proof.
  revert pre; induction w as [|a w IH]; intros pre; simpl.
  - rewrite append_nil_r. now destruct s.
  - rewrite IH, append_assoc. reflexivity.
Qed.

Lemma replace_go_hit (repl pre rest : string) :
  replace_go f (lit tok) repl pre (tok ++ rest) 0
  = get_substitution repl tok pre rest
    ++ replace_go f (lit tok) repl (pre ++ tok) rest 0.
Proof.
  destruct tok as [|a t] eqn:Et; [contradiction |].
  rewrite <- Et at 1.
  change (String a t ++ rest) with (String a (t ++ rest)).
  cbn [replace_go].
  change (String a (t ++ rest)) with (String a t ++ rest).
  rewrite <- Et, match_at_lit_hit, Et. cbn [matched after String.length].
  rewrite replace_go_skip, append_assoc. reflexivity.
Qed.

Lemma replace_go_miss (repl pre : string) (a : ascii) (s : string) :
  starts tok (String a s) = false ->
  replace_go f (lit tok) repl pre (String a s) 0
  = String a (replace_go f (lit tok) repl (pre ++ String a "") s 0).
Proof. intros H. cbn [replace_go]. now rewrite (match_at_lit_miss _ H). Qed.

Lemma replace_go_end (repl pre : string) :
  replace_go f (lit tok) repl pre "" 0 = "".
Proof. cbn [replace_go]. now rewrite (match_at_lit_miss _ starts_nil_false). Qed.

(** A text in which the token does not occur is returned as it is, whatever
    the replacement. *)
Lemma replace_all_absent (repl s : string) :
  occurs tok s = false -> replace_all f (lit tok) repl s = s.
Proof.
  unfold replace_all. generalize "" as pre.
  induction s as [|a s IH]; intros pre H.
  - apply replace_go_end.
  - rewrite replace_go_miss by now apply occurs_false_starts.
    f_equal. apply IH. now apply occurs_false_tail in H.
Qed.

End Literal.

(** A replacement text without a dollar sign is inserted as it is. *)
Lemma get_substitution_plain (repl mt pre post : string) :
  no_dollar repl = true -> get_substitution repl mt pre post = repl.
Proof.
  unfold no_dollar. induction repl as [|a t IH]; simpl; intros H;
    [reflexivity |].
  apply andb_prop in H as [Ha Ht].
  destruct (Ascii.eqb a "$"); [discriminate |].
  now rewrite (IH Ht).
Qed.

(** The global replacement of a literal by a dollar-free text is the
    replacement of every occurrence, left to right. *)
Lemma replace_all_Replaced (f : flags) (tok repl : string) :
  ignoreCase f = false -> tok <> "" -> no_dollar repl = true ->
  forall s, Spec.Replaced tok repl s (replace_all f (lit tok) repl s).
Proof.
  intros Hf Htok Hrepl s. unfold replace_all. generalize "" as pre.
  remember (String.length s) as n eqn:Hn. revert s Hn.
  induction n as [n IH] using lt_wf_ind. intros s Hn pre.
  destruct s as [|a s].
  - rewrite (replace_go_end f Hf tok Htok). constructor.
  - destruct (starts tok (String a s)) eqn:E.
    + destruct (starts_inv _ _ E) as [rest Hrest]. rewrite Hrest.
      rewrite (replace_go_hit f Hf tok Htok), get_substitution_plain by exact Hrepl.
      constructor. apply (IH (String.length rest)); [| reflexivity].
      subst n. rewrite Hrest, length_append.
      destruct tok; [contradiction | simpl; lia].
    + rewrite (replace_go_miss f Hf tok) by exact E.
      constructor; [exact E |].
      apply (IH (String.length s)); [subst n; simpl; lia | reflexivity].
Qed.

(** [Replaced] determines its output. *)
Lemma Replaced_fun (tok v s o1 o2 : string) :
  tok <> "" ->
  Spec.Replaced tok v s o1 -> Spec.Replaced tok v s o2 -> o1 = o2.
Proof.
  intros Htok H1. revert o2.
  induction H1 as [| rest out H1 IH | a rest out Hs H1 IH]; intros o2 H2.
  - inversion H2 as [| rest2 out2 H2' Heq |]; [reflexivity |].
    destruct tok; [contradiction | discriminate].
  - remember (tok ++ rest) as s eqn:Es.
    destruct H2 as [| rest2 out2 H2 | a2 rest2 out2 Hs2 H2].
    + destruct tok; [contradiction | discriminate].
    + apply append_cancel_l in Es. subst rest2. f_equal. now apply IH.
    + rewrite Es, starts_app in Hs2. discriminate.
  - remember (String a rest) as s eqn:Es.
    destruct H2 as [| rest2 out2 H2 | a2 rest2 out2 Hs2 H2].
    + discriminate.
    + rewrite starts_app in Hs. discriminate.
    + injection Es as -> ->. f_equal. now apply IH.
Qed.

Lemma Replaced_absent (tok v s : string) :
  tok <> "" -> occurs tok s = false -> Spec.Replaced tok v s s.
Proof.
  intros Htok. induction s as [|a s IH]; intros H; [constructor |].
  constructor; [now apply occurs_false_starts |].
  apply IH. now apply occurs_false_tail in H.
Qed.

(** Removing a doubled character leaves no doubled character. *)
Lemma Removed_head (c : ascii) (s out : string) :
  Spec.Replaced (double c) "" s out ->
  starts (String c "") s = false -> starts (String c "") out = false.
Proof.
  intros H Hs. destruct H as [| rest out H | a rest out Ha H].
  - reflexivity.
  - simpl in Hs. now rewrite Ascii.eqb_refl in Hs.
  - simpl in *. exact Hs.
Qed.

Lemma Removed_clean (c : ascii) (s out : string) :
  Spec.Replaced (double c) "" s out -> occurs (double c) out = false.
Proof.
  induction 1 as [| rest out H IH | a rest out Ha H IH].
  - reflexivity.
  - exact IH.
  - cbn [occurs]. rewrite IH, orb_false_r.
    unfold double in *. cbn [starts] in *.
    destruct (Ascii.eqb c a) eqn:Eca; [| reflexivity]. cbn [andb] in *.
    apply (Removed_head c rest out H) in Ha. exact Ha.
Qed.

End ReplaceFacts.

(** ** The templater *)

Module TemplaterFacts.

Import Str StrFacts Re Js Pred ReplaceFacts Templater.

Lemma flags_g_plain : ignoreCase flags_g = false.
Proof. reflexivity. Qed.

Lemma placeholder_nonempty (name : string) : "{" ++ name ++ "}" <> "".
Proof. discriminate. Qed.

Lemma replace_placeholder_absent (name v s : string) :
  occurs ("{" ++ name ++ "}") s = false ->
  replace_all flags_g (placeholder name) v s = s.
Proof.
  apply (replace_all_absent flags_g flags_g_plain _ (placeholder_nonempty name)).
Qed.

Lemma replace_placeholder_Replaced (name v s : string) :
  no_dollar v = true ->
  Spec.Replaced ("{" ++ name ++ "}") v s
    (replace_all flags_g (placeholder name) v s).
Proof.
  intros Hv.
  apply (replace_all_Replaced flags_g _ v flags_g_plain
           (placeholder_nonempty name) Hv).
Qed.

End TemplaterFacts.

(** C8: once the result of a substitution holds none of the placeholder
    tokens, substituting again with the same values changes nothing; this
    holds for the transcript placeholder of the first stage and for the
    heading and explanation placeholders of the image stages. *)
Theorem C8_substitute_again (T t h e : string) :
  (Str.occurs "{transcript}" (Templater.substitute_transcript T t) = false ->
   Templater.substitute_transcript (Templater.substitute_transcript T t) t
   = Templater.substitute_transcript T t)
  /\ (Str.occurs "{heading}" (Templater.substitute_slide T h e) = false ->
      Str.occurs "{explanation}" (Templater.substitute_slide T h e) = false ->
      Templater.substitute_slide (Templater.substitute_slide T h e) h e
      = Templater.substitute_slide T h e).
Proof.
  split.
  - intros H. unfold Templater.substitute_transcript at 1.
    now apply (TemplaterFacts.replace_placeholder_absent "transcript").
  - intros Hh He. unfold Templater.substitute_slide at 1.
    rewrite (TemplaterFacts.replace_placeholder_absent "heading") by exact Hh.
    now apply (TemplaterFacts.replace_placeholder_absent "explanation").
Qed.

Lemma C8_substitute_again_witness :
  Templater.substitute_transcript
    (Templater.substitute_transcript "Summarise: {transcript}" "Cats purr.")
    "Cats purr."
  = Templater.substitute_transcript "Summarise: {transcript}" "Cats purr."
  /\ Templater.substitute_slide
       (Templater.substitute_slide "{heading} - {explanation}" "Cats" "Aloof.")
       "Cats" "Aloof."
     = Templater.substitute_slide "{heading} - {explanation}" "Cats" "Aloof.".
Proof.
  destruct (C8_substitute_again "Summarise: {transcript}" "Cats purr."
              "Cats" "Aloof.") as [A _].
  destruct (C8_substitute_again "{heading} - {explanation}" "Cats purr."
              "Cats" "Aloof.") as [_ B].
  split; [apply A | apply B]; reflexivity.
Defined.

(** C2, as the code has it: for values without a dollar sign, the
    substitution replaces every occurrence of the heading token in the
    template by the heading value and then every occurrence of the
    explanation token in the resulting text by the explanation value; all
    other text, other placeholders included, is copied.  The second pass
    also acts on what the heading value brought in.  The first stage
    replaces the transcript token in the same way. *)
Theorem C2_substitute_in_sequence (T h e t : string) :
  Pred.no_dollar h = true -> Pred.no_dollar e = true ->
  Pred.no_dollar t = true ->
  (exists mid,
      Spec.Replaced "{heading}" h T mid
      /\ Spec.Replaced "{explanation}" e mid
           (Templater.substitute_slide T h e))
  /\ Spec.Replaced "{transcript}" t T (Templater.substitute_transcript T t).
Proof.
  intros Hh He Ht. split.
  - exists (Js.replace_all Templater.flags_g (Templater.placeholder "heading") h T).
    split.
    + now apply (TemplaterFacts.replace_placeholder_Replaced "heading").
    + now apply (TemplaterFacts.replace_placeholder_Replaced "explanation").
  - now apply (TemplaterFacts.replace_placeholder_Replaced "transcript").
Qed.

Lemma C2_substitute_in_sequence_witness :
  (exists mid,
      Spec.Replaced "{heading}" "Cats" "{heading}: {explanation} {mood}" mid
      /\ Spec.Replaced "{explanation}" "Aloof." mid
           (Templater.substitute_slide "{heading}: {explanation} {mood}"
              "Cats" "Aloof."))
  /\ Spec.Replaced "{transcript}" "Cats purr."
       "{heading}: {explanation} {mood}"
       (Templater.substitute_transcript "{heading}: {explanation} {mood}"
          "Cats purr.").
Proof.
  apply (C2_substitute_in_sequence "{heading}: {explanation} {mood}"
           "Cats" "Aloof." "Cats purr."); reflexivity.
Defined.

(** C2 as stated fails: a heading value that holds the text of the
    explanation token does not come out unchanged, the explanation value
    takes the place of that text. *)
Lemma C2_heading_value_rescanned :
  Templater.substitute_slide "Title: {heading}" "see {explanation}" "X"
  = "Title: see X"
  /\ Str.occurs "see {explanation}"
       (Templater.substitute_slide "Title: {heading}" "see {explanation}" "X")
     = false.
Proof. split; reflexivity. Qed.

(** ** The parser *)

Module ParserFacts.

Import Str StrFacts Re ReSem ReFacts Js Pred ReplaceFacts Parser.

Lemma flags_none_plain : ignoreCase flags_none = false.
Proof. reflexivity. Qed.

(** *** Emphasis markers *)

Lemma strip_emphasis_Stripped (s : string) :
  Spec.Stripped s (strip_emphasis s).
Proof.
  exists (replace_all flags_none (lit "**") "" s).
  assert (H1 : Spec.Replaced "**" "" s (replace_all flags_none (lit "**") "" s))
    by (apply replace_all_Replaced; [reflexivity | discriminate | reflexivity]).
  assert (H2 : Spec.Replaced "__" ""
                 (replace_all flags_none (lit "**") "" s) (strip_emphasis s))
    by (apply replace_all_Replaced; [reflexivity | discriminate | reflexivity]).
  repeat split; try assumption.
  - apply (Removed_clean "*" _ _ H1).
  - apply (Removed_clean "_" _ _ H2).
Qed.

Lemma strip_emphasis_nil : strip_emphasis "" = "".
Proof. reflexivity. Qed.

(** *** The two loops over the patterns never throw *)

Lemma headingPatterns_capture : all_capture headingPatterns.
Proof.
  intros f r [E | [E | [E | []]]]; injection E as <- <-; reflexivity.
Qed.

Lemma explanationPatterns_capture : all_capture explanationPatterns.
Proof.
  intros f r [E | [E | [E | []]]]; injection E as <- <-; reflexivity.
Qed.

Lemma captured_later (p : flags * regex) (ps : list (flags * regex))
    (content g : string) :
  captured ps content g -> captured (p :: ps) content g.
Proof.
  intros (f & r & m & Hin & H). exists f, r, m. simpl; auto.
Qed.

(** The heading is empty, or the stripped trimmed capture of one of the
    patterns. *)
Lemma extract_heading_ok (ps : list (flags * regex)) (content : string) :
  all_capture ps ->
  exists h, extract_heading ps content = Ok h
    /\ (h = "" \/ exists g,
          captured ps content g /\ h = strip_emphasis (trim g)).
Proof.
  induction ps as [|[f r] ps IH]; intros Hc; simpl.
  - exists "". auto.
  - destruct (exec f r content) as [m|] eqn:E.
    + destruct (capture m) as [g|] eqn:Eg.
      * exists (strip_emphasis (trim g)). split; [reflexivity |].
        right. exists g. split; [| reflexivity].
        exists f, r, m. simpl; auto.
      * exfalso.
        apply (exec_capture f r content m (Hc f r (or_introl eq_refl)) E Eg).
    + destruct IH as (h & Hh & Hor).
      { intros f' r' Hin. apply (Hc f' r'). simpl; auto. }
      exists h. split; [exact Hh |].
      destruct Hor as [-> | (g & Hg & ->)]; [auto |].
      right. exists g. split; [now apply captured_later | reflexivity].
Qed.

Lemma extract_explanation_ok (ps : list (flags * regex)) (content e0 : string) :
  all_capture ps ->
  exists e, extract_explanation ps content e0 = Ok e
    /\ (e = e0 \/ e = "" \/ exists g,
          captured ps content g /\ e = clean_explanation g).
Proof.
  revert e0. induction ps as [|[f r] ps IH]; intros e0 Hc; simpl.
  - exists e0. auto.
  - assert (Hc' : all_capture ps)
      by (intros f' r' Hin; apply (Hc f' r'); simpl; auto).
    destruct (exec f r content) as [m|] eqn:E.
    + destruct (capture m) as [g|] eqn:Eg.
      * fold (tidy_explanation g). fold (clean_explanation g).
        destruct (truthy (clean_explanation g)) eqn:Et.
        -- exists (clean_explanation g). split; [reflexivity |].
           right; right. exists g. split; [| reflexivity].
           exists f, r, m. simpl; auto.
        -- destruct (IH (clean_explanation g) Hc') as (e & He & Hor).
           exists e. split; [exact He |].
           destruct Hor as [-> | [-> | (g' & Hg & ->)]].
           ++ right; left. unfold truthy in Et.
              apply negb_false_iff, is_empty_true in Et. exact Et.
           ++ auto.
           ++ right; right. exists g'.
              split; [now apply captured_later | reflexivity].
      * exfalso.
        apply (exec_capture f r content m (Hc f r (or_introl eq_refl)) E Eg).
    + destruct (IH e0 Hc') as (e & He & Hor).
      exists e. split; [exact He |].
      destruct Hor as [-> | [-> | (g' & Hg & ->)]]; auto.
      right; right. exists g'.
      split; [now apply captured_later | reflexivity].
Qed.

(** *** One block *)

Lemma truthy_true (s : string) : truthy s = true <-> s <> "".
Proof. unfold truthy. rewrite negb_true_iff. apply is_empty_false. Qed.

(** A block adds nothing or one record, whatever was collected before it,
    and never throws. *)
Lemma parse_block_shape (num : option string) (content : string)
    (acc : list SlideContent) :
  exists rs,
    parse_block num content acc = Ok (acc ++ rs)%list
    /\ block_records (num, content) = rs
    /\ (rs = []
        \/ exists r, rs = [r]
             /\ heading r <> "" /\ explanation r <> ""
             /\ slideNumber r = number_of num
             /\ (exists g, captured headingPatterns content g
                    /\ heading r = strip_emphasis (trim g))
             /\ (exists g, captured explanationPatterns content g
                    /\ explanation r = clean_explanation g)).
Proof.
  destruct (extract_heading_ok headingPatterns content headingPatterns_capture)
    as (h & Hh & Hhor).
  destruct (extract_explanation_ok explanationPatterns content ""
              explanationPatterns_capture) as (e & He & Heor).
  unfold block_records, parse_block. cbn [fst snd]. rewrite Hh, He. cbn [bind].
  destruct (truthy h) eqn:Th; cbn [andb].
  - destruct (truthy e) eqn:Te.
    + eexists. split; [reflexivity |]. split; [reflexivity |].
      right. eexists. split; [reflexivity |]. cbn.
      apply truthy_true in Th, Te. repeat split; try assumption.
      * destruct Hhor as [-> | Hg]; [contradiction | exact Hg].
      * destruct Heor as [-> | [-> | Hg]]; [contradiction | contradiction | exact Hg].
    + exists []. rewrite app_nil_r. auto.
  - exists []. rewrite app_nil_r. auto.
Qed.

Lemma parse_block_records (num : option string) (content : string)
    (acc : list SlideContent) :
  parse_block num content acc = Ok (acc ++ block_records (num, content))%list.
Proof.
  destruct (parse_block_shape num content acc) as (rs & H & Hb & _).
  now rewrite Hb.
Qed.

(** The loop over the pieces collects the records of the blocks in order. *)
Lemma parse_blocks_flat (items : list (option string)) :
  forall acc,
    parse_blocks items acc
    = Ok (acc ++ flat_map block_records (blocks items))%list.
Proof.
  remember (List.length items) as n eqn:Hn. revert items Hn.
  induction n as [n IH] using lt_wf_ind. intros items Hn acc.
  destruct items as [|num [|c rest]].
  - simpl. now rewrite app_nil_r.
  - cbn [parse_blocks blocks flat_map].
    rewrite (app_nil_r (block_records (num, ""))).
    apply parse_block_records.
  - cbn [parse_blocks blocks flat_map]. rewrite parse_block_records.
    cbn [bind]. rewrite (IH (List.length rest)); [| subst n; simpl; lia | reflexivity].
    now rewrite app_assoc.
Qed.

Lemma parseSlideContent_flat (text : string) :
  parseSlideContent text
  = Ok (flat_map block_records (blocks (tl (split flags_i slide_marker text)))).
Proof. unfold parseSlideContent. now rewrite parse_blocks_flat. Qed.

(** The fields of a record that a block adds. *)
Lemma block_record_fields (num : option string) (content : string)
    (r : SlideContent) :
  In r (block_records (num, content)) ->
  heading r <> "" /\ explanation r <> ""
  /\ slideNumber r = number_of num
  /\ (exists g, captured headingPatterns content g
         /\ heading r = strip_emphasis (trim g))
  /\ (exists g, captured explanationPatterns content g
         /\ explanation r = clean_explanation g).
Proof.
  destruct (parse_block_shape num content []) as (rs & _ & -> & Hor).
  destruct Hor as [-> | (r0 & -> & H)]; [intros [] |].
  intros [<- | []]. exact H.
Qed.


(** *** A pattern that begins with a label finds nothing where the label
        does not occur *)

Lemma match_at_label_miss f p r s :
  lit_starts f p s = false -> match_at f (Seq (lit p) r) s = None.
Proof.
  intros H. unfold match_at. cbn [rmatch]. now rewrite rmatch_lit, H.
Qed.

Lemma occurs_ci_false_starts (p s : string) :
  occurs_ci p s = false -> starts_ci p s = false.
Proof.
  intros H. destruct s; simpl in H; apply orb_false_iff in H; tauto.
Qed.

Lemma occurs_ci_false_tail (p : string) (a : ascii) (s : string) :
  occurs_ci p (String a s) = false -> occurs_ci p s = false.
Proof. intros H. simpl in H. apply orb_false_iff in H. tauto. Qed.

Lemma exec_label_absent f p r s :
  ignoreCase f = true -> occurs_ci p s = false ->
  exec f (Seq (lit p) r) s = None.
Proof.
  intros Hf. induction s as [|a s IH]; intros H.
  - cbn [exec]. rewrite match_at_label_miss; [reflexivity |].
    rewrite lit_starts_ci by exact Hf. now apply occurs_ci_false_starts.
  - cbn [exec]. rewrite match_at_label_miss.
    + rewrite IH; [reflexivity | now apply occurs_ci_false_tail in H].
    + rewrite lit_starts_ci by exact Hf. now apply occurs_ci_false_starts.
Qed.




(** *** Splitting *)

Lemma split_go_skip f r (w s cur : string) :
  split_go f r (w ++ s) (String.length w) cur = split_go f r s 0 cur.
Proof.
  induction w as [|a w IH]; simpl; [now destruct s | exact IH].
Qed.

(** Where the pattern matches nowhere in [pre], the piece grows by [pre]. *)
Lemma split_go_pass f r (pre s cur : string) :
  (forall w1 w2, pre = w1 ++ w2 -> w2 <> "" -> match_at f r (w2 ++ s) = None) ->
  split_go f r (pre ++ s) 0 cur = split_go f r s 0 (cur ++ pre).
Proof.
  revert cur. induction pre as [|a pre IH]; intros cur H.
  - now rewrite append_nil_r.
  - cbn [append split_go].
    assert (E : match_at f r (String a (pre ++ s)) = None)
      by (apply (H "" (String a pre)); [reflexivity | discriminate]).
    rewrite E, IH.
    + now rewrite append_assoc.
    + intros w1 w2 -> Hne. now apply (H (String a w1) w2).
Qed.

Lemma split_go_end f r (cur : string) : split_go f r "" 0 cur = [Some cur].
Proof. reflexivity. Qed.

(** At a non-empty match the piece is closed and the capture follows it. *)
Lemma split_go_hit f r (mt rest cur : string) (c : option string) :
  mt <> "" ->
  match_at f r (mt ++ rest)
  = Some {| before := ""; matched := mt; after := rest; capture := c |} ->
  split_go f r (mt ++ rest) 0 cur = Some cur :: c :: split_go f r rest 0 "".
Proof.
  intros Hne E. destruct mt as [|a mt]; [contradiction |].
  cbn [append split_go].
  change (String a (mt ++ rest)) with (String a mt ++ rest).
  rewrite E. cbn [matched capture String.length].
  now rewrite split_go_skip.
Qed.

Lemma split_nowhere f r (text : string) :
  (forall w t, text = w ++ t -> match_at f r t = None) ->
  split f r text = [Some text].
Proof.
  intros H. destruct text as [|a text].
  - unfold split. now rewrite (H "" "" eq_refl).
  - unfold split. rewrite <- (append_nil_r (String a text)) at 1.
    rewrite split_go_pass; [reflexivity |].
    intros w1 w2 E _. rewrite append_nil_r. now apply (H w1 w2).
Qed.

(** *** Case *)

Lemma to_lower_canonical (a : ascii) :
  Chars.to_lower a = unfold_case (Chars.canonicalize a).
Proof.
  destruct a as [b0 b1 b2 b3 b4 b5 b6 b7];
    destruct b0, b1, b2, b3, b4, b5, b6, b7; reflexivity.
Qed.

Lemma canonical_same_lower (a b : ascii) :
  (Chars.canonicalize a =? Chars.canonicalize b)%N = true ->
  Chars.to_lower a = Chars.to_lower b.
Proof.
  intros H. apply N.eqb_eq in H. now rewrite !to_lower_canonical, H.
Qed.

Lemma starts_ci_lower (p s : string) :
  starts_ci p s = true ->
  s = take (String.length p) s ++ drop (String.length p) s
  /\ toLowerCase (take (String.length p) s) = toLowerCase p.
Proof.
  revert s; induction p as [|a p IH]; intros s H.
  - simpl. now destruct s.
  - destruct s as [|b s]; [discriminate |]. simpl in H.
    apply andb_prop in H as [Hab H]. destruct (IH _ H) as [Hs Hl].
    cbn [String.length take drop append]. split.
    + now rewrite <- Hs.
    + unfold toLowerCase in *. simpl. rewrite Hl.
      now rewrite (canonical_same_lower _ _ Hab).
Qed.

(** *** Slide markers *)

Lemma match_at_marker (t : string) (m : found) :
  match_at flags_i slide_marker t = Some m ->
  exists w ws ds post,
    t = w ++ ws ++ ds ++ post /\ Spec.is_marker w ws ds.
Proof.
  unfold match_at, slide_marker.
  change (seqs [lit "Slide"; Plus true CSpace; Group (Plus true CDigit)])
    with (Seq (lit "Slide") (Seq (Plus true CSpace) (Group (Plus true CDigit)))).
  rewrite rmatch_seq_lit, lit_starts_ci by reflexivity.
  destruct (starts_ci "Slide" t) eqn:Es; [| discriminate].
  destruct (starts_ci_lower _ _ Es) as [Ht Hl].
  set (t1 := drop (String.length "Slide") t) in *.
  destruct (rmatch flags_i (Seq (Plus true CSpace) (Group (Plus true CDigit)))
              t1 None accept) as [[s' c]|] eqn:E; [| discriminate].
  intros _.
  destruct (rmatch_sound _ _ _ _ _ _ E) as (s1 & c1 & M1 & _).
  inversion M1 as [| | r1 r2 s0 c0 s2 c2 s3 c3 Ma Mb | | | | | | |]; subst.
  inversion Ma as [| | | | | | g cs a w s4 c4 Pa Pw | | |]; subst.
  inversion Mb as [| | | | | | | r s4 c4 s5 c5 Mc | |]; subst.
  inversion Mc as [| | | | | | g cs d w' s6 c6 Pd Pw' | | |]; subst.
  exists (take (String.length "Slide") t), (String a w), (String d w'), s1.
  split.
  - rewrite Ht at 1. f_equal. fold t1.
    match goal with H : _ = t1 |- _ => rewrite <- H end.
    reflexivity.
  - unfold Spec.is_marker. repeat split; try discriminate.
    + exact Hl.
    + change (all (cset_match flags_i CSpace) (String a w) = true).
      cbn [all]. now rewrite Pa, Pw.
    + change (all (cset_match flags_i CDigit) (String d w') = true).
      cbn [all]. now rewrite Pd, Pw'.
Qed.

Lemma split_no_marker (text : string) :
  ~ Spec.has_marker text -> split flags_i slide_marker text = [Some text].
Proof.
  intros H. apply split_nowhere. intros w t ->.
  destruct (match_at flags_i slide_marker t) as [m|] eqn:E; [| reflexivity].
  exfalso. apply H.
  destruct (match_at_marker _ _ E) as (w0 & ws & ds & post & -> & Hm).
  now exists w, w0, ws, ds, post.
Qed.

Lemma has_marker_includes (text : string) :
  Spec.has_marker text -> includes (toLowerCase text) "slide" = true.
Proof.
  intros (pre & w & ws & ds & post & -> & Hw & _).
  unfold includes, toLowerCase in *. rewrite !map_app, Hw.
  apply occurs_app.
Qed.

End ParserFacts.

(** C6: the parser returns a list of slides for every text, it never
    throws; and for a text without a slide marker that list is empty. *)
Theorem C6_parser_total (text : string) :
  (exists slides, Parser.parseSlideContent text = Js.Ok slides)
  /\ (~ Spec.has_marker text -> Parser.parseSlideContent text = Js.Ok []).
Proof.
  split.
  - eexists. apply ParserFacts.parseSlideContent_flat.
  - intros H. unfold Parser.parseSlideContent.
    now rewrite (ParserFacts.split_no_marker _ H).
Qed.

Lemma C6_parser_total_witness :
  (exists slides,
      Parser.parseSlideContent "Cats are independent. Dogs are loyal."
      = Js.Ok slides)
  /\ Parser.parseSlideContent "Cats are independent. Dogs are loyal."
     = Js.Ok [].
Proof.
  destruct (C6_parser_total "Cats are independent. Dogs are loyal.") as [A B].
  split; [exact A |]. apply B. intros H.
  apply ParserFacts.has_marker_includes in H. vm_compute in H. discriminate H.
Defined.


(** C10: in every record the parser returns, the heading and the
    explanation are their captured texts with every pair of asterisks taken
    out, wherever it stands, and then every pair of underscores: nothing
    else is removed, no pair of asterisks is left by the first pass and no
    pair of underscores by the second. *)
Theorem C10_emphasis_removed_everywhere (text : string) :
  exists slides,
    Parser.parseSlideContent text = Js.Ok slides
    /\ forall r, In r slides ->
         exists b gh ge,
           In b (Parser.blocks
                   (tl (Js.split Parser.flags_i Parser.slide_marker text)))
           /\ Parser.captured Parser.headingPatterns (snd b) gh
           /\ Parser.captured Parser.explanationPatterns (snd b) ge
           /\ Spec.Stripped (Str.trim gh) (Parser.heading r)
           /\ Spec.Stripped (Parser.tidy_explanation ge)
                (Parser.explanation r).
Proof.
  eexists. split; [apply ParserFacts.parseSlideContent_flat |].
  intros r Hin. apply in_flat_map in Hin as ([num content] & Hb & Hr).
  destruct (ParserFacts.block_record_fields num content r Hr)
    as (_ & _ & _ & (gh & Cgh & Egh) & (ge & Cge & Ege)).
  exists (num, content), gh, ge. cbn [snd]. repeat split; try assumption.
  - rewrite Egh. apply ParserFacts.strip_emphasis_Stripped.
  - rewrite Ege. apply ParserFacts.strip_emphasis_Stripped.
Qed.

(** ** The third stage *)

Module ServerFacts.

Import Str StrFacts Js Parser Templater Server Batch BatchAux.

Lemma remaining_slide_outcome env prompt base64Image slide st :
  remaining_slide env prompt base64Image slide st
  = slide_outcome env prompt base64Image slide st.
Proof.
  unfold remaining_slide, slide_outcome, slide_request, mbind.
  destruct (blank (or_empty prompt)); [reflexivity |].
  unfold ret at 1, call_api, after_call. cbn [calls].
  destruct (generateContent env _ _) as [response | e]; [| reflexivity].
  unfold response_image.
  destruct (candidates response) as [[|candidate cs]|]; try reflexivity.
  destruct (find_image _) as [d|]; [| reflexivity].
  unfold now, write_file, after_write, completed_result. cbn.
  destruct (writeFileSync env _ _ _); reflexivity.
Qed.

Lemma remaining_slide_outcome_blank env prompt base64Image slide st :
  blank (or_empty prompt) = true ->
  remaining_slide env prompt base64Image slide st
  = (Throw (Error remaining_prompt_required), st).
Proof.
  intros H. rewrite remaining_slide_outcome. unfold slide_outcome.
  now rewrite H.
Qed.

Lemma remaining_slide_ok env prompt base64Image slide st r st' :
  remaining_slide env prompt base64Image slide st = (Ok r, st') ->
  r_slideNumber r = slideNumber slide
  /\ r_status r = completed /\ r_error r = None
  /\ r_imageUrl r
     = Some (imageUrl_of (filename_of env (slideNumber slide)
                            (date_now env (clock_reads st))))
  /\ exists d,
       written st'
       = (written st
          ++ [(filepath_of env (filename_of env (slideNumber slide)
                                  (date_now env (clock_reads st))), d)])%list.
Proof.
  rewrite remaining_slide_outcome. unfold slide_outcome.
  destruct (blank _); [discriminate |].
  destruct (generateContent env _ _) as [response | e]; [| discriminate].
  destruct (response_image response) as [d | e]; [| discriminate].
  destruct (writeFileSync env _ _ _); [discriminate |].
  intros H. injection H as <- <-. cbn. repeat split. now exists d.
Qed.

Lemma remaining_slide_throw env prompt base64Image slide st e st' :
  remaining_slide env prompt base64Image slide st = (Throw e, st') ->
  written st' = written st.
Proof.
  rewrite remaining_slide_outcome. unfold slide_outcome.
  destruct (blank _); [now intros H; injection H as _ <- |].
  destruct (generateContent env _ _) as [response | e0];
    [| now intros H; injection H as _ <-].
  destruct (response_image response) as [d | e0];
    [| now intros H; injection H as _ <-].
  destruct (writeFileSync env _ _ _); [| discriminate].
  now intros H; injection H as _ <-.
Qed.

(** The loop adds the results of a run to those it was given. *)
Lemma remaining_loop_run env prompt base64Image slides :
  forall acc st,
  exists rs st',
    remaining_loop env prompt base64Image slides acc st
    = (Ok (acc ++ rs)%list, st')
    /\ Run env prompt base64Image st slides rs st'.
Proof.
  induction slides as [|slide rest IH]; intros acc st.
  - exists [], st. cbn. rewrite app_nil_r. split; [reflexivity | constructor].
  - cbn [remaining_loop]. unfold mbind at 1, try_catch.
    destruct (remaining_slide env prompt base64Image slide st)
      as [[r | e] st1] eqn:E.
    + destruct (IH (acc ++ [r])%list st1) as (rs & st' & Hl & Hr).
      exists (r :: rs), st'. rewrite Hl, <- app_assoc.
      split; [reflexivity | econstructor; eassumption].
    + unfold ret. destruct (IH (acc ++ [failed_result slide e])%list st1)
        as (rs & st' & Hl & Hr).
      exists (failed_result slide e :: rs), st'. rewrite Hl, <- app_assoc.
      split; [reflexivity |]. eapply Run_failed; eassumption.
Qed.

(** A run gives one result per slide, in order, with the slide's number. *)
Lemma Run_numbers env prompt base64Image st slides rs st' :
  Run env prompt base64Image st slides rs st' ->
  List.map r_slideNumber rs = List.map slideNumber slides.
Proof.
  induction 1 as [| st slide r st1 rest rs st2 E _ IH
                  | st slide e st1 rest rs st2 E _ IH]; cbn.
  - reflexivity.
  - destruct (remaining_slide_ok _ _ _ _ _ _ _ E) as [-> _]. now rewrite IH.
  - now rewrite IH.
Qed.

Lemma Run_length env prompt base64Image st slides rs st' :
  Run env prompt base64Image st slides rs st' ->
  List.length rs = List.length slides.
Proof.
  intros H. apply Run_numbers in H.
  now rewrite <- (length_map r_slideNumber), H, length_map.
Qed.

(** Each result of a run is a completed one without an error, or a failed
    one with its message and no image. *)
Lemma Run_statuses env prompt base64Image st slides rs st' :
  Run env prompt base64Image st slides rs st' ->
  Forall (fun r =>
            (r_status r = completed /\ r_error r = None
             /\ r_imageUrl r <> None)
            \/ (r_status r = failed /\ r_imageUrl r = None
                /\ r_error r <> None)) rs.
Proof.
  induction 1 as [| st slide r st1 rest rs st2 E _ IH
                  | st slide e st1 rest rs st2 E _ IH]; constructor; auto.
  - left. destruct (remaining_slide_ok _ _ _ _ _ _ _ E)
      as (_ & Hs & He & Hu & _).
    rewrite Hs, He, Hu. repeat split; discriminate.
  - right. cbn. repeat split; discriminate.
Qed.

(** With slides and a reference image that can be read, the third stage
    answers 200 with the results of the loop. *)
Lemma generate_remaining_images_valid env req st slides url imageData :
  ri_slides req = Some slides -> slides <> [] ->
  ri_firstImageUrl req = Some url -> url <> "" ->
  existsSync env (join_root env (strip_leading_slash url)) = true ->
  readFileSync env (join_root env (strip_leading_slash url)) = Ok imageData ->
  generate_remaining_images env req st
  = (let (r, st') := remaining_loop env (ri_prompt req)
                       (to_base64 env imageData) slides [] st in
     match r with
     | Ok results => (Ok {| status := 200; body := RemainingBody results |}, st')
     | Throw e =>
         (Ok {| status := 500;
                body := ErrorBody "Failed to generate remaining images"
                          (Some (message_of e)) |}, st')
     end).
Proof.
  intros Hs Hne Hu Hune He Hr.
  unfold generate_remaining_images, try_catch. rewrite Hs.
  destruct slides as [|slide rest]; [contradiction |].
  unfold missing. rewrite Hu. cbn [or_empty].
  destruct url as [|a url]; [contradiction |]. cbn [is_empty].
  rewrite He. cbn [negb]. unfold mbind at 1, lift. rewrite Hr.
  unfold mbind, ret.
  now destruct (remaining_loop env (ri_prompt req) (to_base64 env imageData)
                  (slide :: rest) [] st) as [[results | e] st'].
Qed.

(** A reference image that is there but cannot be read fails the whole
    request. *)
Lemma generate_remaining_images_unreadable env req st slides url e :
  ri_slides req = Some slides -> slides <> [] ->
  ri_firstImageUrl req = Some url -> url <> "" ->
  existsSync env (join_root env (strip_leading_slash url)) = true ->
  readFileSync env (join_root env (strip_leading_slash url)) = Throw e ->
  generate_remaining_images env req st
  = (Ok {| status := 500;
           body := ErrorBody "Failed to generate remaining images"
                     (Some (message_of e)) |}, st).
Proof.
  intros Hs Hne Hu Hune He Hr.
  unfold generate_remaining_images, try_catch. rewrite Hs.
  destruct slides as [|slide rest]; [contradiction |].
  unfold missing. rewrite Hu. cbn [or_empty].
  destruct url as [|a url]; [contradiction |]. cbn [is_empty].
  rewrite He. cbn [negb]. unfold mbind at 1, lift. now rewrite Hr.
Qed.

End ServerFacts.

(** C1: with a non-empty list of slides and a reference image file that is
    there and is read, the third stage answers 200 with one result per
    slide, in the order of the slides and with their slide numbers; the
    slides are processed one after the other, a slide whose processing
    throws (blank prompt, failed call, no candidates, no image part, failed
    write) gives a failed result with the message and the loop goes on,
    every other slide gives a completed result. *)
Theorem C1_remaining_images_per_slide (env : Server.Env)
    (req : Server.GenerateRemainingImagesRequest) (st : Server.State)
    (slides : list Parser.SlideContent) (url imageData : string) :
  Server.ri_slides req = Some slides -> slides <> [] ->
  Server.ri_firstImageUrl req = Some url -> url <> "" ->
  Server.existsSync env
    (Server.join_root env (Server.strip_leading_slash url)) = true ->
  Server.readFileSync env
    (Server.join_root env (Server.strip_leading_slash url)) = Js.Ok imageData ->
  exists results st',
    Server.generate_remaining_images env req st
    = (Js.Ok {| Server.status := 200;
                Server.body := Server.RemainingBody results |}, st')
    /\ Batch.Run env (Server.ri_prompt req) (Server.to_base64 env imageData)
         st slides results st'
    /\ List.length results = List.length slides
    /\ List.map Server.r_slideNumber results
       = List.map Parser.slideNumber slides
    /\ Forall (fun r =>
                 (Server.r_status r = Server.completed
                  /\ Server.r_error r = None /\ Server.r_imageUrl r <> None)
                 \/ (Server.r_status r = Server.failed
                     /\ Server.r_imageUrl r = None
                     /\ Server.r_error r <> None)) results
    /\ (forall slide s0,
          Server.remaining_slide env (Server.ri_prompt req)
            (Server.to_base64 env imageData) slide s0
          = BatchAux.slide_outcome env (Server.ri_prompt req)
              (Server.to_base64 env imageData) slide s0).
Proof.
  intros Hs Hne Hu Hune He Hr.
  rewrite (ServerFacts.generate_remaining_images_valid
             env req st slides url imageData Hs Hne Hu Hune He Hr).
  destruct (ServerFacts.remaining_loop_run env (Server.ri_prompt req)
              (Server.to_base64 env imageData) slides [] st)
    as (rs & st' & Hl & Hrun).
  rewrite Hl. cbn [app]. exists rs, st'. split; [reflexivity |].
  split; [exact Hrun |].
  split; [now apply ServerFacts.Run_length in Hrun |].
  split; [now apply ServerFacts.Run_numbers in Hrun |].
  split; [now apply ServerFacts.Run_statuses in Hrun |].
  intros slide s0. apply ServerFacts.remaining_slide_outcome.
Qed.

Lemma C1_remaining_images_per_slide_witness :
  exists results st',
    Server.generate_remaining_images Demo.env
      (Demo.remaining_request "Draw {heading}: {explanation}" Demo.two_slides)
      Server.initial
    = (Js.Ok {| Server.status := 200;
                Server.body := Server.RemainingBody results |}, st')
    /\ Batch.Run Demo.env (Some "Draw {heading}: {explanation}")
         (Server.to_base64 Demo.env "PNG")
         Server.initial Demo.two_slides results st'
    /\ List.length results = List.length Demo.two_slides
    /\ List.map Server.r_slideNumber results
       = List.map Parser.slideNumber Demo.two_slides
    /\ Forall (fun r =>
                 (Server.r_status r = Server.completed
                  /\ Server.r_error r = None /\ Server.r_imageUrl r <> None)
                 \/ (Server.r_status r = Server.failed
                     /\ Server.r_imageUrl r = None
                     /\ Server.r_error r <> None)) results
    /\ (forall slide s0,
          Server.remaining_slide Demo.env (Some "Draw {heading}: {explanation}")
            (Server.to_base64 Demo.env "PNG") slide s0
          = BatchAux.slide_outcome Demo.env
              (Some "Draw {heading}: {explanation}")
              (Server.to_base64 Demo.env "PNG") slide s0).
Proof.
  apply (C1_remaining_images_per_slide Demo.env
           (Demo.remaining_request "Draw {heading}: {explanation}"
              Demo.two_slides)
           Server.initial Demo.two_slides "/uploads/carousel/first.png" "PNG");
    first [reflexivity | discriminate].
Defined.

(** The sample request of the witness gives a failed first result, since its
    answer has no candidates, and a completed second one. *)
Example remaining_images_sample :
  fst (Server.generate_remaining_images Demo.env
         (Demo.remaining_request "Draw {heading}: {explanation}"
            Demo.two_slides) Server.initial)
  = Js.Ok
      {| Server.status := 200;
         Server.body :=
           Server.RemainingBody
             [ {| Server.r_slideNumber := Js.Num 2;
                  Server.r_imageUrl := None;
                  Server.r_status := Server.failed;
                  Server.r_tokens := None;
                  Server.r_error := Some "No candidates in response" |};
               {| Server.r_slideNumber := Js.Num 3;
                  Server.r_imageUrl :=
                    Some "/uploads/carousel/test-slide-3-1700000000000.png";
                  Server.r_status := Server.completed;
                  Server.r_tokens :=
                    Some {| Server.input := 0; Server.output := 0;
                            Server.total := 0 |};
                  Server.r_error := None |} ] |}.
Proof. vm_compute. reflexivity. Qed.

(** ** Blank prompts *)

Module BlankFacts.

Import Str StrFacts Js Parser Templater Server Batch BatchAux DemoRequests.

Lemma generate_content_blank env req st :
  blank (or_empty (gc_prompt req)) = true ->
  exists err msg,
    generate_content env req st
    = (Ok {| status := 400; body := ErrorBody err msg |}, st).
Proof.
  intros H. unfold generate_content, try_catch.
  destruct (missing (gc_transcript req)); [now eexists; eexists |].
  rewrite H. now eexists; eexists.
Qed.

Lemma generate_first_image_blank env req st :
  blank (or_empty (fi_prompt req)) = true ->
  generate_first_image env req st
  = (Ok (if missing (fi_heading req) || missing (fi_explanation req)
         then {| status := 400;
                 body := ErrorBody "Heading and explanation are required"
                           None |}
         else {| status := 500;
                 body := ErrorBody "Failed to generate first image"
                           (Some first_prompt_required) |}), st).
Proof.
  intros H. unfold generate_first_image, try_catch.
  destruct (missing (fi_heading req) || missing (fi_explanation req));
    [reflexivity |].
  unfold mbind at 1. now rewrite H.
Qed.

Lemma remaining_loop_blank env prompt base64Image slides :
  blank (or_empty prompt) = true ->
  forall acc st,
    remaining_loop env prompt base64Image slides acc st
    = (Ok (acc ++ prompt_failures slides)%list, st).
Proof.
  intros H. induction slides as [|slide rest IH]; intros acc st.
  - cbn. now rewrite app_nil_r.
  - cbn [remaining_loop]. unfold mbind at 1, try_catch.
    rewrite ServerFacts.remaining_slide_outcome_blank by exact H.
    unfold ret. rewrite IH. cbn [prompt_failures List.map].
    now rewrite <- app_assoc.
Qed.

Lemma generate_remaining_images_blank env req st :
  blank (or_empty (ri_prompt req)) = true ->
  exists resp,
    generate_remaining_images env req st = (Ok resp, st)
    /\ ((exists err msg,
           body resp = ErrorBody err msg
           /\ (status resp = 400 \/ status resp = 500))
        \/ (exists slides,
              ri_slides req = Some slides
              /\ resp = {| status := 200;
                           body := RemainingBody (prompt_failures slides) |})).
Proof.
  intros H. unfold generate_remaining_images, try_catch.
  destruct (ri_slides req) as [[|slide rest]|] eqn:Es.
  - eexists. split; [reflexivity |]. left. eexists; eexists. cbn. auto.
  - destruct (missing (ri_firstImageUrl req)).
    { eexists. split; [reflexivity |]. left. eexists; eexists. cbn. auto. }
    destruct (existsSync env _); cbn [negb].
    2:{ eexists. split; [reflexivity |]. left. eexists; eexists. cbn. auto. }
    unfold mbind at 1, lift.
    destruct (readFileSync env _) as [imageData | e].
    + unfold mbind. rewrite (remaining_loop_blank _ _ _ _ H). unfold ret.
      eexists. split; [reflexivity |]. right.
      exists (slide :: rest). split; reflexivity.
    + eexists. split; [reflexivity |]. left. eexists; eexists. cbn. auto.
  - eexists. split; [reflexivity |]. left. eexists; eexists. cbn. auto.
Qed.

End BlankFacts.

(** C7: a request whose prompt is missing, empty or blank makes no call of
    the generation API and leaves no file, in any of the three stages, and
    its answer is a failure: the first stage answers 400; the second stage
    answers 400 when the heading or the explanation is missing and otherwise
    500 with the message that a prompt is required; the third stage answers
    with an error, or, when its slides and its reference image are in order,
    with one failed result per slide, each with the message that a prompt is
    required. *)
Theorem C7_blank_prompt_no_call (env : Server.Env) (st : Server.State)
    (a : Server.GenerateContentRequest)
    (b : Server.GenerateFirstImageRequest)
    (c : Server.GenerateRemainingImagesRequest) :
  (Templater.blank (Server.or_empty (Server.gc_prompt a)) = true ->
   exists err msg,
     Server.generate_content env a st
     = (Js.Ok {| Server.status := 400;
                 Server.body := Server.ErrorBody err msg |}, st))
  /\ (Templater.blank (Server.or_empty (Server.fi_prompt b)) = true ->
      Server.generate_first_image env b st
      = (Js.Ok
           (if Server.missing (Server.fi_heading b)
               || Server.missing (Server.fi_explanation b)
            then {| Server.status := 400;
                    Server.body :=
                      Server.ErrorBody "Heading and explanation are required"
                        None |}
            else {| Server.status := 500;
                    Server.body :=
                      Server.ErrorBody "Failed to generate first image"
                        (Some Server.first_prompt_required) |}), st))
  /\ (Templater.blank (Server.or_empty (Server.ri_prompt c)) = true ->
      exists resp,
        Server.generate_remaining_images env c st = (Js.Ok resp, st)
        /\ ((exists err msg,
               Server.body resp = Server.ErrorBody err msg
               /\ (Server.status resp = 400 \/ Server.status resp = 500))
            \/ (exists slides,
                  Server.ri_slides c = Some slides
                  /\ resp = {| Server.status := 200;
                               Server.body :=
                                 Server.RemainingBody
                                   (BatchAux.prompt_failures slides) |}))).
Proof.
  split; [apply BlankFacts.generate_content_blank |].
  split; [apply BlankFacts.generate_first_image_blank |].
  apply BlankFacts.generate_remaining_images_blank.
Qed.

Lemma C7_blank_prompt_no_call_witness :
  (exists err msg,
     Server.generate_content Demo.env DemoRequests.blank_content_request
       Server.initial
     = (Js.Ok {| Server.status := 400;
                 Server.body := Server.ErrorBody err msg |}, Server.initial))
  /\ Server.generate_first_image Demo.env DemoRequests.blank_first_request
       Server.initial
     = (Js.Ok {| Server.status := 500;
                 Server.body :=
                   Server.ErrorBody "Failed to generate first image"
                     (Some Server.first_prompt_required) |}, Server.initial)
  /\ (exists resp,
        Server.generate_remaining_images Demo.env
          DemoRequests.blank_remaining_request Server.initial
        = (Js.Ok resp, Server.initial)
        /\ ((exists err msg,
               Server.body resp = Server.ErrorBody err msg
               /\ (Server.status resp = 400 \/ Server.status resp = 500))
            \/ (exists slides,
                  Server.ri_slides DemoRequests.blank_remaining_request
                  = Some slides
                  /\ resp = {| Server.status := 200;
                               Server.body :=
                                 Server.RemainingBody
                                   (BatchAux.prompt_failures slides) |}))).
Proof.
  destruct (C7_blank_prompt_no_call Demo.env Server.initial
              DemoRequests.blank_content_request
              DemoRequests.blank_first_request
              DemoRequests.blank_remaining_request) as (A & B & C).
  split; [apply A; reflexivity |].
  split; [apply B; reflexivity | apply C; reflexivity].
Defined.

(** ** File names *)

Module NameFacts.

Import Str StrFacts Js Parser Templater Server Batch BatchAux Names.


Lemma without_app (c : ascii) (a b : string) :
  without c (a ++ b) = without c a && without c b.
Proof. apply all_app. Qed.


(** The decimal digits of a number hold no other character. *)
Lemma uint_digits (d : Decimal.uint) :
  all Chars.is_digit (NilEmpty.string_of_uint d) = true.
Proof. induction d; cbn; auto. Qed.

Lemma digits_without (c : ascii) (s : string) :
  Chars.is_digit c = false -> all Chars.is_digit s = true ->
  without c s = true.
Proof.
  intros Hc. unfold without. induction s as [|x s IH]; cbn; [reflexivity |].
  intros H. apply andb_prop in H as [Hx H]. rewrite (IH H), andb_true_r.
  destruct (Ascii.eqb_spec x c) as [-> |]; [congruence | reflexivity].
Qed.

Lemma render_time_digits (t : N) : all Chars.is_digit (render_time t) = true.
Proof.
  unfold render_time, NilZero.string_of_uint.
  destruct (N.to_uint t) eqn:E; try (rewrite <- E; apply uint_digits).
  reflexivity.
Qed.






(** *** What the stages write *)




End NameFacts.



(** ** Texts of well-formed blocks *)

Module LayoutFacts.

Import Str StrFacts Re ReSem ReFacts Js Pred Parser ParserFacts Names Layout.

(** *** Barriers *)

Lemma starts_ci_barrier (p : string) (sep : ascii) (u v : string) :
  barrier p sep = true ->
  p <> "" ->
  starts_ci p (u ++ String sep v) = starts_ci p u.
Proof.
  unfold barrier. revert u. induction p as [|a p IH]; intros u Hb Hne.
  - contradiction.
  - cbn in Hb. apply andb_prop in Hb as [Ha Hb].
    destruct u as [|b u]; cbn.
    + apply negb_true_iff in Ha. now rewrite Ha.
    + destruct p as [|a' p'].
      * now destruct u.
      * rewrite IH; [reflexivity | exact Hb | discriminate].
Qed.

Lemma occurs_ci_nil (p : string) : p <> "" -> occurs_ci p "" = false.
Proof. destruct p; [contradiction | reflexivity]. Qed.

Lemma occurs_ci_barrier (p : string) (sep : ascii) (u v : string) :
  barrier p sep = true ->
  p <> "" ->
  occurs_ci p (u ++ String sep v) = occurs_ci p u || occurs_ci p v.
Proof.
  intros Hb Hne. induction u as [|b u IH].
  - cbn [append occurs_ci].
    change (String sep v) with ("" ++ String sep v) at 1.
    rewrite (starts_ci_barrier p sep "" v Hb Hne).
    destruct p; [contradiction | reflexivity].
  - cbn [append occurs_ci].
    change (String b (u ++ String sep v)) with (String b u ++ String sep v).
    rewrite starts_ci_barrier, IH by assumption. now rewrite orb_assoc.
Qed.

Lemma occurs_ci_suffix (p u1 u2 : string) :
  occurs_ci p (u1 ++ u2) = false -> occurs_ci p u2 = false.
Proof.
  induction u1 as [|a u1 IH]; cbn [append]; intros H; [exact H |].
  apply IH. now apply occurs_ci_false_tail in H.
Qed.

(** *** White space *)

Lemma all_take_while (p : ascii -> bool) (s : string) :
  all p (take_while p s) = true.
Proof.
  induction s as [|a s IH]; cbn; [reflexivity |].
  destruct (p a) eqn:E; cbn; [now rewrite E | reflexivity].
Qed.

Lemma take_while_trim_start (s : string) :
  s = take_while Chars.is_space s ++ trim_start s.
Proof.
  induction s as [|a s IH]; cbn; [reflexivity |].
  destruct (Chars.is_space a); cbn; [now rewrite <- IH | reflexivity].
Qed.

Lemma stops_trim_start (s : string) : stops Chars.is_space (trim_start s) = true.
Proof.
  induction s as [|a s IH]; cbn; [reflexivity |].
  destruct (Chars.is_space a) eqn:E; [exact IH | cbn; now rewrite E].
Qed.

Lemma trim_start_stops (s : string) :
  stops Chars.is_space s = true -> trim_start s = s.
Proof.
  destruct s as [|a s]; cbn; [reflexivity |].
  intros H. apply negb_true_iff in H. now rewrite H.
Qed.

Lemma trim_start_idem (s : string) : trim_start (trim_start s) = trim_start s.
Proof. apply trim_start_stops, stops_trim_start. Qed.

Lemma trim_start_spaces (w s : string) :
  all Chars.is_space w = true -> trim_start (w ++ s) = trim_start s.
Proof.
  induction w as [|a w IH]; cbn; [reflexivity |].
  intros H. apply andb_prop in H as [Ha H]. now rewrite Ha, IH.
Qed.

Lemma trim_start_app (s t : string) :
  trim_start s <> "" -> trim_start (s ++ t) = trim_start s ++ t.
Proof.
  induction s as [|a s IH]; cbn; [contradiction |].
  destruct (Chars.is_space a); [exact IH | reflexivity].
Qed.

Lemma trim_end_spaces (s w : string) :
  all Chars.is_space w = true -> trim_end (s ++ w) = trim_end s.
Proof.
  intros Hw. induction s as [|a s IH]; cbn.
  - induction w as [|b w IHw]; cbn; [reflexivity |].
    cbn in Hw. apply andb_prop in Hw as [Hb Hw].
    now rewrite (IHw Hw), Hb.
  - now rewrite IH.
Qed.

Lemma trim_end_idem (s : string) : trim_end (trim_end s) = trim_end s.
Proof.
  induction s as [|a s IH]; cbn; [reflexivity |].
  destruct (Chars.is_space a && is_empty (trim_end s)) eqn:E; [reflexivity |].
  cbn. now rewrite IH, E.
Qed.

Lemma stops_trim_end (s : string) :
  stops Chars.is_space s = true -> stops Chars.is_space (trim_end s) = true.
Proof.
  destruct s as [|a s]; cbn; [reflexivity |].
  intros H. apply negb_true_iff in H. rewrite H. cbn. now rewrite H.
Qed.

Lemma trim_idem (s : string) : trim (trim s) = trim s.
Proof.
  unfold trim.
  rewrite (trim_start_stops (trim_end (trim_start s)))
    by apply stops_trim_end, stops_trim_start.
  apply trim_end_idem.
Qed.

Lemma trim_of_trim_start (s : string) : trim (trim_start s) = trim s.
Proof. unfold trim. now rewrite trim_start_idem. Qed.

Lemma trim_nonblank (s : string) : trim s <> "" -> trim_start s <> "".
Proof. unfold trim. intros H E. apply H. now rewrite E. Qed.

(** Trailing white space does not show after trimming. *)
Lemma trim_app_spaces (s w : string) :
  trim s <> "" -> all Chars.is_space w = true -> trim (s ++ w) = trim s.
Proof.
  intros Hs Hw. unfold trim.
  rewrite trim_start_app by now apply trim_nonblank.
  now apply trim_end_spaces.
Qed.

(** *** Greedy runs and captures *)

Lemma stops_no_run (p : ascii -> bool) (s w2 s2 : string) :
  stops p s = true -> s = w2 ++ s2 -> w2 <> "" -> all p w2 = true -> False.
Proof.
  intros Hs -> Hne Hw. destruct w2 as [|a w2]; [contradiction |].
  cbn in Hs, Hw. apply andb_prop in Hw as [Ha _]. now rewrite Ha in Hs.
Qed.

(** A greedy quantifier that meets the end of its run goes on from there
    when the rest of the pattern succeeds there. *)
Lemma star_greedy_stop p w s k res :
  all p w = true -> stops p s = true -> k s = Some res ->
  star_greedy p (w ++ s) k = Some res.
Proof.
  intros Hw Hs Hk. apply star_greedy_longest; [exact Hw | exact Hk |].
  intros w2 s2 E Hne Hw2. exfalso. exact (stops_no_run p s w2 s2 Hs E Hne Hw2).
Qed.

Lemma consumed_app (w s : string) : consumed (w ++ s) s = w.
Proof.
  unfold consumed. rewrite length_append, Nat.add_sub. apply take_app.
Qed.

Lemma consumed_cons (a : ascii) (w s : string) :
  consumed (String a (w ++ s)) s = String a w.
Proof. apply (consumed_app (String a w) s). Qed.

(** *** Searching past text that does not hold the label *)

Lemma exec_here f r s m : match_at f r s = Some m -> exec f r s = Some m.
Proof. intros H. destruct s; cbn; now rewrite H. Qed.

Lemma exec_next f r a s :
  match_at f r (String a s) = None ->
  exec f r (String a s) = option_map (shift a) (exec f r s).
Proof. intros H. cbn [exec]. now rewrite H. Qed.

Lemma shift_shifts (a : ascii) (pre : string) (x : option found) :
  option_map (shift a) (option_map (shifts pre) x)
  = option_map (shifts (String a pre)) x.
Proof. now destruct x. Qed.

Lemma match_at_label_ci_miss f p r s :
  ignoreCase f = true -> starts_ci p s = false ->
  match_at f (Seq (lit p) r) s = None.
Proof.
  intros Hf H. apply match_at_label_miss. now rewrite lit_starts_ci.
Qed.

Lemma exec_past f p r sep u v :
  ignoreCase f = true -> barrier p sep = true -> p <> "" ->
  occurs_ci p u = false ->
  exec f (Seq (lit p) r) (u ++ String sep v)
  = option_map (shifts (u ++ String sep "")) (exec f (Seq (lit p) r) v).
Proof.
  intros Hf Hb Hne. induction u as [|a u IH]; intros Hu.
  - cbn [append]. rewrite exec_next.
    + apply f_equal. reflexivity.
    + apply match_at_label_ci_miss; [exact Hf |].
      change (String sep v) with ("" ++ String sep v).
      rewrite starts_ci_barrier by assumption. now destruct p.
  - cbn [append]. rewrite exec_next.
    + rewrite IH by now apply occurs_ci_false_tail in Hu.
      apply shift_shifts.
    + apply match_at_label_ci_miss; [exact Hf |].
      change (String a (u ++ String sep v)) with (String a u ++ String sep v).
      rewrite starts_ci_barrier by assumption.
      now apply occurs_ci_false_starts.
Qed.

Lemma capture_shifts (pre : string) (x : option found) (m : found) :
  option_map (shifts pre) x = Some m ->
  exists m0, x = Some m0 /\ capture m = capture m0.
Proof.
  destruct x as [m0|]; [| discriminate]. intros H. injection H as <-.
  now exists m0.
Qed.

(** *** The tail of a pattern that asks for the slide word *)

Lemma slide_tail_none f r s c k :
  ignoreCase f = true -> occurs_ci "Slide" s = false ->
  rmatch f (Seq (Star true CSpace) (Seq (lit "Slide") r)) s c k = None.
Proof.
  intros Hf Hs. cbn [rmatch]. apply (star_none true). intros w s' -> Hw.
  rewrite rmatch_lit, lit_starts_ci by exact Hf.
  now rewrite (occurs_ci_false_starts _ _ (occurs_ci_suffix _ _ _ Hs)).
Qed.

Lemma occurs_ci_drop (p : string) (n : nat) (s : string) :
  occurs_ci p s = false -> occurs_ci p (drop n s) = false.
Proof.
  revert s; induction n as [|n IH]; intros s H; [now destruct s |].
  destruct s as [|a s]; [exact H |]. cbn. apply IH.
  now apply occurs_ci_false_tail in H.
Qed.

Lemma line_slide_tail_none f r s c k :
  ignoreCase f = true -> occurs_ci "Slide" s = false ->
  rmatch f (Seq (lit nl) (Seq (Star true CSpace) (Seq (lit "Slide") r))) s c k
  = None.
Proof.
  intros Hf Hs. rewrite rmatch_seq_lit.
  destruct (lit_starts f nl s); [| reflexivity].
  apply slide_tail_none; [exact Hf | now apply occurs_ci_drop].
Qed.

(** The clean-up of an explanation leaves a text without the slide word as
    it is. *)
Lemma trailing_slide_absent (s : string) :
  occurs_ci "Slide" s = false ->
  replace_first flags_is trailing_slide "" s = s.
Proof.
  intros Hs. unfold replace_first.
  assert (E : exec flags_is trailing_slide s = None); [| now rewrite E].
  induction s as [|a s IH].
  - reflexivity.
  - rewrite exec_next.
    + rewrite IH; [reflexivity | now apply occurs_ci_false_tail in Hs].
    + unfold match_at, trailing_slide. cbn [seqs].
      rewrite rmatch_seq_lit.
      destruct (lit_starts flags_is nl (String a s)); [| reflexivity].
      cbn [rmatch]. rewrite (star_none true); [reflexivity |].
      intros w s' E Hw. rewrite rmatch_lit.
      destruct (lit_starts flags_is nl s') eqn:El; [| reflexivity].
      pose proof (slide_tail_none flags_is (Seq (Star true CDot) Eoi)
                    (drop (String.length nl) s') None accept eq_refl) as Hn.
      cbn [rmatch] in Hn. apply Hn. apply occurs_ci_drop.
      apply (occurs_ci_suffix "Slide" w). rewrite <- E.
      now apply occurs_ci_drop.
Qed.

(** *** The heading of a block *)

Lemma starts_ci_app (p s : string) : starts_ci p (p ++ s) = true.
Proof.
  induction p as [|a p IH]; cbn; [reflexivity |].
  now rewrite N.eqb_refl, IH.
Qed.

Lemma without_trim_start (c : ascii) (s : string) :
  without c s = true -> without c (trim_start s) = true.
Proof.
  unfold without. induction s as [|a s IH]; cbn; [reflexivity |].
  intros H. apply andb_prop in H as [Ha H].
  destruct (Chars.is_space a); [now apply IH | cbn; now rewrite Ha, H].
Qed.

Lemma leading_split (H rest : string) :
  " " ++ H ++ rest
  = (" " ++ take_while Chars.is_space H) ++ (trim_start H ++ rest).
Proof.
  cbn [append]. f_equal.
  now rewrite <- append_assoc, <- take_while_trim_start.
Qed.

(** The second heading pattern, at the label: the heading is the rest of
    the line without its leading white space. *)
Lemma heading_2_at_label (H rest : string) :
  without newline H = true -> trim_start H <> "" ->
  exists m,
    match_at flags_i heading_pattern_2 ("Heading: " ++ H ++ nl ++ rest)
    = Some m
    /\ capture m = Some (trim_start H).
Proof.
  intros Hline Hnb. unfold match_at, heading_pattern_2. cbn [seqs].
  change ("Heading: " ++ H ++ nl ++ rest)
    with ("Heading:" ++ (" " ++ H ++ nl ++ rest)).
  rewrite rmatch_seq_lit, lit_starts_ci, starts_ci_app, drop_app by reflexivity.
  cbn [rmatch]. unfold star.
  rewrite (leading_split H (nl ++ rest)).
  pose proof (without_trim_start _ _ Hline) as Hline'.
  destruct (trim_start H) as [|x H'] eqn:EH; [contradiction |].
  unfold without in Hline'. cbn [all] in Hline'.
  apply andb_prop in Hline' as [Hx Hrest].
  erewrite (star_greedy_stop _ _ _ _ (nl ++ rest, Some (String x H'))).
  - eexists. split; reflexivity.
  - cbn [append all]. apply all_take_while.
  - pose proof (stops_trim_start H) as Hs. rewrite EH in Hs. exact Hs.
  - cbn [append].
    change (cset_match flags_i CNotNl x) with (negb (Ascii.eqb x newline)).
    rewrite Hx.
    rewrite (star_greedy_stop (cset_match flags_i CNotNl) H' (nl ++ rest) _
               (nl ++ rest, Some (String x H'))); try reflexivity.
    + exact Hrest.
    + unfold accept. now rewrite consumed_cons.
Qed.

(** *** The first heading pattern finds nothing in a block of three lines *)

Lemma canonical_newline (b : ascii) :
  (Chars.canonicalize newline =? Chars.canonicalize b)%N = Ascii.eqb b newline.
Proof.
  destruct b as [b0 b1 b2 b3 b4 b5 b6 b7];
    destruct b0, b1, b2, b3, b4, b5, b6, b7; reflexivity.
Qed.

Lemma lit_starts_nl f (s : string) :
  lit_starts f nl s = starts nl s.
Proof.
  destruct s as [|b s]; [reflexivity |]. unfold nl.
  cbn [lit_starts starts cset_match].
  destruct (ignoreCase f); [| reflexivity].
  now rewrite canonical_newline, Ascii.eqb_sym.
Qed.

Lemma append_eq_append (a b c d : string) :
  a ++ b = c ++ d ->
  (exists e, c = a ++ e /\ b = e ++ d) \/ (exists e, a = c ++ e /\ d = e ++ b).
Proof.
  revert c. induction a as [|x a IH]; intros c E.
  - left. exists c. auto.
  - destruct c as [|y c].
    + right. exists (String x a). auto.
    + cbn in E. injection E as -> E.
      destruct (IH _ E) as [(e & -> & ->) | (e & -> & ->)].
      * left. now exists e.
      * right. now exists e.
Qed.

Lemma all_spaces_blank (s : string) :
  all Chars.is_space s = true -> trim_start s = "".
Proof.
  induction s as [|a s IH]; cbn; [reflexivity |].
  intros H. apply andb_prop in H as [Ha H]. now rewrite Ha, IH.
Qed.

Lemma without_all (c : ascii) (s : string) :
  without c s = all (fun x => negb (Ascii.eqb x c)) s.
Proof. reflexivity. Qed.

Lemma without_suffix (c : ascii) (u1 u2 : string) :
  without c (u1 ++ u2) = true -> without c u2 = true.
Proof.
  rewrite NameFacts.without_app. intros H. now apply andb_prop in H.
Qed.

(** Where a run of white space and then of characters other than newline
    can end inside a line that is not blank: before the end of the line. *)
Lemma run_inside_line (u rest w x s3 : string) :
  without newline u = true -> trim_start u <> "" ->
  all Chars.is_space w = true ->
  all (fun a => negb (Ascii.eqb a newline)) x = true ->
  u ++ nl ++ rest = (w ++ x) ++ s3 ->
  exists h2, u = (w ++ x) ++ h2 /\ s3 = h2 ++ nl ++ rest.
Proof.
  intros Hu Hnb Hw Hx E.
  destruct (append_eq_append _ _ _ _ E) as [(e & Hwx & He) | (e & Hue & Hs3)].
  - destruct e as [|a e].
    + exists "". rewrite append_nil_r in *. cbn [append] in He.
      split; [now symmetry | now symmetry].
    + exfalso. cbn in He. injection He as <- He.
      symmetry in Hwx.
      destruct (append_eq_append _ _ _ _ Hwx) as [(e2 & H1 & H2) | (e2 & H1 & H2)].
      * apply Hnb, all_spaces_blank. rewrite H1, all_app in Hw.
        now apply andb_prop in Hw.
      * rewrite H2, all_app in Hx. apply andb_prop in Hx as [_ Hx].
        cbn in Hx. discriminate Hx.
  - exists e. split; [exact Hue | exact Hs3].
Qed.

Lemma stops_space_not_nl (rest : string) :
  stops Chars.is_space rest = true -> starts nl rest = false.
Proof.
  destruct rest as [|b rest]; [reflexivity |]. unfold nl.
  cbn [stops starts]. intros H.
  destruct (Ascii.eqb newline b) eqn:E; [| reflexivity].
  apply Ascii.eqb_eq in E. subst b. discriminate H.
Qed.

Lemma without_starts_nl (h rest : string) :
  without newline h = true -> h <> "" -> starts nl (h ++ rest) = false.
Proof.
  destruct h as [|b h]; [contradiction |]. intros H _. unfold nl.
  cbn [append starts].
  unfold without in H. cbn [all] in H. apply andb_prop in H as [Hb _].
  rewrite Ascii.eqb_sym. apply negb_true_iff in Hb. now rewrite Hb.
Qed.

(** The alternative that closes the first heading pattern, after a piece
    [h2] of the heading line. *)
Lemma heading_1_close (h2 rest : string) (c : option string) :
  without newline h2 = true ->
  occurs_ci "Explanation:" h2 = false ->
  stops Chars.is_space rest = true ->
  rmatch flags_is
    (Alt (seqs [lit nl; Star true CSpace; lit nl]) (lit "Explanation:"))
    (h2 ++ nl ++ rest) c accept = None.
Proof.
  intros Hline Hexp Hrest. cbn [seqs]. rewrite rmatch_alt.
  apply orelse_none. split.
  - rewrite rmatch_seq_lit, lit_starts_nl.
    destruct h2 as [|b h2].
    + cbn [append starts nl]. rewrite Ascii.eqb_refl. cbn [andb drop String.length].
      cbn [rmatch]. apply (star_none true). intros w s' E Hw.
      rewrite rmatch_lit, lit_starts_nl.
      destruct w as [|a w].
      * cbn in E. subst s'. now rewrite stops_space_not_nl.
      * exfalso. apply (stops_no_run Chars.is_space rest (String a w) s');
          [exact Hrest | exact E | discriminate | exact Hw].
    + rewrite without_starts_nl; [reflexivity | exact Hline | discriminate].
  - rewrite rmatch_lit, lit_starts_ci by reflexivity.
    change (h2 ++ nl ++ rest) with (h2 ++ String newline rest).
    rewrite starts_ci_barrier; [| reflexivity | discriminate].
    now rewrite occurs_ci_false_starts.
Qed.

Lemma heading_1_at_label (H rest : string) :
  without newline H = true -> trim_start H <> "" ->
  occurs_ci "Explanation:" H = false ->
  stops Chars.is_space rest = true ->
  match_at flags_is heading_pattern_1 ("Heading: " ++ H ++ nl ++ rest) = None.
Proof.
  intros Hline Hnb Hexp Hrest. unfold match_at, heading_pattern_1.
  cbn [seqs].
  change ("Heading: " ++ H ++ nl ++ rest)
    with ("Heading:" ++ (" " ++ H ++ nl ++ rest)).
  rewrite rmatch_seq_lit, lit_starts_ci, starts_ci_app, drop_app by reflexivity.
  assert (E : rmatch flags_is
                (Seq (Star true CSpace)
                   (Seq (Group (Plus false CNotNl))
                      (Alt (Seq (lit nl) (Seq (Star true CSpace) (lit nl)))
                         (lit "Explanation:"))))
                (" " ++ H ++ nl ++ rest) None accept = None);
    [| now rewrite E].
  cbn [rmatch]. apply (star_none true). intros w s1 E1 Hw.
  destruct s1 as [|a s1]; [reflexivity |].
  destruct (cset_match flags_is CNotNl a) eqn:Ea; [| reflexivity].
  apply (star_none false). intros w' s3 E3 Hw'. subst s1.
  assert (Hu : without newline (" " ++ H) = true) by exact Hline.
  assert (Hunb : trim_start (" " ++ H) <> "") by exact Hnb.
  destruct (run_inside_line (" " ++ H) rest w (String a w') s3 Hu Hunb Hw)
    as (h2 & Hh2 & Hs3).
  { cbn [all]. change (cset_match flags_is CNotNl a) with
      (negb (Ascii.eqb a newline)) in Ea. rewrite Ea. exact Hw'. }
  { rewrite !append_assoc. cbn [append] in *. exact E1. }
  rewrite Hs3. apply heading_1_close.
  - rewrite Hh2 in Hu. now apply without_suffix in Hu.
  - apply (occurs_ci_suffix "Explanation:" (w ++ String a w')).
    rewrite <- Hh2. exact Hexp.
  - exact Hrest.
Qed.

(** *** The explanation of a block *)

Lemma consumed_nil (s : string) : consumed s "" = s.
Proof.
  rewrite <- (append_nil_r s) at 1. apply consumed_app.
Qed.

(** The lookahead of the first explanation pattern fails before the end of
    a text without the slide word, and holds at the end. *)
Lemma explanation_1_ahead_none (s : string) (c : option string) :
  s <> "" -> occurs_ci "Slide" s = false ->
  rmatch flags_i
    (Ahead (Alt (seqs [lit nl; Star true CSpace; lit "Slide";
                       Plus true CSpace; Plus true CDigit]) Eoi))
    s c accept = None.
Proof.
  intros Hne Hs. cbn [seqs].
  assert (E : rmatch flags_i
                (Alt (Seq (lit nl) (Seq (Star true CSpace)
                        (Seq (lit "Slide")
                           (Seq (Plus true CSpace) (Plus true CDigit))))) Eoi)
                s c accept = None).
  { rewrite rmatch_alt. apply orelse_none. split.
    - now apply line_slide_tail_none.
    - destruct s; [contradiction | reflexivity]. }
  cbn [rmatch] in *. now rewrite E.
Qed.

Lemma explanation_1_at_label (E' : string) :
  trim_start E' <> "" -> occurs_ci "Slide" E' = false ->
  exists m,
    match_at flags_i explanation_pattern_1 ("Explanation: " ++ E') = Some m
    /\ capture m = Some (trim_start E').
Proof.
  intros Hnb Hs. unfold match_at, explanation_pattern_1.
  change (seqs [lit "Explanation:"; Star true CSpace; Group (Plus false CAny);
                Ahead (Alt (seqs [lit nl; Star true CSpace; lit "Slide";
                                  Plus true CSpace; Plus true CDigit]) Eoi)])
    with (Seq (lit "Explanation:")
            (Seq (Star true CSpace)
               (Seq (Group (Plus false CAny))
                  (Ahead (Alt (seqs [lit nl; Star true CSpace; lit "Slide";
                                     Plus true CSpace; Plus true CDigit])
                            Eoi))))).
  change ("Explanation: " ++ E') with ("Explanation:" ++ (" " ++ E')).
  rewrite rmatch_seq_lit, lit_starts_ci, starts_ci_app, drop_app by reflexivity.
  set (look := Ahead (Alt (seqs [lit nl; Star true CSpace; lit "Slide";
                                 Plus true CSpace; Plus true CDigit]) Eoi)).
  assert (Hsuf : occurs_ci "Slide" (trim_start E') = false).
  { apply (occurs_ci_suffix "Slide" (take_while Chars.is_space E')).
    now rewrite <- take_while_trim_start. }
  assert (Eq : rmatch flags_i
                 (Seq (Star true CSpace) (Seq (Group (Plus false CAny)) look))
                 (" " ++ E') None accept
               = Some ("", Some (trim_start E'))); [| now rewrite Eq; eexists].
  replace (" " ++ E')
    with ((" " ++ take_while Chars.is_space E') ++ (trim_start E' ++ ""))
    by (rewrite <- leading_split; now rewrite append_nil_r).
  rewrite append_nil_r.
  destruct (trim_start E') as [|x X] eqn:EX; [contradiction |].
  cbn [rmatch]. unfold star at 1.
  apply star_greedy_stop.
  - cbn [append all]. apply all_take_while.
  - pose proof (stops_trim_start E') as Hst. now rewrite EX in Hst.
  - change (cset_match flags_i CAny x) with true. cbn iota.
    unfold star. rewrite <- (append_nil_r X) at 1.
    apply star_lazy_shortest.
    + clear. induction X as [|y X IH]; [reflexivity | exact IH].
    + rewrite consumed_nil. reflexivity.
    + intros w1 w2 EX2 Hne. rewrite append_nil_r.
      apply (explanation_1_ahead_none w2 _ Hne).
      apply (occurs_ci_suffix "Slide" (String x w1)).
      cbn [append]. rewrite <- EX2. exact Hsuf.
Qed.

(** *** Where the labels and the slide word can occur in a block *)

Lemma starts_ci_mono (p a b : string) :
  starts_ci p a = true -> starts_ci p (a ++ b) = true.
Proof.
  revert a; induction p as [|x p IH]; intros a H; [reflexivity |].
  destruct a as [|y a]; [discriminate |]. cbn in *.
  apply andb_prop in H as [Hxy H]. now rewrite Hxy, IH.
Qed.

Lemma occurs_ci_prefix (p a b : string) :
  occurs_ci p (a ++ b) = false -> occurs_ci p a = false.
Proof.
  intros H. destruct (occurs_ci p a) eqn:E; [| reflexivity].
  rewrite <- H. clear H. symmetry.
  induction a as [|x a IH].
  - cbn in E. rewrite orb_false_r in E.
    destruct p; [now destruct b | discriminate].
  - cbn [append occurs_ci] in *. apply orb_prop in E as [E | E].
    + change (String x (a ++ b)) with (String x a ++ b).
      now rewrite starts_ci_mono.
    + rewrite (IH E). apply orb_true_r.
Qed.

Lemma trim_end_prefix (t : string) : exists w, t = trim_end t ++ w.
Proof.
  induction t as [|a t [w Hw]]; [now exists "" |]. cbn.
  destruct (Chars.is_space a && is_empty (trim_end t)).
  - now exists (String a t).
  - exists w. cbn. now rewrite <- Hw.
Qed.

Lemma occurs_ci_trim (p s : string) :
  occurs_ci p s = false -> occurs_ci p (trim s) = false.
Proof.
  intros H. unfold trim. destruct (trim_end_prefix (trim_start s)) as [w Hw].
  apply (occurs_ci_prefix p _ w). rewrite <- Hw.
  apply (occurs_ci_suffix p (take_while Chars.is_space s)).
  now rewrite <- take_while_trim_start.
Qed.

Section Lines.

Variable p : string.
Hypothesis p_nonempty : p <> "".
Hypothesis p_space : barrier p " " = true.
Hypothesis p_newline : barrier p newline = true.

Lemma occurs_ci_tail (E tail : string) :
  tail = "" \/ tail = nl -> occurs_ci p (E ++ tail) = occurs_ci p E.
Proof.
  intros [-> | ->].
  - now rewrite append_nil_r.
  - unfold nl. rewrite occurs_ci_barrier by assumption.
    rewrite (occurs_ci_nil p p_nonempty). apply orb_false_r.
Qed.

Lemma occurs_ci_labelled (label X : string) :
  occurs_ci p (label ++ " " ++ X) = occurs_ci p label || occurs_ci p X.
Proof.
  change (label ++ " " ++ X) with (label ++ String " " X).
  now apply occurs_ci_barrier.
Qed.

Lemma occurs_ci_two_lines (A B : string) :
  occurs_ci p (A ++ nl ++ B) = occurs_ci p A || occurs_ci p B.
Proof.
  change (A ++ nl ++ B) with (A ++ String newline B).
  now apply occurs_ci_barrier.
Qed.

(** The heading line, the explanation line and what follows. *)
Lemma occurs_ci_block (H E tail : string) :
  tail = "" \/ tail = nl ->
  occurs_ci p ("Heading: " ++ H ++ nl ++ "Explanation: " ++ E ++ tail)
  = occurs_ci p "Heading:" || occurs_ci p H
    || (occurs_ci p "Explanation:" || occurs_ci p E).
Proof.
  intros Ht.
  change ("Heading: " ++ H ++ nl ++ "Explanation: " ++ E ++ tail)
    with ("Heading:" ++ " " ++ (H ++ nl ++ ("Explanation:" ++ " " ++ (E ++ tail)))).
  rewrite occurs_ci_labelled, occurs_ci_two_lines, occurs_ci_labelled.
  rewrite (occurs_ci_tail E tail Ht). now rewrite !orb_assoc.
Qed.

End Lines.

(** *** The fields of a well-formed block *)

Section Block.

Variables H E tail : string.
Hypothesis H_wf : wf_heading H = true.
Hypothesis E_wf : wf_explanation E = true.
Hypothesis tail_ok : tail = "" \/ tail = nl.

Lemma H_facts :
  without newline H = true /\ occurs_ci "Heading:" H = false
  /\ occurs_ci "Explanation:" H = false /\ occurs_ci "Slide" H = false
  /\ strip_emphasis (trim H) <> "".
Proof.
  unfold wf_heading in H_wf.
  repeat (apply andb_prop in H_wf as [H_wf ?]).
  repeat match goal with
         | K : negb _ = true |- _ => apply negb_true_iff in K
         end.
  repeat split; try assumption. now apply truthy_true.
Qed.

Lemma E_facts :
  occurs_ci "Heading:" E = false /\ occurs_ci "Slide" E = false
  /\ strip_emphasis (trim E) <> "".
Proof.
  unfold wf_explanation in E_wf.
  repeat (apply andb_prop in E_wf as [E_wf ?]).
  repeat match goal with
         | K : negb _ = true |- _ => apply negb_true_iff in K
         end.
  repeat split; try assumption. now apply truthy_true.
Qed.

Lemma H_nonblank : trim_start H <> "".
Proof.
  destruct H_facts as (_ & _ & _ & _ & Hne).
  apply trim_nonblank. intros E0. apply Hne. now rewrite E0.
Qed.

Lemma E_trim_nonempty : trim E <> "".
Proof.
  destruct E_facts as (_ & _ & Hne). intros E0. apply Hne. now rewrite E0.
Qed.

Lemma tail_spaces : all Chars.is_space tail = true.
Proof. destruct tail_ok as [-> | ->]; reflexivity. Qed.

Lemma heading_1_nowhere :
  exec flags_is heading_pattern_1 (content H E tail) = None.
Proof.
  destruct H_facts as (Hline & Hh & He & _ & _).
  destruct E_facts as (Eh & _ & _).
  unfold content.
  change (nl ++ "Heading: " ++ H ++ nl ++ "Explanation: " ++ E ++ tail)
    with (String newline
            ("Heading: " ++ H ++ nl ++ ("Explanation: " ++ E ++ tail))).
  rewrite exec_next by (apply match_at_label_ci_miss; reflexivity).
  change ("Heading: " ++ H ++ nl ++ ("Explanation: " ++ E ++ tail))
    with (String "H" ("eading: " ++ H ++ nl ++ ("Explanation: " ++ E ++ tail))).
  rewrite exec_next.
  - unfold heading_pattern_1. cbn [seqs]. rewrite exec_label_absent;
      [reflexivity | reflexivity |].
    change ("eading: " ++ H ++ nl ++ ("Explanation: " ++ E ++ tail))
      with ("eading:" ++ " " ++ (H ++ nl ++ ("Explanation:" ++ " " ++ (E ++ tail)))).
    rewrite occurs_ci_labelled, occurs_ci_two_lines, occurs_ci_labelled,
      occurs_ci_tail by (discriminate || reflexivity || assumption).
    now rewrite Hh, Eh.
  - apply heading_1_at_label; try assumption; [apply H_nonblank | reflexivity].
Qed.

Lemma heading_2_found :
  exists m,
    exec flags_i heading_pattern_2 (content H E tail) = Some m
    /\ capture m = Some (trim_start H).
Proof.
  destruct H_facts as (Hline & _).
  destruct (heading_2_at_label H ("Explanation: " ++ E ++ tail) Hline H_nonblank)
    as (m & Hm & Hc).
  unfold content.
  change (nl ++ "Heading: " ++ H ++ nl ++ "Explanation: " ++ E ++ tail)
    with (String newline
            ("Heading: " ++ H ++ nl ++ ("Explanation: " ++ E ++ tail))).
  rewrite exec_next by (apply match_at_label_ci_miss; reflexivity).
  rewrite (exec_here _ _ _ _ Hm). cbn [option_map].
  eexists. split; [reflexivity | exact Hc].
Qed.

Lemma block_heading :
  extract_heading headingPatterns (content H E tail)
  = Ok (strip_emphasis (trim H)).
Proof.
  destruct heading_2_found as (m & Hm & Hc).
  unfold headingPatterns. cbn [extract_heading].
  rewrite heading_1_nowhere, Hm, Hc. now rewrite trim_of_trim_start.
Qed.

Lemma E_tail_nonblank : trim_start (E ++ tail) <> "".
Proof.
  rewrite trim_start_app by (apply trim_nonblank, E_trim_nonempty).
  intros E0. apply append_eq_nil in E0 as [E0 _].
  now apply (trim_nonblank E E_trim_nonempty).
Qed.

Lemma explanation_1_found :
  exists m,
    exec flags_i explanation_pattern_1 (content H E tail) = Some m
    /\ capture m = Some (trim_start (E ++ tail)).
Proof.
  destruct H_facts as (_ & _ & He & _ & _).
  destruct E_facts as (_ & Es & _).
  destruct (explanation_1_at_label (E ++ tail) E_tail_nonblank) as (m & Hm & Hc).
  { rewrite occurs_ci_tail by (discriminate || reflexivity || assumption).
    exact Es. }
  unfold content.
  change (nl ++ "Heading: " ++ H ++ nl ++ "Explanation: " ++ E ++ tail)
    with ((nl ++ "Heading: " ++ H)
            ++ String newline ("Explanation: " ++ (E ++ tail))).
  unfold explanation_pattern_1 in *.
  change (seqs [lit "Explanation:"; Star true CSpace; Group (Plus false CAny);
                Ahead (Alt (seqs [lit nl; Star true CSpace; lit "Slide";
                                  Plus true CSpace; Plus true CDigit]) Eoi)])
    with (Seq (lit "Explanation:")
            (seqs [Star true CSpace; Group (Plus false CAny);
                   Ahead (Alt (seqs [lit nl; Star true CSpace; lit "Slide";
                                     Plus true CSpace; Plus true CDigit])
                            Eoi)])) in *.
  rewrite exec_past; try reflexivity; try discriminate.
  - rewrite (exec_here _ _ _ _ Hm). cbn [option_map].
    eexists. split; [reflexivity | exact Hc].
  - change (nl ++ "Heading: " ++ H)
      with ("" ++ nl ++ ("Heading:" ++ " " ++ H)).
    rewrite occurs_ci_two_lines, occurs_ci_labelled
      by (discriminate || reflexivity).
    now rewrite He.
Qed.

Lemma block_explanation :
  extract_explanation explanationPatterns (content H E tail) ""
  = Ok (strip_emphasis (trim E)).
Proof.
  destruct explanation_1_found as (m & Hm & Hc).
  destruct E_facts as (_ & Es & Hne).
  unfold explanationPatterns. cbn [extract_explanation].
  rewrite Hm, Hc, trim_of_trim_start.
  rewrite (trim_app_spaces E tail E_trim_nonempty tail_spaces).
  rewrite trailing_slide_absent by now apply occurs_ci_trim.
  rewrite trim_idem.
  apply truthy_true in Hne. now rewrite Hne.
Qed.

Lemma block_no_slide : occurs_ci "Slide" (content H E "") = false.
Proof.
  destruct H_facts as (_ & _ & _ & Hs & _).
  destruct E_facts as (_ & Es & _).
  unfold content.
  change (nl ++ "Heading: " ++ H ++ nl ++ "Explanation: " ++ E ++ "")
    with ("" ++ nl ++ ("Heading: " ++ H ++ nl ++ "Explanation: " ++ E ++ "")).
  rewrite occurs_ci_two_lines, occurs_ci_block
    by (discriminate || reflexivity || auto).
  now rewrite Hs, Es.
Qed.

End Block.

(** *** Slide markers of a well-formed text *)

Lemma digit_not_space (a : ascii) :
  Chars.is_digit a = true -> Chars.is_space a = false.
Proof.
  destruct a as [b0 b1 b2 b3 b4 b5 b6 b7];
    destruct b0, b1, b2, b3, b4, b5, b6, b7; (discriminate || reflexivity).
Qed.

Lemma marker_at (d rest : string) :
  d <> "" -> all Chars.is_digit d = true ->
  stops Chars.is_digit rest = true ->
  match_at flags_i slide_marker (("Slide " ++ d) ++ rest)
  = Some {| before := ""; matched := "Slide " ++ d; after := rest;
            capture := Some d |}.
Proof.
  intros Hne Hd Hrest. unfold match_at, slide_marker.
  change (seqs [lit "Slide"; Plus true CSpace; Group (Plus true CDigit)])
    with (Seq (lit "Slide") (Seq (Plus true CSpace) (Group (Plus true CDigit)))).
  assert (Eq : rmatch flags_i
                 (Seq (lit "Slide")
                    (Seq (Plus true CSpace) (Group (Plus true CDigit))))
                 (("Slide " ++ d) ++ rest) None accept
               = Some (rest, Some d)).
  { change (("Slide " ++ d) ++ rest) with ("Slide" ++ (" " ++ d ++ rest)).
    rewrite rmatch_seq_lit, lit_starts_ci, starts_ci_app, drop_app
      by reflexivity.
    destruct d as [|x d']; [contradiction |].
    cbn [all] in Hd. apply andb_prop in Hd as [Hx Hd].
    cbn [rmatch append]. change (cset_match flags_i CSpace " ") with true.
    cbn iota. unfold star.
    change (String x (d' ++ rest)) with ("" ++ String x (d' ++ rest)).
    apply star_greedy_stop.
    - reflexivity.
    - cbn [stops]. change (cset_match flags_i CSpace x) with (Chars.is_space x).
      now rewrite digit_not_space.
    - change (cset_match flags_i CDigit x) with (Chars.is_digit x).
      rewrite Hx. apply star_greedy_stop; [exact Hd | exact Hrest |].
      unfold accept. now rewrite consumed_cons. }
  rewrite Eq. now rewrite consumed_app.
Qed.

Lemma split_go_past f p r sep u v cur :
  ignoreCase f = true -> barrier p sep = true -> p <> "" ->
  occurs_ci p u = false ->
  split_go f (Seq (lit p) r) (u ++ String sep v) 0 cur
  = split_go f (Seq (lit p) r) v 0 (cur ++ u ++ String sep "").
Proof.
  intros Hf Hb Hne. revert cur. induction u as [|a u IH]; intros cur Hu.
  - cbn [append split_go]. rewrite match_at_label_ci_miss; [reflexivity | exact Hf |].
    change (String sep v) with ("" ++ String sep v).
    rewrite starts_ci_barrier by assumption. now destruct p.
  - cbn [append split_go]. rewrite match_at_label_ci_miss.
    + rewrite IH by now apply occurs_ci_false_tail in Hu.
      now rewrite append_assoc.
    + exact Hf.
    + change (String a (u ++ String sep v)) with (String a u ++ String sep v).
      rewrite starts_ci_barrier by assumption.
      now apply occurs_ci_false_starts.
Qed.

Lemma split_go_absent f p r u cur :
  ignoreCase f = true -> occurs_ci p u = false ->
  split_go f (Seq (lit p) r) u 0 cur = [Some (cur ++ u)].
Proof.
  intros Hf. revert cur. induction u as [|a u IH]; intros cur Hu.
  - cbn. now rewrite append_nil_r.
  - cbn [split_go]. rewrite match_at_label_ci_miss.
    + rewrite IH by now apply occurs_ci_false_tail in Hu.
      now rewrite append_assoc.
    + exact Hf.
    + now apply occurs_ci_false_starts.
Qed.

(** *** Slide numbers *)

Lemma take_while_all (p : ascii -> bool) (s : string) :
  all p s = true -> take_while p s = s.
Proof.
  induction s as [|a s IH]; cbn; [reflexivity |].
  intros H. apply andb_prop in H as [Ha H]. now rewrite Ha, IH.
Qed.

Lemma digit_no_sign (a : ascii) (t : string) :
  Chars.is_digit a = true ->
  match String a t with
  | String "-" u => (true, u)
  | String "+" u => (false, u)
  | _ => (false, String a t)
  end = (false, String a t).
Proof.
  destruct a as [b0 b1 b2 b3 b4 b5 b6 b7];
    destruct b0, b1, b2, b3, b4, b5, b6, b7; (discriminate || reflexivity).
Qed.

Lemma decimal_acc_nonneg (ds : string) :
  forall acc, (0 <= acc)%Z -> all Chars.is_digit ds = true ->
              (0 <= decimal_acc acc ds)%Z.
Proof.
  induction ds as [|a ds IH]; intros acc Hacc Hd; [exact Hacc |].
  cbn [all] in Hd. apply andb_prop in Hd as [Ha Hd]. cbn [decimal_acc].
  apply IH; [| exact Hd].
  unfold digit_value, Chars.is_digit in *.
  apply andb_prop in Ha as [Hlo _]. apply N.leb_le in Hlo. lia.
Qed.

Lemma number_of_digits (d : string) :
  wf_number d = true -> number_of (Some d) = Num (decimal d).
Proof.
  unfold wf_number. intros H.
  apply andb_prop in H as [H Hmax]. apply andb_prop in H as [Hne Hd].
  apply negb_true_iff, is_empty_false in Hne.
  unfold number_of, parseInt10.
  destruct d as [|a d']; [contradiction |].
  pose proof Hd as Hd0. cbn [all] in Hd0. apply andb_prop in Hd0 as [Ha _].
  rewrite trim_start_stops
    by (cbn [stops]; now rewrite (digit_not_space _ Ha)).
  rewrite (digit_no_sign a d' Ha).
  rewrite take_while_all by exact Hd.
  cbn [is_empty]. unfold number_of_Z.
  rewrite Z.abs_eq by (apply decimal_acc_nonneg; [lia | exact Hd]).
  now rewrite Hmax.
Qed.

(** *** The pieces of a text of two blocks *)

Lemma two_blocks_split_go (d1 H1 E1 d2 H2 E2 cur : string) :
  wf_number d1 = true -> wf_number d2 = true ->
  wf_heading H1 = true -> wf_explanation E1 = true ->
  wf_heading H2 = true -> wf_explanation E2 = true ->
  split_go flags_i slide_marker (two_blocks d1 H1 E1 d2 H2 E2) 0 cur
  = [Some cur; Some d1; Some (content H1 E1 nl);
     Some d2; Some (content H2 E2 "")].
Proof.
  intros Hd1 Hd2 HH1 HE1 HH2 HE2.
  unfold wf_number in Hd1, Hd2.
  apply andb_prop in Hd1 as [Hd1 _]. apply andb_prop in Hd1 as [Hn1 Hd1].
  apply andb_prop in Hd2 as [Hd2 _]. apply andb_prop in Hd2 as [Hn2 Hd2].
  apply negb_true_iff, is_empty_false in Hn1, Hn2.
  pose proof (block_no_slide H1 E1 HH1 HE1) as Hs1.
  pose proof (block_no_slide H2 E2 HH2 HE2) as Hs2.
  assert (Et : two_blocks d1 H1 E1 d2 H2 E2
               = ("Slide " ++ d1)
                   ++ (content H1 E1 ""
                         ++ String newline
                              (("Slide " ++ d2) ++ content H2 E2 ""))).
  { unfold two_blocks, slide_block, content, nl.
    rewrite !append_nil_r.
    repeat (progress (rewrite ?append_assoc; cbn [append])).
    reflexivity. }
  rewrite Et.
  rewrite (split_go_hit _ _ ("Slide " ++ d1) _ cur (Some d1));
    [| discriminate
     | apply marker_at; [exact Hn1 | exact Hd1 | unfold content; reflexivity]].
  unfold slide_marker at 1. cbn [seqs].
  rewrite split_go_past; [| reflexivity | reflexivity | discriminate | exact Hs1].
  change (Seq (lit "Slide") (Seq (Plus true CSpace) (Group (Plus true CDigit))))
    with slide_marker.
  rewrite (split_go_hit _ _ ("Slide " ++ d2) _ _ (Some d2));
    [| discriminate
     | apply marker_at; [exact Hn2 | exact Hd2 | unfold content; reflexivity]].
  unfold slide_marker. cbn [seqs].
  rewrite split_go_absent; [| reflexivity | exact Hs2].
  cbn [append]. repeat f_equal.
  unfold content. now rewrite !append_nil_r, !append_assoc.
Qed.

Lemma ends_line_inv (s : string) :
  ends_line s = true -> s = "" \/ exists s', s = s' ++ nl.
Proof.
  induction s as [|a s IH]; [auto |]. intros H. right.
  destruct s as [|b s].
  - cbn in H. apply Ascii.eqb_eq in H. subst a. now exists "".
  - destruct (IH H) as [E | [s' E]]; [discriminate |].
    exists (String a s'). cbn [append]. now rewrite <- E.
Qed.

Lemma split_nonempty f r (a : ascii) (s : string) :
  split f r (String a s) = split_go f r (String a s) 0 "".
Proof. reflexivity. Qed.

(** The pieces of a text of two blocks after a preamble: the preamble, and
    for each block its number and its content. *)
Lemma two_blocks_split (pre d1 H1 E1 d2 H2 E2 : string) :
  wf_preamble pre = true ->
  wf_number d1 = true -> wf_number d2 = true ->
  wf_heading H1 = true -> wf_explanation E1 = true ->
  wf_heading H2 = true -> wf_explanation E2 = true ->
  split flags_i slide_marker (pre ++ two_blocks d1 H1 E1 d2 H2 E2)
  = [Some pre; Some d1; Some (content H1 E1 nl);
     Some d2; Some (content H2 E2 "")].
Proof.
  intros Hpre Hd1 Hd2 HH1 HE1 HH2 HE2.
  unfold wf_preamble in Hpre. apply andb_prop in Hpre as [Hps Hpl].
  apply negb_true_iff in Hps.
  destruct (ends_line_inv pre Hpl) as [-> | [pre' ->]].
  - cbn [append].
    change (two_blocks d1 H1 E1 d2 H2 E2)
      with (String "S" ("lide " ++ d1 ++ nl ++ "Heading: " ++ H1 ++ nl
                        ++ "Explanation: " ++ E1)
            ++ nl ++ slide_block d2 H2 E2).
    cbn [append]. rewrite split_nonempty.
    now apply (two_blocks_split_go d1 H1 E1 d2 H2 E2 "").
  - assert (Hp' : occurs_ci "Slide" pre' = false)
      by now apply occurs_ci_prefix in Hps.
    rewrite append_assoc. unfold nl at 1. cbn [append].
    destruct (pre' ++ String newline (two_blocks d1 H1 E1 d2 H2 E2))
      as [|c0 t0] eqn:E0; [now destruct pre' |].
    rewrite split_nonempty, <- E0. clear E0.
    unfold slide_marker at 1. cbn [seqs].
    rewrite split_go_past; [| reflexivity | reflexivity | discriminate | exact Hp'].
    change (Seq (lit "Slide") (Seq (Plus true CSpace) (Group (Plus true CDigit))))
      with slide_marker.
    cbn [append].
    now apply two_blocks_split_go.
Qed.

Lemma parse_block_wf (d H E tail : string) (acc : list SlideContent) :
  wf_number d = true -> wf_heading H = true -> wf_explanation E = true ->
  tail = "" \/ tail = nl ->
  parse_block (Some d) (content H E tail) acc
  = Ok (acc ++ [record d H E])%list.
Proof.
  intros Hd HH HE Ht. unfold parse_block.
  rewrite (block_heading H E tail HH HE Ht).
  rewrite (block_explanation H E tail HH HE Ht). cbn [bind].
  destruct (H_facts H HH) as (_ & _ & _ & _ & Hh).
  destruct (E_facts E HE) as (_ & _ & He).
  apply truthy_true in Hh, He. rewrite Hh, He. cbn [andb].
  fold (number_of (Some d)). now rewrite number_of_digits.
Qed.

End LayoutFacts.

(** C4: a text of two well-formed blocks, each a slide marker, a heading
    line and an explanation, after any lines before the first marker, gives
    exactly two records, in the order of the text; each record has the
    number written in its marker, whatever the other number is, and the
    heading and the explanation as written, without surrounding white space
    and without emphasis markers. *)
Theorem C4_two_well_formed_blocks (pre d1 H1 E1 d2 H2 E2 : string) :
  Layout.wf_preamble pre = true ->
  Layout.wf_number d1 = true -> Layout.wf_number d2 = true ->
  Layout.wf_heading H1 = true -> Layout.wf_explanation E1 = true ->
  Layout.wf_heading H2 = true -> Layout.wf_explanation E2 = true ->
  Parser.parseSlideContent (pre ++ Layout.two_blocks d1 H1 E1 d2 H2 E2)
  = Js.Ok
      [ {| Parser.slideNumber := Js.Num (Js.decimal d1);
           Parser.heading := Parser.strip_emphasis (Str.trim H1);
           Parser.explanation := Parser.strip_emphasis (Str.trim E1) |};
        {| Parser.slideNumber := Js.Num (Js.decimal d2);
           Parser.heading := Parser.strip_emphasis (Str.trim H2);
           Parser.explanation := Parser.strip_emphasis (Str.trim E2) |} ].
Proof.
  intros Hpre Hd1 Hd2 HH1 HE1 HH2 HE2. unfold Parser.parseSlideContent.
  rewrite (LayoutFacts.two_blocks_split pre d1 H1 E1 d2 H2 E2) by assumption.
  cbn [tl Parser.parse_blocks].
  rewrite (LayoutFacts.parse_block_wf d1 H1 E1 Parser.nl []) by auto.
  cbn [Js.bind app].
  rewrite (LayoutFacts.parse_block_wf d2 H2 E2 "" _) by auto.
  reflexivity.
Qed.

Lemma C4_two_well_formed_blocks_witness :
  Parser.parseSlideContent
    (("Here are the notes." ++ Parser.nl)
     ++ Layout.two_blocks "7" "**Cats** rule" "They are __independent__."
          "2" "Dogs" "Loyal and *kind*.")
  = Js.Ok
      [ {| Parser.slideNumber := Js.Num (Js.decimal "7");
           Parser.heading := Parser.strip_emphasis (Str.trim "**Cats** rule");
           Parser.explanation :=
             Parser.strip_emphasis (Str.trim "They are __independent__.") |};
        {| Parser.slideNumber := Js.Num (Js.decimal "2");
           Parser.heading := Parser.strip_emphasis (Str.trim "Dogs");
           Parser.explanation :=
             Parser.strip_emphasis (Str.trim "Loyal and *kind*.") |} ].
Proof.
  apply (C4_two_well_formed_blocks ("Here are the notes." ++ Parser.nl)
           "7" "**Cats** rule" "They are __independent__."
           "2" "Dogs" "Loyal and *kind*.");
    reflexivity.
Defined.

(** The scenario of the specification, and a text whose two markers carry
    the same number. *)
Example parse_cats_and_dogs :
  Parser.parseSlideContent
    (Layout.two_blocks "1" "Cats" "Independent." "2" "Dogs" "Loyal.")
  = Js.Ok
      [ {| Parser.slideNumber := Js.Num 1; Parser.heading := "Cats";
           Parser.explanation := "Independent." |};
        {| Parser.slideNumber := Js.Num 2; Parser.heading := "Dogs";
           Parser.explanation := "Loyal." |} ].
Proof. vm_compute. reflexivity. Qed.

Example parse_same_number_twice :
  Parser.parseSlideContent
    (Layout.two_blocks "3" "**Cats**" "Independent." "3" "Dogs" "__Loyal__.")
  = Js.Ok
      [ {| Parser.slideNumber := Js.Num 3; Parser.heading := "Cats";
           Parser.explanation := "Independent." |};
        {| Parser.slideNumber := Js.Num 3; Parser.heading := "Dogs";
           Parser.explanation := "Loyal." |} ].
Proof. vm_compute. reflexivity. Qed.

(** ** Remarks on the edges of the statements above *)

(** A dollar sign in a value is read by [String.prototype.replace] as the
    start of a replacement pattern: [$&] brings the placeholder back and
    [$$] is one dollar. *)
Remark dollar_in_value_is_a_pattern :
  Templater.substitute_slide "{heading}" "$& costs $$5" "x"
  = "{heading} costs $5".
Proof. reflexivity. Qed.

(** Taking the pairs of underscores out can bring two single asterisks
    together. *)
Remark underscores_between_asterisks :
  Parser.strip_emphasis "*__*" = "**".
Proof. reflexivity. Qed.

(** A block without a heading line is dropped, the block after it is
    kept. *)
Example parse_block_without_heading :
  Parser.parseSlideContent
    ("Slide 1" ++ Parser.nl ++ "Explanation: Independent." ++ Parser.nl
     ++ "Slide 2" ++ Parser.nl ++ "Heading: Dogs" ++ Parser.nl
     ++ "Explanation: Loyal.")
  = Js.Ok
      [ {| Parser.slideNumber := Js.Num 2; Parser.heading := "Dogs";
           Parser.explanation := "Loyal." |} ].
Proof. vm_compute. reflexivity. Qed.

(** Three slides of which the first gets an answer without candidates: three
    results, one failed, two completed with different files. *)
Example remaining_images_three_slides :
  List.map
    (fun r => (Server.r_status r, Server.r_imageUrl r))
    (match fst (Server.generate_remaining_images Demo.env
                  (Demo.remaining_request "An image of {heading}"
                     (Demo.two_slides ++ [Demo.slide 4 "Fish" "Quiet."]))
                  Server.initial) with
     | Js.Ok {| Server.body := Server.RemainingBody results |} => results
     | _ => []
     end)
  = [ (Server.failed, None);
      (Server.completed,
       Some "/uploads/carousel/test-slide-3-1700000000000.png");
      (Server.completed,
       Some "/uploads/carousel/test-slide-4-1700000000001.png") ].
Proof. vm_compute. reflexivity. Qed.

(* ================================================================== *)
(** * Further properties *)

(** ** The pieces that the parser splits a text into *)

Module SplitFacts.

Import Str StrFacts Re ReSem ReFacts Js Parser ParserFacts Layout LayoutFacts
  More.

Lemma lit_starts_length f p t :
  lit_starts f p t = true -> String.length p <= String.length t.
Proof.
  revert t; induction p as [|a p IH]; intros t H; cbn; [lia |].
  destruct t as [|b t]; [discriminate |]. cbn in H.
  apply andb_prop in H as [_ H]. apply IH in H. cbn. lia.
Qed.

Lemma drop_length (n : nat) (t : string) :
  String.length (drop n t) = String.length t - n.
Proof.
  revert t; induction n as [|n IH]; intros t; cbn; [lia |].
  destruct t as [|b t]; cbn; [reflexivity | apply IH].
Qed.

Lemma take_length (n : nat) (t : string) :
  n <= String.length t -> String.length (take n t) = n.
Proof.
  revert t; induction n as [|n IH]; intros t H; cbn; [reflexivity |].
  destruct t as [|b t]; cbn in *; [lia |]. rewrite IH; lia.
Qed.

(** A pattern that begins with a non-empty literal matches no empty text. *)
Lemma label_match_nonempty f p r t m :
  p <> "" -> match_at f (Seq (lit p) r) t = Some m -> matched m <> "".
Proof.
  intros Hp. unfold match_at. rewrite rmatch_seq_lit.
  destruct (lit_starts f p t) eqn:El; [| discriminate].
  destruct (rmatch f r (drop (String.length p) t) None accept)
    as [[s' c]|] eqn:E; [| discriminate].
  intros H. injection H as <-. cbn [matched].
  destruct (rmatch_sound _ _ _ _ _ _ E) as (s1 & c1 & M1 & Hk).
  injection Hk as -> ->.
  destruct (Matches_suffix _ _ _ _ _ _ M1) as [w Hw].
  apply lit_starts_length in El.
  assert (Hlen : String.length s' <= String.length t - String.length p).
  { rewrite <- drop_length, Hw, length_append. lia. }
  assert (Hpl : 0 < String.length p) by (destruct p; [contradiction | cbn; lia]).
  intros E0. unfold consumed in E0.
  assert (Ht : String.length (take (String.length t - String.length s') t)
               = String.length t - String.length s')
    by (apply take_length; lia).
  rewrite E0 in Ht. cbn in Ht. lia.
Qed.

Lemma marker_match_nonempty t m :
  match_at flags_i slide_marker t = Some m -> matched m <> "".
Proof.
  unfold slide_marker. cbn [seqs]. apply label_match_nonempty. discriminate.
Qed.

(** What has been collected before a position does not show after the
    first piece. *)
Lemma split_go_tl_cur f r :
  (forall t m, match_at f r t = Some m -> matched m <> "") ->
  forall s skip cur,
    tl (split_go f r s skip cur) = tl (split_go f r s skip "").
Proof.
  intros Hne. induction s as [|a s IH]; intros skip cur; [reflexivity |].
  cbn [split_go]. destruct skip as [|n]; [| apply IH].
  destruct (match_at f r (String a s)) as [m|] eqn:E.
  - destruct (String.length (matched m)) eqn:El; [| reflexivity].
    exfalso. apply (Hne _ _ E). now destruct (matched m).
  - rewrite IH. symmetry. apply IH.
Qed.

(** The pieces begin with a piece of text; after it, captures and pieces
    alternate, and each capture is that of a match at some place of the
    text. *)
Lemma split_go_shape f r :
  forall s skip cur,
  exists p tail,
    split_go f r s skip cur = Some p :: tail
    /\ List.length tail = 2 * List.length (blocks tail)
    /\ Forall (fun b => exists u t m,
                 s = u ++ t /\ match_at f r t = Some m
                 /\ capture m = fst b) (blocks tail).
Proof.
  induction s as [|a s IH]; intros skip cur.
  - exists cur, []. cbn. repeat split. constructor.
  - assert (Hshift : forall k cur0,
               exists p tail,
                 split_go f r s k cur0 = Some p :: tail
                 /\ List.length tail = 2 * List.length (blocks tail)
                 /\ Forall (fun b => exists u t m,
                              String a s = u ++ t /\ match_at f r t = Some m
                              /\ capture m = fst b) (blocks tail)).
    { intros k cur0. destruct (IH k cur0) as (p & tail & E & Hl & Hf).
      exists p, tail. repeat split; try assumption.
      eapply Forall_impl; [| exact Hf].
      intros b (u & t & m & -> & Hm & Hc). now exists (String a u), t, m. }
    cbn [split_go]. destruct skip as [|n]; [| apply Hshift].
    destruct (match_at f r (String a s)) as [m|] eqn:E; [| apply Hshift].
    assert (Hhit : forall k cur0,
               exists p tail,
                 Some cur :: capture m :: split_go f r s k cur0
                 = Some p :: tail
                 /\ List.length tail = 2 * List.length (blocks tail)
                 /\ Forall (fun b => exists u t m0,
                              String a s = u ++ t /\ match_at f r t = Some m0
                              /\ capture m0 = fst b) (blocks tail)).
    { intros k cur0. destruct (Hshift k cur0) as (p & tail & E1 & Hl & Hf).
      exists cur, (capture m :: Some p :: tail). rewrite E1.
      split; [reflexivity |]. cbn [blocks List.length]. split; [lia |].
      constructor; [| exact Hf]. now exists "", (String a s), m. }
    destruct (String.length (matched m)); [| apply Hhit].
    destruct (is_empty cur); [apply Hshift | apply Hhit].
Qed.

Lemma split_shape f r (text : string) :
  match_at f r "" = None ->
  exists p tail,
    split f r text = Some p :: tail
    /\ List.length tail = 2 * List.length (blocks tail)
    /\ Forall (fun b => exists u t m,
                 text = u ++ t /\ match_at f r t = Some m
                 /\ capture m = fst b) (blocks tail).
Proof.
  intros Hnil. destruct text as [|a text].
  - unfold split. rewrite Hnil. exists "", []. cbn. repeat split. constructor.
  - apply split_go_shape.
Qed.



Lemma blocks_length_flat (bs : list (option string * string)) :
  List.length (flat_map block_records bs) <= List.length bs.
Proof.
  induction bs as [|[num content] bs IH]; cbn [flat_map List.length]; [lia |].
  rewrite length_app.
  destruct (parse_block_shape num content []) as (rs & _ & -> & Hor).
  destruct Hor as [-> | (r & -> & _)]; cbn; lia.
Qed.

End SplitFacts.

(** X1: lines before the first slide marker, as long as they do not hold
    the word slide, change nothing in what the parser returns. *)
Theorem X1_preamble_ignored (pre text : string) :
  Layout.wf_preamble pre = true ->
  Parser.parseSlideContent (pre ++ text) = Parser.parseSlideContent text.
Proof.
  intros Hpre. unfold Parser.parseSlideContent. f_equal.
  unfold Layout.wf_preamble in Hpre. apply andb_prop in Hpre as [Hps Hpl].
  apply negb_true_iff in Hps.
  destruct (LayoutFacts.ends_line_inv pre Hpl) as [-> | [pre' ->]];
    [reflexivity |].
  assert (Hp' : Str.occurs_ci "Slide" pre' = false)
    by now apply LayoutFacts.occurs_ci_prefix in Hps.
  rewrite StrFacts.append_assoc. unfold Parser.nl at 1. cbn [append].
  destruct (pre' ++ String Re.newline text) as [|c0 t0] eqn:E0;
    [now destruct pre' |].
  rewrite LayoutFacts.split_nonempty, <- E0. clear E0.
  unfold Parser.slide_marker at 1. cbn [Parser.seqs].
  rewrite LayoutFacts.split_go_past;
    [| reflexivity | reflexivity | discriminate | exact Hp'].
  change (Re.Seq (Re.lit "Slide")
            (Re.Seq (Re.Plus true Re.CSpace) (Re.Group (Re.Plus true Re.CDigit))))
    with Parser.slide_marker.
  rewrite (SplitFacts.split_go_tl_cur _ _ SplitFacts.marker_match_nonempty).
  now destruct text.
Qed.

Lemma X1_preamble_ignored_witness :
  Parser.parseSlideContent
    (("Sure, here are the notes:" ++ Parser.nl)
     ++ "Slide 4 Heading: Cats Explanation: Independent.")
  = Parser.parseSlideContent "Slide 4 Heading: Cats Explanation: Independent.".
Proof.
  apply (X1_preamble_ignored ("Sure, here are the notes:" ++ Parser.nl)).
  reflexivity.
Defined.


(** X3: the parser returns at most one record for each slide marker that
    the split finds: twice the number of records is less than the number of
    pieces. *)
Theorem X3_at_most_one_record_per_marker (text : string) :
  exists slides,
    Parser.parseSlideContent text = Js.Ok slides
    /\ 2 * List.length slides + 1
       <= List.length (Js.split Parser.flags_i Parser.slide_marker text).
Proof.
  eexists. split; [apply ParserFacts.parseSlideContent_flat |].
  destruct (SplitFacts.split_shape Parser.flags_i Parser.slide_marker text
              eq_refl) as (p & tail & Es & Hl & _).
  rewrite Es. cbn [tl List.length].
  pose proof (SplitFacts.blocks_length_flat (Parser.blocks tail)). lia.
Qed.

(** ** Prompts *)

Module PromptFacts.

Import Str StrFacts Re ReFacts Js Pred ReplaceFacts Templater TemplaterFacts
  More.

Lemma trim_end_blank (s : string) :
  is_empty (trim_end s) = all Chars.is_space s.
Proof.
  induction s as [|a s IH]; [reflexivity |]. cbn [trim_end all].
  rewrite <- IH.
  destruct (Chars.is_space a); [| reflexivity].
  now destruct (is_empty (trim_end s)).
Qed.

Lemma all_trim_start (s : string) :
  all Chars.is_space (trim_start s) = all Chars.is_space s.
Proof.
  induction s as [|a s IH]; [reflexivity |]. cbn [trim_start].
  destruct (Chars.is_space a) eqn:E; cbn [all]; now rewrite E.
Qed.

Lemma guarded_mentions (p : string) :
  includes (toLowerCase (image_prefix ++ p)) "generate" = true.
Proof. reflexivity. Qed.

(** A replacement text that is free of its context is expanded the same
    way at every match. *)
Lemma get_substitution_expand (v tok pre post : string) :
  context_free v = true -> get_substitution v tok pre post = expand v tok.
Proof.
  unfold expand.
  remember (String.length v) as n eqn:Hn. revert v Hn.
  induction n as [n IH] using lt_wf_ind. intros v Hn H.
  destruct v as [|a t]; [reflexivity |].
  cbn [get_substitution context_free] in *.
  destruct (Ascii.eqb a "$").
  - destruct t as [|b t']; [reflexivity |].
    destruct (Ascii.eqb b "$");
      [f_equal; apply (IH (String.length t')); [subst n; cbn; lia | reflexivity | exact H] |].
    destruct (Ascii.eqb b "&");
      [f_equal; apply (IH (String.length t')); [subst n; cbn; lia | reflexivity | exact H] |].
    destruct (Ascii.eqb b "`"); [discriminate |].
    destruct (Ascii.eqb b "'"); [discriminate |].
    f_equal.
    apply (IH (String.length (String b t'))); [subst n; cbn; lia | reflexivity | exact H].
  - f_equal. apply (IH (String.length t)); [subst n; cbn; lia | reflexivity | exact H].
Qed.

Lemma replace_all_expand (f : flags) (tok repl : string) :
  ignoreCase f = false -> tok <> "" -> context_free repl = true ->
  forall s,
    Spec.Replaced tok (expand repl tok) s (replace_all f (lit tok) repl s).
Proof.
  intros Hf Htok Hrepl s. unfold replace_all. generalize "" as pre.
  remember (String.length s) as n eqn:Hn. revert s Hn.
  induction n as [n IH] using lt_wf_ind. intros s Hn pre.
  destruct s as [|a s].
  - rewrite (replace_go_end f Hf tok Htok). constructor.
  - destruct (starts tok (String a s)) eqn:E.
    + destruct (starts_inv _ _ E) as [rest Hrest]. rewrite Hrest.
      rewrite (replace_go_hit f Hf tok Htok), get_substitution_expand
        by exact Hrepl.
      constructor. apply (IH (String.length rest)); [| reflexivity].
      subst n. rewrite Hrest, length_append.
      destruct tok; [contradiction | simpl; lia].
    + rewrite (replace_go_miss f Hf tok) by exact E.
      constructor; [exact E |].
      apply (IH (String.length s)); [subst n; simpl; lia | reflexivity].
Qed.

Lemma replace_placeholder_expand (name v s : string) :
  context_free v = true ->
  Spec.Replaced ("{" ++ name ++ "}") (expand v ("{" ++ name ++ "}")) s
    (replace_all flags_g (placeholder name) v s).
Proof.
  intros H. apply replace_all_expand; [reflexivity | discriminate | exact H].
Qed.

End PromptFacts.

(** X4: the guard of the image stages changes a prompt at most once: a
    guarded prompt mentions generate, and guarding it again returns it as
    it is. *)
Theorem X4_image_guard_idempotent (p : string) :
  Templater.image_guard (Templater.image_guard p) = Templater.image_guard p
  /\ (Str.includes (Str.toLowerCase (Templater.image_guard p)) "generate"
      || Str.includes (Str.toLowerCase (Templater.image_guard p)) "create"
      || Str.includes (Str.toLowerCase (Templater.image_guard p)) "image")
     = true.
Proof.
  assert (H : (Str.includes (Str.toLowerCase (Templater.image_guard p)) "generate"
      || Str.includes (Str.toLowerCase (Templater.image_guard p)) "create"
      || Str.includes (Str.toLowerCase (Templater.image_guard p)) "image")
     = true).
  { unfold Templater.image_guard at 1 2 3.
    destruct (Str.includes (Str.toLowerCase p) "generate") eqn:Eg;
      [cbn [negb andb]; now rewrite Eg |].
    destruct (Str.includes (Str.toLowerCase p) "create") eqn:Ec;
      [cbn [negb andb]; now rewrite Eg, Ec |].
    destruct (Str.includes (Str.toLowerCase p) "image") eqn:Ei;
      [cbn [negb andb]; now rewrite Eg, Ec, Ei |].
    cbn [negb andb]. now rewrite PromptFacts.guarded_mentions. }
  split; [| exact H].
  unfold Templater.image_guard at 1.
  destruct (Str.includes (Str.toLowerCase (Templater.image_guard p)) "generate");
    [reflexivity |].
  destruct (Str.includes (Str.toLowerCase (Templater.image_guard p)) "create");
    [reflexivity |].
  destruct (Str.includes (Str.toLowerCase (Templater.image_guard p)) "image");
    [reflexivity | discriminate].
Qed.

(** X5: the three stages take a prompt for missing exactly when it consists
    of white space only, the empty prompt included. *)
Theorem X5_blank_is_white_space (p : string) :
  Templater.blank p = Str.all Chars.is_space p.
Proof.
  unfold Templater.blank, Str.trim.
  rewrite PromptFacts.trim_end_blank, PromptFacts.all_trim_start.
  now destruct p.
Qed.

(** X6: a value with dollar patterns is not inserted as it is: as long as
    it names neither the text before the match nor the text after it, every
    occurrence of the heading token is replaced by the value expanded
    ([$$] is one dollar, [$&] the token itself), then every occurrence of
    the explanation token in the result by the expanded explanation; the
    transcript token of the first stage is replaced the same way. *)
Theorem X6_dollar_patterns_expanded (T h e t : string) :
  More.context_free h = true -> More.context_free e = true ->
  More.context_free t = true ->
  (exists mid,
      Spec.Replaced "{heading}" (More.expand h "{heading}") T mid
      /\ Spec.Replaced "{explanation}" (More.expand e "{explanation}") mid
           (Templater.substitute_slide T h e))
  /\ Spec.Replaced "{transcript}" (More.expand t "{transcript}") T
       (Templater.substitute_transcript T t).
Proof.
  intros Hh He Ht. split.
  - exists (Js.replace_all Templater.flags_g (Templater.placeholder "heading") h T).
    split.
    + now apply (PromptFacts.replace_placeholder_expand "heading").
    + now apply (PromptFacts.replace_placeholder_expand "explanation").
  - now apply (PromptFacts.replace_placeholder_expand "transcript").
Qed.

Lemma X6_dollar_patterns_expanded_witness :
  (exists mid,
      Spec.Replaced "{heading}" "Only $5" "Title: {heading}" mid
      /\ Spec.Replaced "{explanation}" "see {explanation}" mid
           (Templater.substitute_slide "Title: {heading}" "Only $$5" "see $&"))
  /\ Spec.Replaced "{transcript}" "a $ b" "Title: {heading}"
       (Templater.substitute_transcript "Title: {heading}" "a $ b").
Proof.
  apply (X6_dollar_patterns_expanded "Title: {heading}" "Only $$5" "see $&"
           "a $ b"); reflexivity.
Defined.

(** ** The three stages, request by request *)

Module StageFacts.

Import Str Js Parser ParserFacts Templater Server Batch BatchAux ServerFacts
  More.

Lemma slide_outcome_calls env prompt base64Image slide st :
  blank (or_empty prompt) = false ->
  calls (snd (slide_outcome env prompt base64Image slide st))
  = (calls st ++ [slide_request prompt base64Image slide])%list.
Proof.
  intros Hb. unfold slide_outcome. rewrite Hb.
  destruct (generateContent env _ _) as [response | e]; [| reflexivity].
  destruct (response_image response) as [d | e]; [| reflexivity].
  now destruct (writeFileSync env _ _ _).
Qed.

Lemma slide_outcome_blank_calls env prompt base64Image slide st :
  blank (or_empty prompt) = true ->
  snd (slide_outcome env prompt base64Image slide st) = st.
Proof. intros Hb. unfold slide_outcome. now rewrite Hb. Qed.

(** One request per slide, in the order of the slides. *)
Lemma Run_calls env prompt base64Image st slides rs st' :
  Run env prompt base64Image st slides rs st' ->
  calls st'
  = (calls st
     ++ if blank (or_empty prompt) then []
        else List.map (slide_request prompt base64Image) slides)%list.
Proof.
  induction 1 as [st | st slide r st1 rest rs st2 E _ IH
                  | st slide e st1 rest rs st2 E _ IH].
  - destruct (blank _); now rewrite app_nil_r.
  - rewrite remaining_slide_outcome in E. rewrite IH.
    destruct (blank (or_empty prompt)) eqn:Hb.
    + pose proof (slide_outcome_blank_calls env prompt base64Image slide st Hb)
        as Hs. rewrite E in Hs. cbn in Hs. now subst st1.
    + pose proof (slide_outcome_calls env prompt base64Image slide st Hb)
        as Hs. rewrite E in Hs. cbn [snd] in Hs.
      rewrite Hs, <- app_assoc. reflexivity.
  - rewrite remaining_slide_outcome in E. rewrite IH.
    destruct (blank (or_empty prompt)) eqn:Hb.
    + pose proof (slide_outcome_blank_calls env prompt base64Image slide st Hb)
        as Hs. rewrite E in Hs. cbn in Hs. now subst st1.
    + pose proof (slide_outcome_calls env prompt base64Image slide st Hb)
        as Hs. rewrite E in Hs. cbn [snd] in Hs.
      rewrite Hs, <- app_assoc. reflexivity.
Qed.

(** The files of a run and the image URLs of its results name the same
    files in the same order. *)
Lemma Run_files env prompt base64Image st slides rs st' :
  Run env prompt base64Image st slides rs st' ->
  exists files : list (string * string),
    written st'
    = (written st
       ++ List.map (fun fd => (filepath_of env (fst fd), snd fd)) files)%list
    /\ result_urls rs = List.map (fun fd => imageUrl_of (fst fd)) files.
Proof.
  induction 1 as [st | st slide r st1 rest rs st2 E _ IH
                  | st slide e st1 rest rs st2 E _ IH].
  - exists []. cbn. now rewrite app_nil_r.
  - destruct IH as (files & Hw & Hu).
    destruct (remaining_slide_ok _ _ _ _ _ _ _ E)
      as (_ & _ & _ & Hurl & d & Hd).
    exists ((filename_of env (slideNumber slide)
               (date_now env (clock_reads st)), d) :: files).
    rewrite Hw, Hd, <- app_assoc. split; [reflexivity |].
    cbn [result_urls flat_map List.map fst]. rewrite Hurl.
    cbn [app]. f_equal. exact Hu.
  - destruct IH as (files & Hw & Hu).
    rewrite (remaining_slide_throw _ _ _ _ _ _ _ E) in Hw.
    exists files. split; [exact Hw |]. exact Hu.
Qed.

End StageFacts.

(** X7: the first stage always answers, and never writes a file.  Without a
    transcript or with a blank prompt it answers 400 and does nothing.
    Otherwise it makes exactly one call, of the text model with the
    substituted prompt: when the call returns, whatever the shape of its
    response, the answer is 200 with the slides parsed from the text of the
    response; when the call throws, the answer is 500 with the message. *)
Theorem X7_generate_content_outcome (env : Server.Env)
    (req : Server.GenerateContentRequest) (st : Server.State) :
  exists resp st',
    Server.generate_content env req st = (Js.Ok resp, st')
    /\ Server.written st' = Server.written st
    /\ if Server.missing (Server.gc_transcript req)
          || Templater.blank (Server.or_empty (Server.gc_prompt req))
       then Server.status resp = 400 /\ st' = st
       else
         Server.calls st'
         = (Server.calls st ++ [More.content_request req])%list
         /\ match Server.generateContent env (List.length (Server.calls st))
                    (More.content_request req) with
            | Js.Ok response =>
                exists slides,
                  Parser.parseSlideContent (Server.extract_text env response)
                  = Js.Ok slides
                  /\ resp = {| Server.status := 200;
                               Server.body :=
                                 Server.ContentBody slides
                                   (Server.extract_text env response) |}
            | Js.Throw e =>
                resp = {| Server.status := 500;
                          Server.body :=
                            Server.ErrorBody "Failed to generate content"
                              (Some (Server.message_of e)) |}
            end.
Proof.
  unfold Server.generate_content, Server.try_catch.
  destruct (Server.missing (Server.gc_transcript req)).
  { eexists; eexists. cbn. repeat split. }
  destruct (Templater.blank (Server.or_empty (Server.gc_prompt req))).
  { eexists; eexists. cbn. repeat split. }
  cbn [orb]. unfold Server.mbind at 1, Server.call_api.
  fold (More.content_request req).
  destruct (Server.generateContent env (List.length (Server.calls st))
              (More.content_request req)) as [response | e].
  - unfold Server.mbind, Server.lift, Server.ret.
    rewrite ParserFacts.parseSlideContent_flat.
    eexists; eexists. split; [reflexivity |]. cbn.
    split; [reflexivity |]. split; [reflexivity |].
    eexists. split; reflexivity.
  - eexists; eexists. split; [reflexivity |]. cbn. repeat split.
Qed.

(** X8: the second stage always answers.  It answers 200 exactly when it has
    written one file: the call of the image model returned a response whose
    first candidate has a part with image data, that data is what the file
    holds, the URL of the answer names the file written, and the slide
    number of the request is returned.  Every other answer is an error
    without a file, and an answer 400 comes before any call. *)
Theorem X8_first_image_file_iff_ok (env : Server.Env)
    (req : Server.GenerateFirstImageRequest) (st : Server.State) :
  exists resp st',
    Server.generate_first_image env req st = (Js.Ok resp, st')
    /\ ((Server.status resp = 200
         /\ exists response candidate rest ps d filename,
              Server.generateContent env (List.length (Server.calls st))
                (More.first_image_request req) = Js.Ok response
              /\ Server.candidates response = Some (candidate :: rest)
              /\ Server.parts candidate = Some ps
              /\ Server.find_image ps = Some d
              /\ Server.calls st'
                 = (Server.calls st ++ [More.first_image_request req])%list
              /\ Server.written st'
                 = (Server.written st
                    ++ [(Server.filepath_of env filename, d)])%list
              /\ Server.body resp
                 = Server.FirstImageBody (Server.imageUrl_of filename)
                     (Server.fi_slideNumber req) (Server.tokens_of response))
        \/ (Server.status resp <> 200
            /\ (exists err msg, Server.body resp = Server.ErrorBody err msg)
            /\ Server.written st' = Server.written st
            /\ (Server.status resp = 400 -> st' = st)
            /\ (Server.calls st' = Server.calls st
                \/ Server.calls st'
                   = (Server.calls st ++ [More.first_image_request req])%list))).
Proof.
  assert (Hfail : forall err msg n st',
             n <> 200 -> (n = 400 -> st' = st) ->
             Server.written st' = Server.written st ->
             (Server.calls st' = Server.calls st
              \/ Server.calls st'
                 = (Server.calls st ++ [More.first_image_request req])%list) ->
             let resp := {| Server.status := n;
                            Server.body := Server.ErrorBody err msg |} in
             (Server.status resp = 200
         /\ exists response candidate rest ps d filename,
              Server.generateContent env (List.length (Server.calls st))
                (More.first_image_request req) = Js.Ok response
              /\ Server.candidates response = Some (candidate :: rest)
              /\ Server.parts candidate = Some ps
              /\ Server.find_image ps = Some d
              /\ Server.calls st'
                 = (Server.calls st ++ [More.first_image_request req])%list
              /\ Server.written st'
                 = (Server.written st
                    ++ [(Server.filepath_of env filename, d)])%list
              /\ Server.body resp
                 = Server.FirstImageBody (Server.imageUrl_of filename)
                     (Server.fi_slideNumber req) (Server.tokens_of response))
        \/ (Server.status resp <> 200
            /\ (exists err msg, Server.body resp = Server.ErrorBody err msg)
            /\ Server.written st' = Server.written st
            /\ (Server.status resp = 400 -> st' = st)
            /\ (Server.calls st' = Server.calls st
                \/ Server.calls st'
                   = (Server.calls st ++ [More.first_image_request req])%list))).
  { intros err msg n st' Hn H4 Hw Hc resp. right. subst resp. cbn.
    split; [exact Hn |]. split; [now exists err, msg |].
    split; [exact Hw |]. split; [exact H4 | exact Hc]. }
  unfold Server.generate_first_image, Server.try_catch.
  destruct (Server.missing (Server.fi_heading req)
            || Server.missing (Server.fi_explanation req)).
  { eexists; eexists. split; [reflexivity |].
    apply Hfail; [discriminate | reflexivity | reflexivity | now left]. }
  unfold Server.mbind at 1.
  destruct (Templater.blank (Server.or_empty (Server.fi_prompt req))).
  { eexists; eexists. split; [reflexivity |].
    apply Hfail; [discriminate | discriminate | reflexivity | now left]. }
  unfold Server.ret at 1, Server.mbind at 1, Server.call_api.
  fold (More.first_image_request req).
  destruct (Server.generateContent env (List.length (Server.calls st))
              (More.first_image_request req)) as [response | e] eqn:Ec.
  2:{ eexists; eexists. split; [reflexivity |].
      apply Hfail; [discriminate | discriminate | reflexivity | now right]. }
  destruct (Server.candidates response) as [[|candidate cs]|] eqn:Ecs.
  1,3: (eexists; eexists; split; [reflexivity |];
        apply Hfail; [discriminate | discriminate | reflexivity | now right]).
  destruct (Server.parts candidate) as [ps|] eqn:Eps.
  2:{ eexists; eexists. split; [reflexivity |].
      apply Hfail; [discriminate | discriminate | reflexivity | now right]. }
  destruct (Server.find_image ps) as [d|] eqn:Ef.
  2:{ eexists; eexists. split; [reflexivity |].
      apply Hfail; [discriminate | discriminate | reflexivity | now right]. }
  unfold Server.mbind, Server.now, Server.write_file. cbn.
  destruct (Server.writeFileSync env _ _ _).
  { eexists; eexists. split; [reflexivity |].
    apply Hfail; [discriminate | discriminate | reflexivity | now right]. }
  eexists; eexists. split; [reflexivity |]. left. cbn.
  split; [reflexivity |].
  exists response, candidate, cs, ps, d,
    (Server.filename_of env (Server.fi_slideNumber req)
       (Server.date_now env (Server.clock_reads st))).
  repeat split; assumption.
Qed.

(** X9: the calls of the third stage.  When the slides, the URL or the
    reference image are not in order, when the image cannot be read, or when
    the prompt is blank, it makes no call at all; otherwise it makes exactly
    one call per slide, in the order of the slides, each with the prompt of
    that slide and the same reference image. *)
Theorem X9_remaining_requests (env : Server.Env)
    (req : Server.GenerateRemainingImagesRequest) (st : Server.State) :
  Server.calls (snd (Server.generate_remaining_images env req st))
  = (Server.calls st
     ++ match Server.ri_slides req,
              Server.readFileSync env
                (Server.join_root env
                   (Server.strip_leading_slash
                      (Server.or_empty (Server.ri_firstImageUrl req)))) with
        | Some slides, Js.Ok imageData =>
            if More.remaining_ready env req
               && negb (Templater.blank
                          (Server.or_empty (Server.ri_prompt req)))
            then List.map
                   (Batch.slide_request (Server.ri_prompt req)
                      (Server.to_base64 env imageData)) slides
            else []
        | _, _ => []
        end)%list.
Proof.
  unfold Server.generate_remaining_images, Server.try_catch,
    More.remaining_ready.
  destruct (Server.ri_slides req) as [[|slide rest]|];
    [cbn; destruct (Server.readFileSync env _); now rewrite app_nil_r
    | | cbn; now rewrite app_nil_r].
  destruct (Server.missing (Server.ri_firstImageUrl req));
    [cbn; destruct (Server.readFileSync env _); now rewrite app_nil_r |].
  destruct (Server.existsSync env _);
    [| cbn; destruct (Server.readFileSync env _); now rewrite app_nil_r].
  cbn [negb andb]. unfold Server.mbind at 1, Server.lift.
  destruct (Server.readFileSync env _) as [imageData | e];
    [| cbn; now rewrite app_nil_r].
  unfold Server.mbind.
  destruct (ServerFacts.remaining_loop_run env (Server.ri_prompt req)
              (Server.to_base64 env imageData) (slide :: rest) [] st)
    as (rs & st' & Hl & Hrun).
  rewrite Hl. cbn [snd Server.ret].
  rewrite (StageFacts.Run_calls _ _ _ _ _ _ _ Hrun).
  now destruct (Templater.blank _).
Qed.

(** X10: the files that the third stage writes and the image URLs that it
    returns name the same files, in the same order: each completed result
    has its own write, and nothing is written for a failed one or for an
    answer that is an error. *)
Theorem X10_remaining_files_match_urls (env : Server.Env)
    (req : Server.GenerateRemainingImagesRequest) (st : Server.State) :
  exists resp st' (files : list (string * string)),
    Server.generate_remaining_images env req st = (Js.Ok resp, st')
    /\ Server.written st'
       = (Server.written st
          ++ List.map (fun fd => (Server.filepath_of env (fst fd), snd fd))
               files)%list
    /\ match Server.body resp with
       | Server.RemainingBody results =>
           More.result_urls results
           = List.map (fun fd => Server.imageUrl_of (fst fd)) files
       | _ => files = []
       end.
Proof.
  assert (Hnil : forall n err msg,
             exists resp st' (files : list (string * string)),
               (Js.Ok {| Server.status := n;
                         Server.body := Server.ErrorBody err msg |}, st)
               = (Js.Ok resp, st')
               /\ Server.written st'
                  = (Server.written st
                     ++ List.map
                          (fun fd => (Server.filepath_of env (fst fd), snd fd))
                          files)%list
               /\ match Server.body resp with
                  | Server.RemainingBody results =>
                      More.result_urls results
                      = List.map (fun fd => Server.imageUrl_of (fst fd)) files
                  | _ => files = []
                  end).
  { intros n err msg. eexists; exists st, []. split; [reflexivity |].
    cbn. now rewrite app_nil_r. }
  unfold Server.generate_remaining_images, Server.try_catch.
  destruct (Server.ri_slides req) as [[|slide rest]|]; try apply Hnil.
  destruct (Server.missing (Server.ri_firstImageUrl req)); [apply Hnil |].
  destruct (Server.existsSync env _); cbn [negb]; [| apply Hnil].
  unfold Server.mbind at 1, Server.lift.
  destruct (Server.readFileSync env _) as [imageData | e]; [| apply Hnil].
  unfold Server.mbind.
  destruct (ServerFacts.remaining_loop_run env (Server.ri_prompt req)
              (Server.to_base64 env imageData) (slide :: rest) [] st)
    as (rs & st' & Hl & Hrun).
  rewrite Hl. cbn [app Server.ret].
  destruct (StageFacts.Run_files _ _ _ _ _ _ _ Hrun) as (files & Hw & Hu).
  eexists; exists st', files. split; [reflexivity |]. now split.
Qed.

(** X11: the status of the third stage depends on what precedes the loop
    only.  It is 400 exactly when the slides are missing or empty, the URL
    is missing or the reference image is not there; 500 exactly when the
    image is there and reading it throws; and 200 in every other case,
    whatever happens to the single slides.  An answer other than 200 is an
    error that comes before any call and any write. *)
Theorem X11_remaining_status (env : Server.Env)
    (req : Server.GenerateRemainingImagesRequest) (st : Server.State) :
  exists resp st',
    Server.generate_remaining_images env req st = (Js.Ok resp, st')
    /\ Server.status resp
       = (if More.remaining_ready env req
          then match Server.readFileSync env
                       (Server.join_root env
                          (Server.strip_leading_slash
                             (Server.or_empty (Server.ri_firstImageUrl req))))
               with
               | Js.Ok _ => 200
               | Js.Throw _ => 500
               end
          else 400)
    /\ (Server.status resp <> 200 ->
        st' = st /\ exists err msg, Server.body resp = Server.ErrorBody err msg)
    /\ (Server.status resp = 200 ->
        exists results,
          Server.body resp = Server.RemainingBody results
          /\ List.map Server.r_slideNumber results
             = List.map Parser.slideNumber
                 (match Server.ri_slides req with
                  | Some slides => slides
                  | None => []
                  end)).
Proof.
  assert (Herr : forall n err msg,
             n <> 200 ->
             let resp := {| Server.status := n;
                            Server.body := Server.ErrorBody err msg |} in
             (Server.status resp <> 200 ->
              st = st
              /\ exists err msg, Server.body resp = Server.ErrorBody err msg)
             /\ (Server.status resp = 200 ->
                 exists results,
                   Server.body resp = Server.RemainingBody results
                   /\ List.map Server.r_slideNumber results
                      = List.map Parser.slideNumber
                          (match Server.ri_slides req with
                           | Some slides => slides
                           | None => []
                           end))).
  { intros n err msg Hn resp. subst resp. cbn. split.
    - intros _. split; [reflexivity | now exists err, msg].
    - intros H. contradiction. }
  unfold Server.generate_remaining_images, Server.try_catch,
    More.remaining_ready.
  destruct (Server.ri_slides req) as [[|slide rest]|] eqn:Es.
  1,3: (eexists; eexists; split; [reflexivity |]; split; [reflexivity |];
        apply Herr; discriminate).
  destruct (Server.missing (Server.ri_firstImageUrl req)).
  { eexists; eexists. split; [reflexivity |]. split; [reflexivity |].
    apply Herr; discriminate. }
  destruct (Server.existsSync env _); cbn [negb andb].
  2:{ eexists; eexists. split; [reflexivity |]. split; [reflexivity |].
      apply Herr; discriminate. }
  unfold Server.mbind at 1, Server.lift.
  destruct (Server.readFileSync env _) as [imageData | e].
  2:{ eexists; eexists. split; [reflexivity |]. split; [reflexivity |].
      apply Herr; discriminate. }
  unfold Server.mbind.
  destruct (ServerFacts.remaining_loop_run env (Server.ri_prompt req)
              (Server.to_base64 env imageData) (slide :: rest) [] st)
    as (rs & st' & Hl & Hrun).
  rewrite Hl. cbn [app Server.ret].
  eexists; eexists. split; [reflexivity |]. cbn [Server.status Server.body].
  split; [reflexivity |]. split; [intros H; now contradiction H |].
  intros _. exists rs. split; [reflexivity |].
  now apply ServerFacts.Run_numbers in Hrun.
Qed.

(** X12: the image of a response is looked for among the parts that are not
    thoughts: the thoughts can be left out without changing what is found.
    What is found is never empty, and it is the data of a part that is not
    a thought and whose MIME type contains the word image. *)
Theorem X12_find_image_skips_thoughts (ps : list Server.Part) :
  Server.find_image ps = Server.find_image (More.spoken ps)
  /\ forall d,
       Server.find_image ps = Some d ->
       d <> ""
       /\ exists p mt,
            In p ps /\ Server.thought p = false
            /\ Server.inlineData p
               = Some {| Server.mimeType := Some mt; Server.data := Some d |}
            /\ Str.includes mt "image" = true.
Proof.
  split.
  - induction ps as [|p rest IH]; [reflexivity |].
    cbn [Server.find_image More.spoken filter].
    destruct (Server.thought p) eqn:Et; cbn [negb]; [exact IH |].
    cbn [Server.find_image]. rewrite Et.
    fold (More.spoken rest). rewrite <- IH. reflexivity.
  - induction ps as [|p rest IH]; intros d H; [discriminate |].
    cbn [Server.find_image] in H.
    assert (Hrest : Server.find_image rest = Some d ->
                    d <> ""
                    /\ exists p0 mt,
                         In p0 (p :: rest) /\ Server.thought p0 = false
                         /\ Server.inlineData p0
                            = Some {| Server.mimeType := Some mt;
                                      Server.data := Some d |}
                         /\ Str.includes mt "image" = true).
    { intros H0. destruct (IH d H0) as (Hd & p0 & mt & Hin & Hx).
      split; [exact Hd |]. exists p0, mt. split; [now right | exact Hx]. }
    destruct (Server.thought p) eqn:Et; [now apply Hrest |].
    destruct (Server.inlineData p) as [[[mt|] [d0|]]|] eqn:Ei;
      try now apply Hrest.
    destruct (Str.includes mt "image") eqn:Em; cbn [andb] in H;
      [| now apply Hrest].
    destruct (Str.truthy d0) eqn:Ed; [| now apply Hrest].
    injection H as <-. split; [now destruct d0 |].
    exists p, mt. split; [now left |]. now repeat split.
Qed.

(** ** The heading of a block *)

Module HeadingFacts.

Import Str StrFacts Re ReSem ReFacts Js Pred ReplaceFacts Parser ParserFacts
  Names Layout LayoutFacts More.

Lemma exec_some_inv f r s m :
  exec f r s = Some m ->
  exists u t m', s = u ++ t /\ match_at f r t = Some m'
                 /\ capture m = capture m'.
Proof.
  revert m; induction s as [|a s IH]; intros m; cbn [exec].
  - destruct (match_at f r "") as [m0|] eqn:E; [| discriminate].
    intros H; injection H as <-. now exists "", "", m0.
  - destruct (match_at f r (String a s)) as [m0|] eqn:E.
    + intros H; injection H as <-. now exists "", (String a s), m0.
    + destruct (exec f r s) as [m1|]; [| discriminate].
      intros H; injection H as <-.
      destruct (IH m1 eq_refl) as (u & t & m' & -> & Hm & Hc).
      now exists (String a u), t, m'.
Qed.

Lemma exec_none_inv f r u t :
  exec f r (u ++ t) = None -> match_at f r t = None.
Proof.
  induction u as [|a u IH]; cbn [append].
  - destruct t; cbn [exec]; now destruct (match_at f r _).
  - cbn [exec]. destruct (match_at f r (String a (u ++ t))); [discriminate |].
    destruct (exec f r (u ++ t)); [discriminate |]. intros _. now apply IH.
Qed.

Lemma star_greedy_some p w s k :
  all p w = true -> k s <> None -> star_greedy p (w ++ s) k <> None.
Proof.
  intros Hw Hk. induction w as [|a w IH]; cbn [append].
  - destruct s as [|b s]; cbn [star_greedy]; [exact Hk |].
    destruct (p b); [| exact Hk].
    destruct (star_greedy p s k); [discriminate | exact Hk].
  - cbn [all] in Hw. apply andb_prop in Hw as [Ha Hw].
    cbn [star_greedy]. rewrite Ha.
    destruct (star_greedy p (w ++ s) k) eqn:E; [discriminate |].
    now contradiction (IH Hw).
Qed.

(** White space, then a group that takes one character or more. *)
Lemma star_group_plus_some f cs1 cs2 w a rest c k :
  all (cset_match f cs1) w = true -> cset_match f cs2 a = true ->
  (forall s0 c0, k s0 c0 <> None) ->
  rmatch f (Seq (Star true cs1) (Group (Plus true cs2)))
    (w ++ String a rest) c k <> None.
Proof.
  intros Hw Ha Hk. cbn [rmatch]. unfold star.
  apply star_greedy_some; [exact Hw |]. cbn beta. rewrite Ha.
  apply (star_greedy_some _ "" rest); [reflexivity | apply Hk].
Qed.

Lemma Matches_seq_inv f r1 r2 s c s2 c2 :
  Matches f (Seq r1 r2) s c s2 c2 ->
  exists s1 c1, Matches f r1 s c s1 c1 /\ Matches f r2 s1 c1 s2 c2.
Proof. intros M. inversion M; subst. eauto. Qed.

Lemma Matches_star_inv f g cs s c s' c' :
  Matches f (Star g cs) s c s' c' ->
  c' = c /\ exists w, s = w ++ s' /\ all (cset_match f cs) w = true.
Proof. intros M. inversion M; subst. eauto. Qed.

Lemma Matches_group_plus_inv f g cs s c s' c' :
  Matches f (Group (Plus g cs)) s c s' c' ->
  exists a v,
    s = String a (v ++ s') /\ cset_match f cs a = true
    /\ all (cset_match f cs) v = true /\ c' = Some (String a v).
Proof.
  intros M. inversion M as [| | | | | | | r s0 c0 s1 c1 Mp | |]; subst.
  inversion Mp; subst. eexists; eexists.
  split; [reflexivity |]. repeat split; try assumption.
  now rewrite consumed_cons.
Qed.

(** A pattern without a group leaves the capture as it is. *)
Lemma Matches_groupless f r s c s' c' :
  Matches f r s c s' c' -> groupless r = true -> c' = c.
Proof.
  induction 1 as [| | r1 r2 s c s1 c1 s2 c2 _ IH1 _ IH2
                  | r1 r2 s c s' c' _ IH | r1 r2 s c s' c' _ IH
                  | | | r s c s' c' _ IH | r s c s' c' _ IH |];
    cbn [groupless]; intros G; try reflexivity; try discriminate.
  - apply andb_prop in G as [G1 G2].
    rewrite (IH2 G2). now apply IH1.
  - apply andb_prop in G as [G1 _]. now apply IH.
  - apply andb_prop in G as [_ G2]. now apply IH.
  - now apply IH.
Qed.

(** A match of a label, white space and a group of one character set,
    possibly with a tail that has no group. *)
Lemma label_group_tail f p g cs r2 t m :
  groupless r2 = true ->
  match_at f (Seq (lit p) (Seq (Star true CSpace)
                             (Seq (Group (Plus g cs)) r2))) t = Some m ->
  lit_starts f p t = true
  /\ exists w a v rest,
       drop (String.length p) t = w ++ String a v ++ rest
       /\ all Chars.is_space w = true
       /\ cset_match f cs a = true /\ all (cset_match f cs) v = true
       /\ capture m = Some (String a v).
Proof.
  intros G. unfold match_at. rewrite rmatch_seq_lit.
  destruct (lit_starts f p t); [| discriminate]. split; [reflexivity |].
  destruct (rmatch f _ (drop (String.length p) t) None accept)
    as [[s' c]|] eqn:E; [| discriminate].
  injection H as <-. cbn [capture].
  destruct (rmatch_sound _ _ _ _ _ _ E) as (s1 & c1 & M & Hk).
  injection Hk as -> ->.
  apply Matches_seq_inv in M as (s2 & c2 & Ms & M).
  apply Matches_star_inv in Ms as (-> & w & Hw & Hall).
  apply Matches_seq_inv in M as (s3 & c3 & Mg & Mt).
  apply Matches_group_plus_inv in Mg as (a & v & -> & Ha & Hv & ->).
  apply Matches_groupless in Mt; [| exact G]. subst c.
  exists w, a, v, s3. rewrite Hw. repeat split; assumption.
Qed.

Lemma label_group f p g cs t m :
  match_at f (Seq (lit p) (Seq (Star true CSpace) (Group (Plus g cs)))) t
  = Some m ->
  lit_starts f p t = true
  /\ exists w a v rest,
       drop (String.length p) t = w ++ String a v ++ rest
       /\ all Chars.is_space w = true
       /\ cset_match f cs a = true /\ all (cset_match f cs) v = true
       /\ capture m = Some (String a v).
Proof.
  unfold match_at. rewrite rmatch_seq_lit.
  destruct (lit_starts f p t); [| discriminate]. split; [reflexivity |].
  destruct (rmatch f _ (drop (String.length p) t) None accept)
    as [[s' c]|] eqn:E; [| discriminate].
  injection H as <-. cbn [capture].
  destruct (rmatch_sound _ _ _ _ _ _ E) as (s1 & c1 & M & Hk).
  injection Hk as -> ->.
  apply Matches_seq_inv in M as (s2 & c2 & Ms & Mg).
  apply Matches_star_inv in Ms as (-> & w & Hw & Hall).
  apply Matches_group_plus_inv in Mg as (a & v & -> & Ha & Hv & ->).
  exists w, a, v, s'. rewrite Hw. repeat split; assumption.
Qed.

(** The second heading pattern matches wherever the label is followed,
    after white space, by a character other than a newline. *)
Lemma heading_2_matches (t w : string) (a : ascii) (rest : string) :
  starts_ci "Heading:" t = true ->
  drop (String.length "Heading:") t = w ++ String a rest ->
  all Chars.is_space w = true -> Ascii.eqb a newline = false ->
  match_at flags_i heading_pattern_2 t <> None.
Proof.
  intros Hs Hd Hw Ha. unfold match_at, heading_pattern_2.
  change (seqs [lit "Heading:"; Star true CSpace; Group (Plus true CNotNl)])
    with (Seq (lit "Heading:")
            (Seq (Star true CSpace) (Group (Plus true CNotNl)))).
  rewrite rmatch_seq_lit, lit_starts_ci, Hs, Hd by reflexivity.
  pose proof (star_group_plus_some flags_i CSpace CNotNl w a rest None accept
                Hw) as H.
  destruct (rmatch flags_i (Seq (Star true CSpace) (Group (Plus true CNotNl)))
              (w ++ String a rest) None accept) as [[s' c]|];
    [discriminate |].
  exfalso. apply H; [| discriminate | reflexivity].
  cbn [cset_match]. now rewrite Ha.
Qed.

(** Where the second pattern finds nothing, only newlines follow the
    label. *)
Lemma heading_2_none_newlines (t : string) :
  starts_ci "Heading:" t = true ->
  match_at flags_i heading_pattern_2 t = None ->
  forall g w rest,
    drop (String.length "Heading:") t = w ++ g ++ rest ->
    all Chars.is_space w = true ->
    all Chars.is_space g = true.
Proof.
  intros Hs Hn. induction g as [|a g IH]; intros w rest Hd Hw;
    [reflexivity |].
  destruct (Ascii.eqb a newline) eqn:Ea.
  - apply Ascii.eqb_eq in Ea. subst a. cbn [all].
    change (Chars.is_space newline) with true. cbn [andb].
    apply (IH (w ++ String newline "") rest).
    + rewrite Hd, append_assoc. reflexivity.
    + rewrite all_app, Hw. reflexivity.
  - exfalso. apply (heading_2_matches t w a (g ++ rest) Hs Hd Hw Ea Hn).
Qed.

Lemma trim_blank (g : string) : all Chars.is_space g = true -> trim g = "".
Proof. intros H. unfold trim. now rewrite (all_spaces_blank g H). Qed.

(** After the first two patterns have found nothing, the third one finds
    at most white space. *)
Lemma heading_3_blank (content : string) (m : found) :
  exec flags_i heading_pattern_2 content = None ->
  exec flags_is heading_pattern_3 content = Some m ->
  exists g, capture m = Some g /\ trim g = "".
Proof.
  intros E2 E3.
  apply exec_some_inv in E3 as (u & t & m' & -> & Hm & Hc).
  apply exec_none_inv in E2.
  unfold heading_pattern_3 in Hm.
  change (seqs [lit "Heading:"; Star true CSpace; Group (Plus false CDot);
                Alt (lit nl) Eoi])
    with (Seq (lit "Heading:")
            (Seq (Star true CSpace)
               (Seq (Group (Plus false CDot)) (Alt (lit nl) Eoi)))) in Hm.
  apply label_group_tail in Hm as (Hs & w & a & v & rest & Hd & Hw & _ & _ & Hg);
    [| reflexivity].
  rewrite lit_starts_ci in Hs by reflexivity.
  exists (String a v). split; [now rewrite Hc |].
  apply trim_blank.
  now apply (heading_2_none_newlines t Hs E2 (String a v) w rest).
Qed.

(** The third heading pattern decides no heading. *)
Lemma extract_heading_short (content : string) :
  extract_heading headingPatterns content
  = extract_heading headingPatterns_short content.
Proof.
  unfold headingPatterns, headingPatterns_short. cbn [extract_heading].
  destruct (exec flags_is heading_pattern_1 content); [reflexivity |].
  destruct (exec flags_i heading_pattern_2 content) eqn:E2; [reflexivity |].
  destruct (exec flags_is heading_pattern_3 content) as [m|] eqn:E3;
    [| reflexivity].
  destruct (heading_3_blank content m E2 E3) as (g & -> & ->). reflexivity.
Qed.

Lemma all_trim_start_keep (p : ascii -> bool) (s : string) :
  all p s = true -> all p (trim_start s) = true.
Proof.
  induction s as [|a s IH]; intros H; [reflexivity |]. cbn [trim_start].
  destruct (Chars.is_space a); [| exact H].
  cbn [all] in H. apply andb_prop in H as [_ H]. now apply IH.
Qed.

Lemma all_trim_end_keep (p : ascii -> bool) (s : string) :
  all p s = true -> all p (trim_end s) = true.
Proof.
  induction s as [|a s IH]; intros H; [reflexivity |]. cbn [trim_end].
  cbn [all] in H. apply andb_prop in H as [Ha H].
  destruct (Chars.is_space a && is_empty (trim_end s)); [reflexivity |].
  cbn [all]. now rewrite Ha, IH.
Qed.

Lemma all_trim_keep (p : ascii -> bool) (s : string) :
  all p s = true -> all p (trim s) = true.
Proof.
  intros H. unfold trim. now apply all_trim_end_keep, all_trim_start_keep.
Qed.

Lemma all_Removed (p : ascii -> bool) (tok s out : string) :
  Spec.Replaced tok "" s out -> all p s = true -> all p out = true.
Proof.
  induction 1 as [| rest out H IH | a rest out Ha H IH]; intros Hs.
  - reflexivity.
  - rewrite all_app in Hs. apply andb_prop in Hs as [_ Hs]. now apply IH.
  - cbn [all] in *. apply andb_prop in Hs as [Hpa Hs]. now rewrite Hpa, IH.
Qed.

Lemma all_strip_emphasis (p : ascii -> bool) (s : string) :
  all p s = true -> all p (strip_emphasis s) = true.
Proof.
  intros H. destruct (strip_emphasis_Stripped s) as (mid & R1 & R2 & _).
  apply (all_Removed p _ _ _ R2). now apply (all_Removed p _ _ _ R1).
Qed.

Lemma capture_line_clean (a : ascii) (v : string) :
  cset_match flags_i CNotNl a = true ->
  all (cset_match flags_i CNotNl) v = true ->
  without newline (strip_emphasis (trim (String a v))) = true.
Proof.
  intros Ha Hv. unfold without.
  apply all_strip_emphasis, all_trim_keep. cbn [all].
  change (cset_match flags_i CNotNl a && all (cset_match flags_i CNotNl) v
          = true).
  now rewrite Ha, Hv.
Qed.

(** The heading of a block holds no newline. *)
Lemma extract_heading_line (content h : string) :
  extract_heading headingPatterns content = Ok h ->
  without newline h = true.
Proof.
  rewrite extract_heading_short.
  unfold headingPatterns_short. cbn [extract_heading].
  destruct (exec flags_is heading_pattern_1 content) as [m|] eqn:E1.
  { apply exec_some_inv in E1 as (u & t & m' & -> & Hm & Hc).
    unfold heading_pattern_1 in Hm.
    change (seqs [lit "Heading:"; Star true CSpace; Group (Plus false CNotNl);
                  Alt (seqs [lit nl; Star true CSpace; lit nl])
                    (lit "Explanation:")])
      with (Seq (lit "Heading:")
              (Seq (Star true CSpace)
                 (Seq (Group (Plus false CNotNl))
                    (Alt (seqs [lit nl; Star true CSpace; lit nl])
                       (lit "Explanation:"))))) in Hm.
    apply label_group_tail in Hm
      as (_ & w & a & v & rest & _ & _ & Ha & Hv & Hg); [| reflexivity].
    rewrite Hc, Hg. intros H; injection H as <-.
    now apply capture_line_clean. }
  destruct (exec flags_i heading_pattern_2 content) as [m|] eqn:E2.
  { apply exec_some_inv in E2 as (u & t & m' & -> & Hm & Hc).
    unfold heading_pattern_2 in Hm.
    change (seqs [lit "Heading:"; Star true CSpace; Group (Plus true CNotNl)])
      with (Seq (lit "Heading:")
              (Seq (Star true CSpace) (Group (Plus true CNotNl)))) in Hm.
    apply label_group in Hm as (_ & w & a & v & rest & _ & _ & Ha & Hv & Hg).
    rewrite Hc, Hg. intros H; injection H as <-.
    now apply capture_line_clean. }
  intros H; injection H as <-. reflexivity.
Qed.

Lemma record_heading (num : option string) (content : string)
    (r : SlideContent) :
  In r (block_records (num, content)) ->
  extract_heading headingPatterns content = Ok (heading r).
Proof.
  unfold block_records, parse_block. cbn [fst snd].
  destruct (extract_heading headingPatterns content) as [h|]; cbn [bind];
    [| intros []].
  destruct (extract_explanation explanationPatterns content "") as [e|];
    cbn [bind]; [| intros []].
  destruct (truthy h && truthy e); [| intros []].
  cbn [app]. intros [<- | []]. reflexivity.
Qed.

End HeadingFacts.

(** X13: the third of the heading patterns decides nothing: when the first
    two find no heading in a block, the third one finds at most white
    space and the heading stays empty, so the heading of a block is the
    same with the first two patterns alone. *)
Theorem X13_third_heading_pattern_idle (content : string) :
  Parser.extract_heading Parser.headingPatterns content
  = Parser.extract_heading More.headingPatterns_short content
  /\ (Re.exec Parser.flags_is Parser.heading_pattern_1 content = None ->
      Re.exec Parser.flags_i Parser.heading_pattern_2 content = None ->
      Parser.extract_heading Parser.headingPatterns content = Js.Ok "").
Proof.
  split; [apply HeadingFacts.extract_heading_short |].
  intros E1 E2. rewrite HeadingFacts.extract_heading_short.
  unfold More.headingPatterns_short. cbn [Parser.extract_heading].
  now rewrite E1, E2.
Qed.

Lemma X13_third_heading_pattern_idle_witness :
  Parser.extract_heading Parser.headingPatterns
    ("Heading:" ++ Parser.nl ++ Parser.nl)
  = Parser.extract_heading More.headingPatterns_short
      ("Heading:" ++ Parser.nl ++ Parser.nl)
  /\ Parser.extract_heading Parser.headingPatterns
       ("Heading:" ++ Parser.nl ++ Parser.nl) = Js.Ok "".
Proof.
  destruct (X13_third_heading_pattern_idle
              ("Heading:" ++ Parser.nl ++ Parser.nl)) as [A B].
  split; [exact A |]. apply B; vm_compute; reflexivity.
Defined.

(** X14: the heading of every record the parser returns is a single line:
    it holds no newline. *)
Theorem X14_heading_single_line (text : string) :
  exists slides,
    Parser.parseSlideContent text = Js.Ok slides
    /\ forall r, In r slides ->
         Names.without Re.newline (Parser.heading r) = true.
Proof.
  eexists. split; [apply ParserFacts.parseSlideContent_flat |].
  intros r Hin. apply in_flat_map in Hin as ([num content] & _ & Hr).
  apply HeadingFacts.record_heading in Hr.
  now apply HeadingFacts.extract_heading_line in Hr.
Qed.

(** ** Finding the slide markers *)

Module MarkerFacts.

Import Str StrFacts Re ReSem ReFacts Js Pred Parser ParserFacts Names Layout
  LayoutFacts More SplitFacts HeadingFacts.

Lemma canonical_fold (a : ascii) : Chars.canonicalize a = fold_case a.
Proof.
  destruct a as [b0 b1 b2 b3 b4 b5 b6 b7];
    destruct b0, b1, b2, b3, b4, b5, b6, b7; reflexivity.
Qed.

Lemma same_lower_canonical (a b : ascii) :
  Chars.to_lower a = Chars.to_lower b ->
  (Chars.canonicalize a =? Chars.canonicalize b)%N = true.
Proof.
  intros H. rewrite !canonical_fold. unfold fold_case. rewrite H.
  apply N.eqb_refl.
Qed.

Lemma lower_starts_ci (p w rest : string) :
  toLowerCase w = toLowerCase p -> starts_ci p (w ++ rest) = true.
Proof.
  unfold toLowerCase. revert w; induction p as [|a p IH]; intros w H;
    [reflexivity |].
  destruct w as [|b w]; [discriminate |]. cbn [map] in H.
  injection H as Hab H. cbn [append starts_ci].
  rewrite (same_lower_canonical a b) by now symmetry.
  now apply IH.
Qed.

Lemma lower_length (p w : string) :
  toLowerCase w = toLowerCase p -> String.length w = String.length p.
Proof.
  intros H. unfold toLowerCase in H.
  now rewrite <- (map_length Chars.to_lower w), H, map_length.
Qed.

(** One character or more of a set, then a group of one character or more
    of another. *)
Lemma plus_group_plus_some f cs1 cs2 a w d rest c k :
  cset_match f cs1 a = true -> all (cset_match f cs1) w = true ->
  cset_match f cs2 d = true ->
  (forall s0 c0, k s0 c0 <> None) ->
  rmatch f (Seq (Plus true cs1) (Group (Plus true cs2)))
    (String a (w ++ String d rest)) c k <> None.
Proof.
  intros Ha Hw Hd Hk. cbn [rmatch]. rewrite Ha. unfold star.
  apply star_greedy_some; [exact Hw |]. cbn beta. rewrite Hd.
  apply (star_greedy_some _ "" rest); [reflexivity | apply Hk].
Qed.

(** The pattern matches at every slide marker. *)
Lemma marker_matches (w ws ds post : string) :
  Spec.is_marker w ws ds ->
  match_at flags_i slide_marker (w ++ ws ++ ds ++ post) <> None.
Proof.
  intros (Hw & Hws & Hsp & Hds & Hdg).
  unfold match_at, slide_marker.
  change (seqs [lit "Slide"; Plus true CSpace; Group (Plus true CDigit)])
    with (Seq (lit "Slide") (Seq (Plus true CSpace) (Group (Plus true CDigit)))).
  rewrite rmatch_seq_lit, lit_starts_ci by reflexivity.
  rewrite (lower_starts_ci "Slide" w) by exact Hw.
  rewrite <- (lower_length "Slide" w Hw), drop_app.
  destruct ws as [|a ws']; [contradiction |].
  destruct ds as [|d ds']; [contradiction |].
  cbn [all] in Hsp, Hdg.
  apply andb_prop in Hsp as [Ha Hsp]. apply andb_prop in Hdg as [Hd Hdg].
  pose proof (plus_group_plus_some flags_i CSpace CDigit a ws' d (ds' ++ post)
                None accept Ha Hsp Hd) as H.
  change (String a ws' ++ String d ds' ++ post)
    with (String a (ws' ++ String d (ds' ++ post))).
  destruct (rmatch flags_i (Seq (Plus true CSpace) (Group (Plus true CDigit)))
              (String a (ws' ++ String d (ds' ++ post))) None accept)
    as [[s' c]|]; [discriminate |].
  exfalso. apply H; [discriminate | reflexivity].
Qed.

Lemma matched_nonempty_text f r t m :
  match_at f r t = Some m -> matched m <> "" -> t <> "".
Proof.
  unfold match_at. intros H Hm ->.
  destruct (rmatch f r "" None accept) as [[s' c]|]; [| discriminate].
  injection H as <-. now apply Hm.
Qed.

(** The split cuts the text at the first place where the pattern matches. *)
Lemma split_go_finds f r :
  (forall t m, match_at f r t = Some m -> matched m <> "") ->
  forall u t cur,
    match_at f r t <> None -> tl (split_go f r (u ++ t) 0 cur) <> [].
Proof.
  intros Hne u t. induction u as [|a u IH]; intros cur Ht.
  - destruct (match_at f r t) as [m|] eqn:E; [| contradiction].
    pose proof (Hne _ _ E) as Hm.
    pose proof (matched_nonempty_text _ _ _ _ E Hm) as Hnil.
    destruct t as [|b t]; [contradiction |].
    cbn [append split_go]. rewrite E.
    destruct (String.length (matched m)) eqn:El;
      [now destruct (matched m) | discriminate].
  - cbn [append split_go].
    destruct (match_at f r (String a (u ++ t))) as [m|] eqn:E.
    + pose proof (Hne _ _ E) as Hm.
      destruct (String.length (matched m)) eqn:El;
        [now destruct (matched m) | discriminate].
    + now apply IH.
Qed.

Lemma blocks_nil (items : list (option string)) :
  blocks items = [] -> items = [].
Proof. destruct items as [|x [|y rest]]; [reflexivity | |]; discriminate. Qed.

End MarkerFacts.

(** X15: the parser has a block to look at exactly when the text holds a
    slide marker, that is the word slide in any case, white space and
    digits, anywhere in the text. *)
Theorem X15_marker_found (text : string) :
  Spec.has_marker text
  <-> Parser.blocks (tl (Js.split Parser.flags_i Parser.slide_marker text))
      <> [].
Proof.
  split.
  - intros (pre & w & ws & ds & post & -> & Hm) Hb.
    apply MarkerFacts.blocks_nil in Hb. revert Hb.
    pose proof (MarkerFacts.marker_matches w ws ds post Hm) as Hmatch.
    destruct (pre ++ w ++ ws ++ ds ++ post) as [|c0 t0] eqn:E0.
    { destruct pre; [| discriminate]. cbn [append] in E0.
      rewrite E0 in Hmatch. now contradiction Hmatch. }
    rewrite LayoutFacts.split_nonempty, <- E0.
    now apply (MarkerFacts.split_go_finds _ _ SplitFacts.marker_match_nonempty).
  - intros Hb.
    destruct (SplitFacts.split_shape Parser.flags_i Parser.slide_marker text
                eq_refl) as (p & tail & Es & _ & Hf).
    rewrite Es in Hb. cbn [tl] in Hb.
    destruct (Parser.blocks tail) as [|b bs]; [now contradiction Hb |].
    inversion Hf as [| b0 bs0 (u & t & m & -> & Hm & _) _]; subst.
    destruct (ParserFacts.match_at_marker _ _ Hm)
      as (w & ws & ds & post & -> & Hmark).
    now exists u, w, ws, ds, post.
Qed.

Lemma X15_marker_found_witness :
  Parser.blocks
    (tl (Js.split Parser.flags_i Parser.slide_marker "Intro sLiDe  07 rest"))
  <> [].
Proof.
  apply (proj1 (X15_marker_found "Intro sLiDe  07 rest")).
  exists "Intro ", "sLiDe", "  ", "07", " rest".
  split; [reflexivity |]. unfold Spec.is_marker.
  repeat split; try reflexivity; discriminate.
Defined.

(** X16: for a whole slide number the name of an image file holds no
    slash, whatever the number and the timestamp are: the file lies in the
    carousel directory itself. *)
Theorem X16_file_name_without_slash (env : Server.Env) (z : Z) (t : N) :
  Names.without "/" (Server.filename_of env (Js.Num z) t) = true.
Proof.
  unfold Server.filename_of. cbn [Server.render_number].
  rewrite !NameFacts.without_app.
  rewrite (NameFacts.digits_without "/" _ eq_refl
             (NameFacts.render_time_digits t)).
  assert (Hu : forall d, Names.without "/" (NilZero.string_of_uint d) = true).
  { intros d. unfold NilZero.string_of_uint.
    destruct d; try reflexivity;
      apply NameFacts.digits_without; try reflexivity;
      apply NameFacts.uint_digits. }
  assert (Hz : Names.without "/" (NilZero.string_of_int (Z.to_int z)) = true).
  { unfold NilZero.string_of_int. destruct (Z.to_int z) as [d | d].
    - apply Hu.
    - change (Names.without "/" (String "-" (NilZero.string_of_uint d)) = true).
      unfold Names.without in *. cbn [Str.all]. now rewrite Hu. }
  rewrite Hz. reflexivity.
Qed.

(** ** From the parser to the image stages *)

Module PipelineFacts.

Import Str Js Parser ParserFacts Templater Server More.

(** The second stage answers 400 exactly when the heading or the
    explanation is missing. *)
Lemma first_image_status env req st :
  exists resp st',
    generate_first_image env req st = (Ok resp, st')
    /\ (status resp = 400
        <-> missing (fi_heading req) || missing (fi_explanation req) = true).
Proof.
  unfold generate_first_image, try_catch.
  destruct (missing (fi_heading req) || missing (fi_explanation req)).
  { eexists; eexists. split; [reflexivity |]. cbn. now split. }
  assert (H5 : forall msg (st' : State),
             exists resp st'',
               (Ok {| status := 500;
                      body := ErrorBody "Failed to generate first image" msg |},
                st')
               = (Ok resp, st'')
               /\ (status resp = 400 <-> false = true)).
  { intros msg st'. eexists; eexists. split; [reflexivity |]. cbn.
    split; discriminate. }
  unfold mbind at 1.
  destruct (blank (or_empty (fi_prompt req))); [apply H5 |].
  unfold ret at 1, mbind at 1, call_api.
  destruct (generateContent env _ _) as [response | e]; [| apply H5].
  destruct (candidates response) as [[|candidate cs]|]; try apply H5.
  destruct (parts candidate) as [ps|]; [| apply H5].
  destruct (find_image ps) as [d|]; [| apply H5].
  unfold mbind, now, write_file. cbn.
  destruct (writeFileSync env _ _ _); [apply H5 |].
  eexists; eexists. split; [reflexivity |]. cbn. split; discriminate.
Qed.

End PipelineFacts.

(** X17: what the parser returns, the second stage takes: a request made
    with the heading and the explanation of any parsed slide is never
    answered with 400. *)
Theorem X17_parsed_slide_accepted (env : Server.Env) (text : string)
    (prompt : option string) (total : Js.number) (st : Server.State) :
  exists slides,
    Parser.parseSlideContent text = Js.Ok slides
    /\ forall r, In r slides ->
         exists resp st',
           Server.generate_first_image env
             {| Server.fi_prompt := prompt;
                Server.fi_heading := Some (Parser.heading r);
                Server.fi_explanation := Some (Parser.explanation r);
                Server.fi_slideNumber := Parser.slideNumber r;
                Server.fi_totalSlides := total |} st
           = (Js.Ok resp, st')
           /\ Server.status resp <> 400.
Proof.
  eexists. split; [apply ParserFacts.parseSlideContent_flat |].
  intros r Hin. apply in_flat_map in Hin as ([num content] & _ & Hr).
  destruct (ParserFacts.block_record_fields num content r Hr)
    as (Hh & He & _).
  destruct (PipelineFacts.first_image_status env
              {| Server.fi_prompt := prompt;
                 Server.fi_heading := Some (Parser.heading r);
                 Server.fi_explanation := Some (Parser.explanation r);
                 Server.fi_slideNumber := Parser.slideNumber r;
                 Server.fi_totalSlides := total |} st)
    as (resp & st' & E & Hiff).
  exists resp, st'. split; [exact E |].
  intros H4. apply Hiff in H4. cbn in H4.
  unfold Server.missing, Server.or_empty in H4.
  destruct (Parser.heading r); [now apply Hh |].
  destruct (Parser.explanation r); [now apply He |]. discriminate.
Qed.
